(** * Skills Guard: the install gate of hermes-agent, embedded in Rocq

    A shallow embedding of [tools/skills_guard.py]: the finding and scan-result
    records, the verdict aggregation, the trust policy, the structural audit of a
    skill directory, the per-file text scan, the content hash and the merge of
    classifier findings.  Python values are modelled as the code handles them:
    a [str] is a sequence of Unicode code points, a [bytes] a sequence of bytes,
    a dict with string keys an association list, and an operation that can raise
    returns a [result]. *)

From Stdlib Require Import List NArith ZArith Bool Lia.
From Stdlib Require Import Strings.Ascii Strings.String Strings.Byte.
From Stdlib Require Import Sorting.Sorted Sorting.Permutation.
Import ListNotations.

Local Open Scope N_scope.
Local Open Scope list_scope.

(** ** Python strings *)

(** A code point, and a Python [str]. *)
Definition char := N.
Definition str := list char.

(** An ASCII literal of the source, as a [str]. *)
Definition lit (s : string) : str :=
  map N_of_ascii (list_ascii_of_string s).

(** [a == b] on strings. *)
Fixpoint str_eqb (a b : str) : bool :=
  match a, b with
  | [], [] => true
  | x :: a', y :: b' => (x =? y) && str_eqb a' b'
  | _, _ => false
  end.

(** [x in xs] for a tuple or set of strings. *)
Definition str_in (x : str) (xs : list str) : bool :=
  existsb (str_eqb x) xs.

(** [c in s] for one character. *)
Definition char_in (c : char) (s : str) : bool :=
  existsb (N.eqb c) s.

(** [s.startswith(p)]. *)
Fixpoint startswith (s p : str) : bool :=
  match p, s with
  | [], _ => true
  | y :: p', x :: s' => (x =? y) && startswith s' p'
  | _ :: _, [] => false
  end.

(** [sep.join(parts)]. *)
Fixpoint join (sep : str) (parts : list str) : str :=
  match parts with
  | [] => []
  | [p] => p
  | p :: ps => p ++ sep ++ join sep ps
  end.

(** [s.split(sep)] for a one-character separator: never empty. *)
Fixpoint split (sep : char) (s : str) : list str :=
  match s with
  | [] => [[]]
  | c :: s' =>
      if c =? sep then [] :: split sep s'
      else match split sep s' with
           | [] => [[c]]
           | l :: ls => (c :: l) :: ls
           end
  end.

(** [c.isspace()]: the code points [str.strip()] removes. *)
Definition isspace (c : char) : bool :=
  ((9 <=? c) && (c <=? 13)) || ((28 <=? c) && (c <=? 32)) ||
  (c =? 133) || (c =? 160) || (c =? 5760) ||
  ((8192 <=? c) && (c <=? 8202)) || (c =? 8232) || (c =? 8233) ||
  (c =? 8239) || (c =? 8287) || (c =? 12288).

Fixpoint lstrip (s : str) : str :=
  match s with
  | c :: s' => if isspace c then lstrip s' else s
  | [] => []
  end.

(** [s.strip()]. *)
Definition strip (s : str) : str :=
  rev (lstrip (rev (lstrip s))).

(** [s.lower()] on the ASCII letters.  The extension tables hold ASCII letters
    only and no other code point lowers to one of their members, so membership of
    a lowered suffix in them is decided by the ASCII letters alone. *)
Definition lower_char (c : char) : char :=
  if (65 <=? c) && (c <=? 90) then c + 32 else c.

Definition lower (s : str) : str := map lower_char s.

(** [str(n)] for a non-negative integer. *)
Fixpoint uint_digits (d : Decimal.uint) : str :=
  match d with
  | Decimal.Nil => []
  | Decimal.D0 d => 48 :: uint_digits d
  | Decimal.D1 d => 49 :: uint_digits d
  | Decimal.D2 d => 50 :: uint_digits d
  | Decimal.D3 d => 51 :: uint_digits d
  | Decimal.D4 d => 52 :: uint_digits d
  | Decimal.D5 d => 53 :: uint_digits d
  | Decimal.D6 d => 54 :: uint_digits d
  | Decimal.D7 d => 55 :: uint_digits d
  | Decimal.D8 d => 56 :: uint_digits d
  | Decimal.D9 d => 57 :: uint_digits d
  end.

Definition str_of_N (n : N) : str :=
  match uint_digits (N.to_uint n) with
  | [] => lit "0"
  | ds => ds
  end.

(** [len(xs)] printed in an f-string. *)
Definition str_of_len {A : Type} (xs : list A) : str :=
  str_of_N (N.of_nat (List.length xs)).

(** Lexicographic [a <= b] on strings, code point by code point. *)
Fixpoint str_leb (a b : str) : bool :=
  match a, b with
  | [], _ => true
  | _ :: _, [] => false
  | x :: a', y :: b' => if x <? y then true else if y <? x then false else str_leb a' b'
  end.

(** ** Exceptions *)

Inductive exn := KeyError | IndexError | TypeError | OSError.

Inductive result (A : Type) :=
| Ok (a : A)
| Raise (e : exn).
Arguments Ok {A} a.
Arguments Raise {A} e.

Definition bind {A B : Type} (r : result A) (k : A -> result B) : result B :=
  match r with
  | Ok a => k a
  | Raise e => Raise e
  end.

Notation "x <- r ;; k" := (bind r (fun x => k))
  (at level 61, r at next level, right associativity).

(** ** Dicts with string keys *)

Definition dict (V : Type) := list (str * V).

(** [d.get(k)]: [None] when the key is absent. *)
Fixpoint dict_get {V : Type} (d : dict V) (k : str) : option V :=
  match d with
  | [] => None
  | (k', v) :: d' => if str_eqb k k' then Some v else dict_get d' k
  end.

(** [d[k]]: raises [KeyError] when the key is absent. *)
Definition dict_item {V : Type} (d : dict V) (k : str) : result V :=
  match dict_get d k with
  | Some v => Ok v
  | None => Raise KeyError
  end.

(** [d.get(k, default)]. *)
Definition dict_get_default {V : Type} (d : dict V) (k : str) (default : V) : V :=
  match dict_get d k with
  | Some v => v
  | None => default
  end.

(** [t[i]] for a tuple: raises [IndexError] out of range. *)
Definition tuple_item {A : Type} (t : list A) (i : nat) : result A :=
  match nth_error t i with
  | Some a => Ok a
  | None => Raise IndexError
  end.

(** ** JSON values, as [json.loads] builds them *)

#[local] Set Warnings "-register-all".

(** A float is observed by this module through its truth value only. *)
Inductive json :=
| JNull
| JBool (b : bool)
| JInt (n : Z)
| JFloat (nonzero : bool)
| JStr (s : str)
| JArr (items : list json)
| JObj (fields : list (str * json)).

(** ** Data structures *)

(** The [match] field of a finding: text, or (for a classifier description that
    is a JSON array) the slice of that array. *)
Inductive matched :=
| MText (s : str)
| MItems (items : list json).

Record Finding := mkFinding {
  pattern_id : str;
  severity : str;
  category : str;
  file : str;
  line : N;
  match_ : matched;
  description : str
}.

Record ScanResult := mkScanResult {
  skill_name : str;
  source : str;
  trust_level : str;
  verdict : str;
  findings : list Finding;
  scanned_at : str;
  summary : str
}.

(** ** Hardcoded trust configuration *)

Definition TRUSTED_REPOS : list str :=
  [lit "openai/skills"; lit "anthropics/skills"].

Definition INSTALL_POLICY : dict (list str) :=
  [ (lit "builtin",       [lit "allow"; lit "allow"; lit "allow"]);
    (lit "trusted",       [lit "allow"; lit "allow"; lit "block"]);
    (lit "community",     [lit "allow"; lit "block"; lit "block"]);
    (lit "agent-created", [lit "allow"; lit "block"; lit "block"]) ].

Definition VERDICT_INDEX : dict nat :=
  [ (lit "safe", 0%nat); (lit "caution", 1%nat); (lit "dangerous", 2%nat) ].

(** ** Verdict and summary *)

Definition _determine_verdict (fs : list Finding) : str :=
  match fs with
  | [] => lit "safe"
  | _ =>
      let has_critical := existsb (fun f => str_eqb (severity f) (lit "critical")) fs in
      let has_high := existsb (fun f => str_eqb (severity f) (lit "high")) fs in
      if has_critical then lit "dangerous"
      else if has_high then lit "caution"
      else lit "caution"
  end.

Definition _resolve_trust_level (source : str) : str :=
  if existsb (fun trusted => startswith source trusted || str_eqb source trusted)
             TRUSTED_REPOS
  then lit "trusted"
  else lit "community".

(** [sorted(set(xs))]: insertion into a sorted list without repeats. *)
Fixpoint insert_sorted (x : str) (l : list str) : list str :=
  match l with
  | [] => [x]
  | y :: l' =>
      if str_eqb x y then l
      else if str_leb x y then x :: l
      else y :: insert_sorted x l'
  end.

Definition sorted_set (xs : list str) : list str :=
  fold_right insert_sorted [] xs.

(** U+2014, the dash of the summary line. *)
Definition em_dash : str := [8212].

Definition _build_summary (name source trust verdict : str) (fs : list Finding) : str :=
  match fs with
  | [] => name ++ lit ": clean scan, no threats detected"
  | _ =>
      let categories := sorted_set (map category fs) in
      name ++ lit ": " ++ verdict ++ lit " " ++ em_dash ++ lit " " ++
      str_of_len fs ++ lit " finding(s) in " ++ join (lit ", ") categories
  end.

(** ** The install decision *)

Definition should_allow_install (r : ScanResult) (force : bool)
  : result (bool * str) :=
  if str_eqb (verdict r) (lit "dangerous") && negb force then
    Ok (false, lit "Scan verdict is DANGEROUS (" ++ str_of_len (findings r) ++
               lit " findings). Blocked.")
  else
    default <- dict_item INSTALL_POLICY (lit "community") ;;
    let policy :=
      match dict_get INSTALL_POLICY (trust_level r) with
      | Some p => p
      | None => default
      end in
    let vi := dict_get_default VERDICT_INDEX (verdict r) 2%nat in
    decision <- tuple_item policy vi ;;
    if str_eqb decision (lit "allow") then
      Ok (true, lit "Allowed (" ++ trust_level r ++ lit " source, " ++
                verdict r ++ lit " verdict)")
    else if force then
      Ok (true, lit "Force-installed despite " ++ verdict r ++ lit " verdict (" ++
                str_of_len (findings r) ++ lit " findings)")
    else
      Ok (false, lit "Blocked (" ++ trust_level r ++ lit " source + " ++
                 verdict r ++ lit " verdict, " ++ str_of_len (findings r) ++
                 lit " findings). Use --force to override.").

(** ** Threat patterns: (regex, pattern_id, severity, category, description) *)

Record Pattern := mkPattern {
  p_regex : str;
  p_id : str;
  p_severity : str;
  p_category : str;
  p_description : str
}.

(** The double quote, for the regexes that mention it. *)
Definition dq : str := [34].

Definition THREAT_PATTERNS : list Pattern :=
  [
    mkPattern (lit "curl\s+[^\n]*\$\{?\w*(KEY|TOKEN|SECRET|PASSWORD|CREDENTIAL|API)")
      (lit "env_exfil_curl") (lit "critical") (lit "exfiltration")
      (lit "curl command interpolating secret environment variable");
    mkPattern (lit "wget\s+[^\n]*\$\{?\w*(KEY|TOKEN|SECRET|PASSWORD|CREDENTIAL|API)")
      (lit "env_exfil_wget") (lit "critical") (lit "exfiltration")
      (lit "wget command interpolating secret environment variable");
    mkPattern (lit "fetch\s*\([^\n]*\$\{?\w*(KEY|TOKEN|SECRET|PASSWORD|API)")
      (lit "env_exfil_fetch") (lit "critical") (lit "exfiltration")
      (lit "fetch() call interpolating secret environment variable");
    mkPattern (lit "httpx?\.(get|post|put|patch)\s*\([^\n]*(KEY|TOKEN|SECRET|PASSWORD)")
      (lit "env_exfil_httpx") (lit "critical") (lit "exfiltration")
      (lit "HTTP library call with secret variable");
    mkPattern (lit "requests\.(get|post|put|patch)\s*\([^\n]*(KEY|TOKEN|SECRET|PASSWORD)")
      (lit "env_exfil_requests") (lit "critical") (lit "exfiltration")
      (lit "requests library call with secret variable");
    mkPattern (lit "base64[^\n]*env")
      (lit "encoded_exfil") (lit "high") (lit "exfiltration")
      (lit "base64 encoding combined with environment access");
    mkPattern (lit "\$HOME/\.ssh|\~/\.ssh")
      (lit "ssh_dir_access") (lit "high") (lit "exfiltration")
      (lit "references user SSH directory");
    mkPattern (lit "\$HOME/\.aws|\~/\.aws")
      (lit "aws_dir_access") (lit "high") (lit "exfiltration")
      (lit "references user AWS credentials directory");
    mkPattern (lit "\$HOME/\.gnupg|\~/\.gnupg")
      (lit "gpg_dir_access") (lit "high") (lit "exfiltration")
      (lit "references user GPG keyring");
    mkPattern (lit "\$HOME/\.kube|\~/\.kube")
      (lit "kube_dir_access") (lit "high") (lit "exfiltration")
      (lit "references Kubernetes config directory");
    mkPattern (lit "\$HOME/\.docker|\~/\.docker")
      (lit "docker_dir_access") (lit "high") (lit "exfiltration")
      (lit "references Docker config (may contain registry creds)");
    mkPattern (lit "\$HOME/\.hermes/\.env|\~/\.hermes/\.env")
      (lit "hermes_env_access") (lit "critical") (lit "exfiltration")
      (lit "directly references Hermes secrets file");
    mkPattern (lit "cat\s+[^\n]*(\.env|credentials|\.netrc|\.pgpass|\.npmrc|\.pypirc)")
      (lit "read_secrets_file") (lit "critical") (lit "exfiltration")
      (lit "reads known secrets file");
    mkPattern (lit "printenv|env\s*\|")
      (lit "dump_all_env") (lit "high") (lit "exfiltration")
      (lit "dumps all environment variables");
    mkPattern (lit "os\.environ\b(?!\s*\.get\s*\(\s*[" ++ dq ++ lit "\']PATH)")
      (lit "python_os_environ") (lit "high") (lit "exfiltration")
      (lit "accesses os.environ (potential env dump)");
    mkPattern (lit "os\.getenv\s*\(\s*[^\)]*(?:KEY|TOKEN|SECRET|PASSWORD|CREDENTIAL)")
      (lit "python_getenv_secret") (lit "critical") (lit "exfiltration")
      (lit "reads secret via os.getenv()");
    mkPattern (lit "process\.env\[")
      (lit "node_process_env") (lit "high") (lit "exfiltration")
      (lit "accesses process.env (Node.js environment)");
    mkPattern (lit "ENV\[.*(?:KEY|TOKEN|SECRET|PASSWORD)")
      (lit "ruby_env_secret") (lit "critical") (lit "exfiltration")
      (lit "reads secret via Ruby ENV[]");
    mkPattern (lit "\b(dig|nslookup|host)\s+[^\n]*\$")
      (lit "dns_exfil") (lit "critical") (lit "exfiltration")
      (lit "DNS lookup with variable interpolation (possible DNS exfiltration)");
    mkPattern (lit ">\s*/tmp/[^\s]*\s*&&\s*(curl|wget|nc|python)")
      (lit "tmp_staging") (lit "critical") (lit "exfiltration")
      (lit "writes to /tmp then exfiltrates");
    mkPattern (lit "!\[.*\]\(https?://[^\)]*\$\{?")
      (lit "md_image_exfil") (lit "high") (lit "exfiltration")
      (lit "markdown image URL with variable interpolation (image-based exfil)");
    mkPattern (lit "\[.*\]\(https?://[^\)]*\$\{?")
      (lit "md_link_exfil") (lit "high") (lit "exfiltration")
      (lit "markdown link with variable interpolation");
    mkPattern (lit "ignore\s+(previous|all|above|prior)\s+instructions")
      (lit "prompt_injection_ignore") (lit "critical") (lit "injection")
      (lit "prompt injection: ignore previous instructions");
    mkPattern (lit "you\s+are\s+now\s+")
      (lit "role_hijack") (lit "high") (lit "injection")
      (lit "attempts to override the agent's role");
    mkPattern (lit "do\s+not\s+tell\s+the\s+user")
      (lit "deception_hide") (lit "critical") (lit "injection")
      (lit "instructs agent to hide information from user");
    mkPattern (lit "system\s+prompt\s+override")
      (lit "sys_prompt_override") (lit "critical") (lit "injection")
      (lit "attempts to override the system prompt");
    mkPattern (lit "pretend\s+(you\s+are|to\s+be)\s+")
      (lit "role_pretend") (lit "high") (lit "injection")
      (lit "attempts to make the agent assume a different identity");
    mkPattern (lit "disregard\s+(your|all|any)\s+(instructions|rules|guidelines)")
      (lit "disregard_rules") (lit "critical") (lit "injection")
      (lit "instructs agent to disregard its rules");
    mkPattern (lit "output\s+the\s+(system|initial)\s+prompt")
      (lit "leak_system_prompt") (lit "high") (lit "injection")
      (lit "attempts to extract the system prompt");
    mkPattern (lit "(when|if)\s+no\s*one\s+is\s+(watching|looking)")
      (lit "conditional_deception") (lit "high") (lit "injection")
      (lit "conditional instruction to behave differently when unobserved");
    mkPattern (lit "act\s+as\s+(if|though)\s+you\s+(have\s+no|don\'t\s+have)\s+(restrictions|limits|rules)")
      (lit "bypass_restrictions") (lit "critical") (lit "injection")
      (lit "instructs agent to act without restrictions");
    mkPattern (lit "translate\s+.*\s+into\s+.*\s+and\s+(execute|run|eval)")
      (lit "translate_execute") (lit "critical") (lit "injection")
      (lit "translate-then-execute evasion technique");
    mkPattern (lit "<!--[^>]*(?:ignore|override|system|secret|hidden)[^>]*-->")
      (lit "html_comment_injection") (lit "high") (lit "injection")
      (lit "hidden instructions in HTML comments");
    mkPattern (lit "<\s*div\s+style\s*=\s*[" ++ dq ++ lit "\'].*display\s*:\s*none")
      (lit "hidden_div") (lit "high") (lit "injection")
      (lit "hidden HTML div (invisible instructions)");
    mkPattern (lit "rm\s+-rf\s+/")
      (lit "destructive_root_rm") (lit "critical") (lit "destructive")
      (lit "recursive delete from root");
    mkPattern (lit "rm\s+(-[^\s]*)?r.*\$HOME|\brmdir\s+.*\$HOME")
      (lit "destructive_home_rm") (lit "critical") (lit "destructive")
      (lit "recursive delete targeting home directory");
    mkPattern (lit "chmod\s+777")
      (lit "insecure_perms") (lit "medium") (lit "destructive")
      (lit "sets world-writable permissions");
    mkPattern (lit ">\s*/etc/")
      (lit "system_overwrite") (lit "critical") (lit "destructive")
      (lit "overwrites system configuration file");
    mkPattern (lit "\bmkfs\b")
      (lit "format_filesystem") (lit "critical") (lit "destructive")
      (lit "formats a filesystem");
    mkPattern (lit "\bdd\s+.*if=.*of=/dev/")
      (lit "disk_overwrite") (lit "critical") (lit "destructive")
      (lit "raw disk write operation");
    mkPattern (lit "shutil\.rmtree\s*\(\s*[\" ++ dq ++ lit "\'/]")
      (lit "python_rmtree") (lit "high") (lit "destructive")
      (lit "Python rmtree on absolute or root-relative path");
    mkPattern (lit "truncate\s+-s\s*0\s+/")
      (lit "truncate_system") (lit "critical") (lit "destructive")
      (lit "truncates system file to zero bytes");
    mkPattern (lit "\bcrontab\b")
      (lit "persistence_cron") (lit "medium") (lit "persistence")
      (lit "modifies cron jobs");
    mkPattern (lit "\.(bashrc|zshrc|profile|bash_profile|bash_login|zprofile|zlogin)\b")
      (lit "shell_rc_mod") (lit "medium") (lit "persistence")
      (lit "references shell startup file");
    mkPattern (lit "authorized_keys")
      (lit "ssh_backdoor") (lit "critical") (lit "persistence")
      (lit "modifies SSH authorized keys");
    mkPattern (lit "ssh-keygen")
      (lit "ssh_keygen") (lit "medium") (lit "persistence")
      (lit "generates SSH keys");
    mkPattern (lit "systemd.*\.service|systemctl\s+(enable|start)")
      (lit "systemd_service") (lit "medium") (lit "persistence")
      (lit "references or enables systemd service");
    mkPattern (lit "/etc/init\.d/")
      (lit "init_script") (lit "medium") (lit "persistence")
      (lit "references init.d startup script");
    mkPattern (lit "launchctl\s+load|LaunchAgents|LaunchDaemons")
      (lit "macos_launchd") (lit "medium") (lit "persistence")
      (lit "macOS launch agent/daemon persistence");
    mkPattern (lit "/etc/sudoers|visudo")
      (lit "sudoers_mod") (lit "critical") (lit "persistence")
      (lit "modifies sudoers (privilege escalation)");
    mkPattern (lit "git\s+config\s+--global\s+")
      (lit "git_config_global") (lit "medium") (lit "persistence")
      (lit "modifies global git configuration");
    mkPattern (lit "\bnc\s+-[lp]|ncat\s+-[lp]|\bsocat\b")
      (lit "reverse_shell") (lit "critical") (lit "network")
      (lit "potential reverse shell listener");
    mkPattern (lit "\bngrok\b|\blocaltunnel\b|\bserveo\b|\bcloudflared\b")
      (lit "tunnel_service") (lit "high") (lit "network")
      (lit "uses tunneling service for external access");
    mkPattern (lit "\d{1,3}\.\d{1,3}\.\d{1,3}\.\d{1,3}:\d{2,5}")
      (lit "hardcoded_ip_port") (lit "medium") (lit "network")
      (lit "hardcoded IP address with port");
    mkPattern (lit "0\.0\.0\.0:\d+|INADDR_ANY")
      (lit "bind_all_interfaces") (lit "high") (lit "network")
      (lit "binds to all network interfaces");
    mkPattern (lit "/bin/(ba)?sh\s+-i\s+.*>/dev/tcp/")
      (lit "bash_reverse_shell") (lit "critical") (lit "network")
      (lit "bash interactive reverse shell via /dev/tcp");
    mkPattern (lit "python[23]?\s+-c\s+[" ++ dq ++ lit "\']import\s+socket")
      (lit "python_socket_oneliner") (lit "critical") (lit "network")
      (lit "Python one-liner socket connection (likely reverse shell)");
    mkPattern (lit "socket\.connect\s*\(\s*\(")
      (lit "python_socket_connect") (lit "high") (lit "network")
      (lit "Python socket connect to arbitrary host");
    mkPattern (lit "webhook\.site|requestbin\.com|pipedream\.net|hookbin\.com")
      (lit "exfil_service") (lit "high") (lit "network")
      (lit "references known data exfiltration/webhook testing service");
    mkPattern (lit "pastebin\.com|hastebin\.com|ghostbin\.")
      (lit "paste_service") (lit "medium") (lit "network")
      (lit "references paste service (possible data staging)");
    mkPattern (lit "base64\s+(-d|--decode)\s*\|")
      (lit "base64_decode_pipe") (lit "high") (lit "obfuscation")
      (lit "base64 decodes and pipes to execution");
    mkPattern (lit "\\x[0-9a-fA-F]{2}.*\\x[0-9a-fA-F]{2}.*\\x[0-9a-fA-F]{2}")
      (lit "hex_encoded_string") (lit "medium") (lit "obfuscation")
      (lit "hex-encoded string (possible obfuscation)");
    mkPattern (lit "\beval\s*\(\s*[" ++ dq ++ lit "\']")
      (lit "eval_string") (lit "high") (lit "obfuscation")
      (lit "eval() with string argument");
    mkPattern (lit "\bexec\s*\(\s*[" ++ dq ++ lit "\']")
      (lit "exec_string") (lit "high") (lit "obfuscation")
      (lit "exec() with string argument");
    mkPattern (lit "echo\s+[^\n]*\|\s*(bash|sh|python|perl|ruby|node)")
      (lit "echo_pipe_exec") (lit "critical") (lit "obfuscation")
      (lit "echo piped to interpreter for execution");
    mkPattern (lit "compile\s*\(\s*[^\)]+,\s*[" ++ dq ++ lit "\'].*[" ++ dq ++ lit "\']\s*,\s*[" ++ dq ++ lit "\']exec[" ++ dq ++ lit "\']\s*\)")
      (lit "python_compile_exec") (lit "high") (lit "obfuscation")
      (lit "Python compile() with exec mode");
    mkPattern (lit "getattr\s*\(\s*__builtins__")
      (lit "python_getattr_builtins") (lit "high") (lit "obfuscation")
      (lit "dynamic access to Python builtins (evasion technique)");
    mkPattern (lit "__import__\s*\(\s*[" ++ dq ++ lit "\']os[" ++ dq ++ lit "\']\s*\)")
      (lit "python_import_os") (lit "high") (lit "obfuscation")
      (lit "dynamic import of os module");
    mkPattern (lit "codecs\.decode\s*\(\s*[" ++ dq ++ lit "\']")
      (lit "python_codecs_decode") (lit "medium") (lit "obfuscation")
      (lit "codecs.decode (possible ROT13 or encoding obfuscation)");
    mkPattern (lit "String\.fromCharCode|charCodeAt")
      (lit "js_char_code") (lit "medium") (lit "obfuscation")
      (lit "JavaScript character code construction (possible obfuscation)");
    mkPattern (lit "atob\s*\(|btoa\s*\(")
      (lit "js_base64") (lit "medium") (lit "obfuscation")
      (lit "JavaScript base64 encode/decode");
    mkPattern (lit "\[::-1\]")
      (lit "string_reversal") (lit "low") (lit "obfuscation")
      (lit "string reversal (possible obfuscated payload)");
    mkPattern (lit "chr\s*\(\s*\d+\s*\)\s*\+\s*chr\s*\(\s*\d+")
      (lit "chr_building") (lit "high") (lit "obfuscation")
      (lit "building string from chr() calls (obfuscation)");
    mkPattern (lit "\\u[0-9a-fA-F]{4}.*\\u[0-9a-fA-F]{4}.*\\u[0-9a-fA-F]{4}")
      (lit "unicode_escape_chain") (lit "medium") (lit "obfuscation")
      (lit "chain of unicode escapes (possible obfuscation)");
    mkPattern (lit "subprocess\.(run|call|Popen|check_output)\s*\(")
      (lit "python_subprocess") (lit "medium") (lit "execution")
      (lit "Python subprocess execution");
    mkPattern (lit "os\.system\s*\(")
      (lit "python_os_system") (lit "high") (lit "execution")
      (lit "os.system() " ++ [8212] ++ lit " unguarded shell execution");
    mkPattern (lit "os\.popen\s*\(")
      (lit "python_os_popen") (lit "high") (lit "execution")
      (lit "os.popen() " ++ [8212] ++ lit " shell pipe execution");
    mkPattern (lit "child_process\.(exec|spawn|fork)\s*\(")
      (lit "node_child_process") (lit "high") (lit "execution")
      (lit "Node.js child_process execution");
    mkPattern (lit "Runtime\.getRuntime\(\)\.exec\(")
      (lit "java_runtime_exec") (lit "high") (lit "execution")
      (lit "Java Runtime.exec() " ++ [8212] ++ lit " shell execution");
    mkPattern (lit "`[^`]*\$\([^)]+\)[^`]*`")
      (lit "backtick_subshell") (lit "medium") (lit "execution")
      (lit "backtick string with command substitution");
    mkPattern (lit "\.\./\.\./\.\.")
      (lit "path_traversal_deep") (lit "high") (lit "traversal")
      (lit "deep relative path traversal (3+ levels up)");
    mkPattern (lit "\.\./\.\.")
      (lit "path_traversal") (lit "medium") (lit "traversal")
      (lit "relative path traversal (2+ levels up)");
    mkPattern (lit "/etc/passwd|/etc/shadow")
      (lit "system_passwd_access") (lit "critical") (lit "traversal")
      (lit "references system password files");
    mkPattern (lit "/proc/self|/proc/\d+/")
      (lit "proc_access") (lit "high") (lit "traversal")
      (lit "references /proc filesystem (process introspection)");
    mkPattern (lit "/dev/shm/")
      (lit "dev_shm") (lit "medium") (lit "traversal")
      (lit "references shared memory (common staging area)");
    mkPattern (lit "xmrig|stratum\+tcp|monero|coinhive|cryptonight")
      (lit "crypto_mining") (lit "critical") (lit "mining")
      (lit "cryptocurrency mining reference");
    mkPattern (lit "hashrate|nonce.*difficulty")
      (lit "mining_indicators") (lit "medium") (lit "mining")
      (lit "possible cryptocurrency mining indicators");
    mkPattern (lit "curl\s+[^\n]*\|\s*(ba)?sh")
      (lit "curl_pipe_shell") (lit "critical") (lit "supply_chain")
      (lit "curl piped to shell (download-and-execute)");
    mkPattern (lit "wget\s+[^\n]*-O\s*-\s*\|\s*(ba)?sh")
      (lit "wget_pipe_shell") (lit "critical") (lit "supply_chain")
      (lit "wget piped to shell (download-and-execute)");
    mkPattern (lit "curl\s+[^\n]*\|\s*python")
      (lit "curl_pipe_python") (lit "critical") (lit "supply_chain")
      (lit "curl piped to Python interpreter");
    mkPattern (lit "#\s*///\s*script.*dependencies")
      (lit "pep723_inline_deps") (lit "medium") (lit "supply_chain")
      (lit "PEP 723 inline script metadata with dependencies (verify pinning)");
    mkPattern (lit "pip\s+install\s+(?!-r\s)(?!.*==)")
      (lit "unpinned_pip_install") (lit "medium") (lit "supply_chain")
      (lit "pip install without version pinning");
    mkPattern (lit "npm\s+install\s+(?!.*@\d)")
      (lit "unpinned_npm_install") (lit "medium") (lit "supply_chain")
      (lit "npm install without version pinning");
    mkPattern (lit "uv\s+run\s+")
      (lit "uv_run") (lit "medium") (lit "supply_chain")
      (lit "uv run (may auto-install unpinned dependencies)");
    mkPattern (lit "(curl|wget|httpx?\.get|requests\.get|fetch)\s*[\(]?\s*[" ++ dq ++ lit "\']https?://")
      (lit "remote_fetch") (lit "medium") (lit "supply_chain")
      (lit "fetches remote resource at runtime");
    mkPattern (lit "git\s+clone\s+")
      (lit "git_clone") (lit "medium") (lit "supply_chain")
      (lit "clones a git repository at runtime");
    mkPattern (lit "docker\s+pull\s+")
      (lit "docker_pull") (lit "medium") (lit "supply_chain")
      (lit "pulls a Docker image at runtime");
    mkPattern (lit "^allowed-tools\s*:")
      (lit "allowed_tools_field") (lit "high") (lit "privilege_escalation")
      (lit "skill declares allowed-tools (pre-approves tool access)");
    mkPattern (lit "\bsudo\b")
      (lit "sudo_usage") (lit "high") (lit "privilege_escalation")
      (lit "uses sudo (privilege escalation)");
    mkPattern (lit "setuid|setgid|cap_setuid")
      (lit "setuid_setgid") (lit "critical") (lit "privilege_escalation")
      (lit "setuid/setgid (privilege escalation mechanism)");
    mkPattern (lit "NOPASSWD")
      (lit "nopasswd_sudo") (lit "critical") (lit "privilege_escalation")
      (lit "NOPASSWD sudoers entry (passwordless privilege escalation)");
    mkPattern (lit "chmod\s+[u+]?s")
      (lit "suid_bit") (lit "critical") (lit "privilege_escalation")
      (lit "sets SUID/SGID bit on a file");
    mkPattern (lit "AGENTS\.md|CLAUDE\.md|\.cursorrules|\.clinerules")
      (lit "agent_config_mod") (lit "critical") (lit "persistence")
      (lit "references agent config files (could persist malicious instructions across sessions)");
    mkPattern (lit "\.hermes/config\.yaml|\.hermes/SOUL\.md")
      (lit "hermes_config_mod") (lit "critical") (lit "persistence")
      (lit "references Hermes configuration files directly");
    mkPattern (lit "\.claude/settings|\.codex/config")
      (lit "other_agent_config") (lit "high") (lit "persistence")
      (lit "references other agent configuration files");
    mkPattern (lit "(?:api[_-]?key|token|secret|password)\s*[=:]\s*[" ++ dq ++ lit "\'][A-Za-z0-9+/=_-]{20,}")
      (lit "hardcoded_secret") (lit "critical") (lit "credential_exposure")
      (lit "possible hardcoded API key, token, or secret");
    mkPattern (lit "-----BEGIN\s+(RSA\s+)?PRIVATE\s+KEY-----")
      (lit "embedded_private_key") (lit "critical") (lit "credential_exposure")
      (lit "embedded private key");
    mkPattern (lit "ghp_[A-Za-z0-9]{36}|github_pat_[A-Za-z0-9_]{80,}")
      (lit "github_token_leaked") (lit "critical") (lit "credential_exposure")
      (lit "GitHub personal access token in skill content");
    mkPattern (lit "sk-[A-Za-z0-9]{20,}")
      (lit "openai_key_leaked") (lit "critical") (lit "credential_exposure")
      (lit "possible OpenAI API key in skill content");
    mkPattern (lit "sk-ant-[A-Za-z0-9_-]{90,}")
      (lit "anthropic_key_leaked") (lit "critical") (lit "credential_exposure")
      (lit "possible Anthropic API key in skill content");
    mkPattern (lit "AKIA[0-9A-Z]{16}")
      (lit "aws_access_key_leaked") (lit "critical") (lit "credential_exposure")
      (lit "AWS access key ID in skill content");
    mkPattern (lit "\bDAN\s+mode\b|Do\s+Anything\s+Now")
      (lit "jailbreak_dan") (lit "critical") (lit "injection")
      (lit "DAN (Do Anything Now) jailbreak attempt");
    mkPattern (lit "\bdeveloper\s+mode\b.*\benabled?\b")
      (lit "jailbreak_dev_mode") (lit "critical") (lit "injection")
      (lit "developer mode jailbreak attempt");
    mkPattern (lit "hypothetical\s+scenario.*(?:ignore|bypass|override)")
      (lit "hypothetical_bypass") (lit "high") (lit "injection")
      (lit "hypothetical scenario used to bypass restrictions");
    mkPattern (lit "for\s+educational\s+purposes?\s+only")
      (lit "educational_pretext") (lit "medium") (lit "injection")
      (lit "educational pretext often used to justify harmful content");
    mkPattern (lit "(respond|answer|reply)\s+without\s+(any\s+)?(restrictions|limitations|filters|safety)")
      (lit "remove_filters") (lit "critical") (lit "injection")
      (lit "instructs agent to respond without safety filters");
    mkPattern (lit "you\s+have\s+been\s+(updated|upgraded|patched)\s+to")
      (lit "fake_update") (lit "high") (lit "injection")
      (lit "fake update/patch announcement (social engineering)");
    mkPattern (lit "new\s+policy|updated\s+guidelines|revised\s+instructions")
      (lit "fake_policy") (lit "medium") (lit "injection")
      (lit "claims new policy/guidelines (may be social engineering)");
    mkPattern (lit "(include|output|print|send|share)\s+(the\s+)?(entire\s+)?(conversation|chat\s+history|previous\s+messages|context)")
      (lit "context_exfil") (lit "high") (lit "exfiltration")
      (lit "instructs agent to output/share conversation history");
    mkPattern (lit "(send|post|upload|transmit)\s+.*\s+(to|at)\s+https?://")
      (lit "send_to_url") (lit "high") (lit "exfiltration")
      (lit "instructs agent to send data to a URL")
  ].

(** Structural limits for skill directories. *)
Definition MAX_FILE_COUNT : N := 50.
Definition MAX_TOTAL_SIZE_KB : N := 1024.
Definition MAX_SINGLE_FILE_KB : N := 256.

Definition SCANNABLE_EXTENSIONS : list str :=
  [ lit ".md"; lit ".txt"; lit ".py"; lit ".sh"; lit ".bash"; lit ".js"; lit ".ts";
    lit ".rb"; lit ".yaml"; lit ".yml"; lit ".json"; lit ".toml"; lit ".cfg";
    lit ".ini"; lit ".conf"; lit ".html"; lit ".css"; lit ".xml"; lit ".tex";
    lit ".r"; lit ".jl"; lit ".pl"; lit ".php" ].

Definition SUSPICIOUS_BINARY_EXTENSIONS : list str :=
  [ lit ".exe"; lit ".dll"; lit ".so"; lit ".dylib"; lit ".bin"; lit ".dat";
    lit ".com"; lit ".msi"; lit ".dmg"; lit ".app"; lit ".deb"; lit ".rpm" ].

(** Zero-width and invisible code points, in the order the source lists them
    (the interpreter enumerates the set in an order of its own; a line yields
    one finding whichever comes first). *)
Definition INVISIBLE_CHARS : list char :=
  [ 8203; 8204; 8205; 8288; 8290; 8291; 8292; 65279; 8234; 8235; 8236; 8237;
    8238; 8294; 8295; 8296; 8297 ].

(** [f"{n:04X}"]. *)
Definition hex_digit_upper (d : N) : char :=
  if d <? 10 then 48 + d else 55 + d.

Fixpoint hex_upper_fuel (fuel : nat) (n : N) (acc : str) : str :=
  match fuel with
  | O => acc
  | S fuel' =>
      let acc' := hex_digit_upper (n mod 16) :: acc in
      if n / 16 =? 0 then acc' else hex_upper_fuel fuel' (n / 16) acc'
  end.

Definition hex_upper (n : N) : str :=
  hex_upper_fuel (S (N.to_nat (N.size n))) n [].

Definition zero_pad (width : nat) (s : str) : str :=
  repeat 48 (width - List.length s) ++ s.

Definition u_plus (c : char) : str :=
  lit "U+" ++ zero_pad 4 (hex_upper c).

Definition _unicode_char_name (c : char) : str :=
  let names : list (char * str) :=
    [ (8203, lit "zero-width space");
      (8204, lit "zero-width non-joiner");
      (8205, lit "zero-width joiner");
      (8288, lit "word joiner");
      (8290, lit "invisible times");
      (8291, lit "invisible separator");
      (8292, lit "invisible plus");
      (65279, lit "BOM/zero-width no-break space");
      (8234, lit "LTR embedding");
      (8235, lit "RTL embedding");
      (8236, lit "pop directional");
      (8237, lit "LTR override");
      (8238, lit "RTL override");
      (8294, lit "LTR isolate");
      (8295, lit "RTL isolate");
      (8296, lit "first strong isolate");
      (8297, lit "pop directional isolate") ] in
  match find (fun kv => fst kv =? c) names with
  | Some (_, name) => name
  | None => u_plus c
  end.

(** ** Files, as the scanner reads them *)

(** [os.stat_result], the two fields the audit reads. *)
Record stat_result := mkStat { st_size : N; st_mode : N }.

(** A regular file: its bytes, whether opening it for reading succeeds (an
    [OSError] otherwise), and what [stat()] returns ([None]: [OSError]). *)
Record file_data := mkFile {
  f_bytes : list byte;
  f_readable : bool;
  f_stat : option stat_result
}.

(** [Path.read_bytes()]. *)
Definition read_bytes (d : file_data) : result (list byte) :=
  if f_readable d then Ok (f_bytes d) else Raise OSError.

(** Strict UTF-8, as the [utf-8] codec decodes it: shortest forms only, no
    surrogates, nothing above U+10FFFF. *)
Definition is_cont (b : N) : bool := (128 <=? b) && (b <=? 191).

Fixpoint utf8_decode_N (bs : list N) : option str :=
  match bs with
  | [] => Some []
  | b0 :: r0 =>
      if b0 <? 128 then option_map (cons b0) (utf8_decode_N r0)
      else if (194 <=? b0) && (b0 <=? 223) then
        match r0 with
        | b1 :: r1 =>
            if is_cont b1
            then option_map (cons ((b0 - 192) * 64 + (b1 - 128))) (utf8_decode_N r1)
            else None
        | _ => None
        end
      else if (224 <=? b0) && (b0 <=? 239) then
        match r0 with
        | b1 :: b2 :: r2 =>
            let lo := if b0 =? 224 then 160 else 128 in
            let hi := if b0 =? 237 then 159 else 191 in
            if (lo <=? b1) && (b1 <=? hi) && is_cont b2
            then option_map
                   (cons ((b0 - 224) * 4096 + (b1 - 128) * 64 + (b2 - 128)))
                   (utf8_decode_N r2)
            else None
        | _ => None
        end
      else if (240 <=? b0) && (b0 <=? 244) then
        match r0 with
        | b1 :: b2 :: b3 :: r3 =>
            let lo := if b0 =? 240 then 144 else 128 in
            let hi := if b0 =? 244 then 143 else 191 in
            if (lo <=? b1) && (b1 <=? hi) && is_cont b2 && is_cont b3
            then option_map
                   (cons ((b0 - 240) * 262144 + (b1 - 128) * 4096 +
                          (b2 - 128) * 64 + (b3 - 128)))
                   (utf8_decode_N r3)
            else None
        | _ => None
        end
      else None
  end.

Definition utf8_decode (bs : list byte) : option str :=
  utf8_decode_N (map Byte.to_N bs).

(** Text mode reads with universal newlines: CR LF and a lone CR become LF. *)
Fixpoint universal_newlines (s : str) : str :=
  match s with
  | [] => []
  | c :: s' =>
      if c =? 13 then
        match s' with
        | c' :: s'' => if c' =? 10 then 10 :: universal_newlines s''
                       else 10 :: universal_newlines s'
        | [] => [10]
        end
      else c :: universal_newlines s'
  end.

Inductive read_error := UnicodeDecodeError | ReadOSError.

(** [Path.read_text(encoding='utf-8')]. *)
Definition read_text (d : file_data) : read_error + str :=
  if f_readable d then
    match utf8_decode (f_bytes d) with
    | Some s => inr (universal_newlines s)
    | None => inl UnicodeDecodeError
    end
  else inl ReadOSError.

(** [PurePath.suffix] of a file name: from the last dot on, unless that dot
    starts or ends the name. *)
Fixpoint rfind_dot (name : str) (i : nat) (found : option nat) : option nat :=
  match name with
  | [] => found
  | c :: name' => rfind_dot name' (S i) (if c =? 46 then Some i else found)
  end.

Definition suffix (name : str) : str :=
  match rfind_dot name 0 None with
  | Some i =>
      if (0 <? i)%nat && (i <? List.length name - 1)%nat then skipn i name else []
  | None => []
  end.

(** [enumerate(xs, start)]. *)
Fixpoint enumerate {A : Type} (start : N) (xs : list A) : list (N * A) :=
  match xs with
  | [] => []
  | x :: xs' => (start, x) :: enumerate (start + 1) xs'
  end.

(** ** The regular-expression engine *)

(** [re_search pattern line] is [re.search(pattern, line, re.IGNORECASE)] read
    as a truth value. *)
Class RegexEngine := { re_search : str -> str -> bool }.

(** ** Scanning one file *)

Definition seen_mem (pid : str) (i : N) (seen : list (str * N)) : bool :=
  existsb (fun k => str_eqb pid (fst k) && (i =? snd k)) seen.

(** [matched_text]: the stripped line, cut to 117 characters and an ellipsis
    when longer than 120. *)
Definition matched_text (line_text : str) : str :=
  let m := strip line_text in
  if (120 <? List.length m)%nat then firstn 117 m ++ lit "..." else m.

(** One pattern over every line: the inner loop of the regex pass. *)
Definition scan_pattern {engine : RegexEngine} (rel_path : str) (lines : list (N * str))
    (st : list (str * N) * list Finding) (p : Pattern)
  : list (str * N) * list Finding :=
  fold_left
    (fun (st : list (str * N) * list Finding) (il : N * str) =>
       let '(seen, found) := st in
       let '(i, line_text) := il in
       if seen_mem (p_id p) i seen then st
       else if re_search (p_regex p) line_text then
         ((p_id p, i) :: seen,
          found ++ [mkFinding (p_id p) (p_severity p) (p_category p) rel_path i
                              (MText (matched_text line_text)) (p_description p)])
       else st)
    lines st.

(** The invisible-character pass over one line: at most one finding. *)
Definition scan_invisible (rel_path : str) (il : N * str) : list Finding :=
  let '(i, line_text) := il in
  match find (fun c => char_in c line_text) INVISIBLE_CHARS with
  | Some c =>
      let char_name := _unicode_char_name c in
      [mkFinding (lit "invisible_unicode") (lit "high") (lit "injection") rel_path i
                 (MText (u_plus c ++ lit " (" ++ char_name ++ lit ")"))
                 (lit "invisible unicode character " ++ char_name ++
                  lit " (possible text hiding/injection)")]
  | None => []
  end.

(** [scan_file(file_path, rel_path)]: [file_name] is [file_path.name] and [d]
    what the path leads to. *)
Definition scan_file {engine : RegexEngine} (file_name : str) (d : file_data) (rel_path : str)
  : list Finding :=
  let rel_path := match rel_path with [] => file_name | _ => rel_path end in
  if negb (str_in (lower (suffix file_name)) SCANNABLE_EXTENSIONS) &&
     negb (str_eqb file_name (lit "SKILL.md"))
  then []
  else
    match read_text d with
    | inl _ => []
    | inr content =>
        let lines := enumerate 1 (split 10 content) in
        let '(_, found) := fold_left (scan_pattern rel_path lines) THREAT_PATTERNS ([], []) in
        found ++ flat_map (scan_invisible rel_path) lines
    end.

(** ** The skill directory, as [rglob] enumerates it *)

(** What a directory entry is.  For a symlink: [resolved] is [str(f.resolve())]
    ([None] when it raises [OSError]) and [target] the regular file the link
    leads to, if it leads to one.  [resolve()] is not strict: a link to a path
    that does not exist resolves to that path, so a dangling link is
    [Symlink (Some p) None].  A circular link, on which [resolve()] raises
    [RuntimeError], is no entry of this model. *)
Inductive entry_kind :=
| Regular (d : file_data)
| Directory
| Symlink (resolved : option str) (target : option file_data)
| Special.

(** An entry of [skill_dir.rglob("*")]: its path below the skill root, part by
    part, and what it is.  [rglob] does not descend into a symlinked directory,
    so what lies behind one is no entry. *)
Record entry := mkEntry {
  e_parts : list str;
  e_kind : entry_kind
}.

(** [str(f.relative_to(skill_dir))] and [f.name]. *)
Definition e_rel (e : entry) : str := join (lit "/") (e_parts e).
Definition e_name (e : entry) : str := last (e_parts e) [].

(** [f.is_symlink()]. *)
Definition is_symlink (e : entry) : bool :=
  match e_kind e with
  | Symlink _ _ => true
  | _ => false
  end.

(** What reading [f] reads: [f.is_file()] holds exactly when there is such a
    file, and it follows symlinks. *)
Definition file_of (e : entry) : option file_data :=
  match e_kind e with
  | Regular d => Some d
  | Symlink _ target => target
  | _ => None
  end.

Definition is_file (e : entry) : bool :=
  match file_of e with
  | Some _ => true
  | None => false
  end.

(** What [skill_path] is: a directory ([root_resolved] is
    [str(skill_dir.resolve())], [None] when it raises [OSError], and [entries]
    what [rglob("*")] yields, in its order), a single file, or neither. *)
Inductive skill_node :=
| SkillDir (root_resolved : option str) (entries : list entry)
| SkillFile (d : file_data)
| SkillOther.

Record skill := mkSkill {
  sk_name : str;
  sk_node : skill_node
}.

(** ** Structural checks *)

Definition symlink_findings (root_resolved : option str) (rel : str)
    (resolved : option str) : list Finding :=
  match resolved, root_resolved with
  | Some r, Some root =>
      if negb (startswith r root) then
        [mkFinding (lit "symlink_escape") (lit "critical") (lit "traversal") rel 0
                   (MText (lit "symlink -> " ++ r))
                   (lit "symlink points outside the skill directory")]
      else []
  | _, _ =>
      [mkFinding (lit "broken_symlink") (lit "medium") (lit "traversal") rel 0
                 (MText (lit "broken symlink"))
                 (lit "broken or circular symlink")]
  end.

Definition regular_findings (rel name : str) (st : stat_result) : list Finding :=
  let size := st_size st in
  let ext := lower (suffix name) in
  (if MAX_SINGLE_FILE_KB * 1024 <? size then
     [mkFinding (lit "oversized_file") (lit "medium") (lit "structural") rel 0
                (MText (str_of_N (size / 1024) ++ lit "KB"))
                (lit "file is " ++ str_of_N (size / 1024) ++ lit "KB (limit: " ++
                 str_of_N MAX_SINGLE_FILE_KB ++ lit "KB)")]
   else []) ++
  (if str_in ext SUSPICIOUS_BINARY_EXTENSIONS then
     [mkFinding (lit "binary_file") (lit "critical") (lit "structural") rel 0
                (MText (lit "binary: " ++ ext))
                (lit "binary/executable file (" ++ ext ++
                 lit ") should not be in a skill")]
   else []) ++
  (if negb (str_in ext [lit ".sh"; lit ".bash"; lit ".py"; lit ".rb"; lit ".pl"]) &&
      negb (N.land (st_mode st) 73 =? 0) then
     [mkFinding (lit "unexpected_executable") (lit "medium") (lit "structural") rel 0
                (MText (lit "executable bit set"))
                (lit "file has executable permission but is not a recognized script type")]
   else []).

(** The state of the walk: findings so far, [file_count], [total_size]. *)
Definition walk_state := (list Finding * N * N)%type.

(** One turn of the loop of [_check_structure]. *)
Definition check_entry (root_resolved : option str) (st : walk_state) (e : entry)
  : walk_state :=
  let '(found, file_count, total_size) := st in
  if negb (is_file e) && negb (is_symlink e) then st
  else
    let rel := e_rel e in
    let file_count := file_count + 1 in
    match e_kind e with
    | Symlink resolved _ =>
        (found ++ symlink_findings root_resolved rel resolved, file_count, total_size)
    | Regular d =>
        match f_stat d with
        | None => (found, file_count, total_size)
        | Some s =>
            (found ++ regular_findings rel (e_name e) s, file_count,
             total_size + st_size s)
        end
    | _ => st
    end.

Definition _check_structure (root_resolved : option str) (entries : list entry)
  : list Finding :=
  let '(found, file_count, total_size) :=
    fold_left (check_entry root_resolved) entries ([], 0, 0) in
  found ++
  (if MAX_FILE_COUNT <? file_count then
     [mkFinding (lit "too_many_files") (lit "medium") (lit "structural")
                (lit "(directory)") 0
                (MText (str_of_N file_count ++ lit " files"))
                (lit "skill has " ++ str_of_N file_count ++ lit " files (limit: " ++
                 str_of_N MAX_FILE_COUNT ++ lit ")")]
   else []) ++
  (if MAX_TOTAL_SIZE_KB * 1024 <? total_size then
     [mkFinding (lit "oversized_skill") (lit "high") (lit "structural")
                (lit "(directory)") 0
                (MText (str_of_N (total_size / 1024) ++ lit "KB total"))
                (lit "skill is " ++ str_of_N (total_size / 1024) ++
                 lit "KB total (limit: " ++ str_of_N MAX_TOTAL_SIZE_KB ++ lit "KB)")]
   else []).

(** ** Scanning a skill *)

(** The text pass over one entry of the directory. *)
Definition scan_entry {engine : RegexEngine} (e : entry) : list Finding :=
  match file_of e with
  | Some d => scan_file (e_name e) d (e_rel e)
  | None => []
  end.

(** The findings of [scan_skill]: structural checks first, then every file. *)
Definition scan_findings {engine : RegexEngine} (sk : skill) : list Finding :=
  match sk_node sk with
  | SkillDir root_resolved entries =>
      _check_structure root_resolved entries ++ flat_map scan_entry entries
  | SkillFile d => scan_file (sk_name sk) d (sk_name sk)
  | SkillOther => []
  end.

(** [scan_skill(skill_path, source)]; [now] is the clock's
    [datetime.now(timezone.utc).isoformat()]. *)
Definition scan_skill {engine : RegexEngine} (sk : skill) (source now : str) : ScanResult :=
  let skill_name := sk_name sk in
  let trust_level := _resolve_trust_level source in
  let all_findings := scan_findings sk in
  let verdict := _determine_verdict all_findings in
  let summary := _build_summary skill_name source trust_level verdict all_findings in
  mkScanResult skill_name source trust_level verdict all_findings now summary.

(** ** SHA-256, as [hashlib.sha256] computes it (FIPS 180-4) *)

Module SHA256.

Definition mask32 : N := 4294967295.
Definition w32 (x : N) : N := N.land x mask32.
Definition add32 (x y : N) : N := w32 (x + y).
Definition rotr (n x : N) : N :=
  w32 (N.lor (N.shiftr x n) (N.shiftl x (32 - n))).
Definition shr (n x : N) : N := N.shiftr x n.

Definition Ch (x y z : N) : N :=
  N.lxor (N.land x y) (N.land (N.lxor x mask32) z).
Definition Maj (x y z : N) : N :=
  N.lxor (N.lxor (N.land x y) (N.land x z)) (N.land y z).
Definition Sigma0 (x : N) : N := N.lxor (N.lxor (rotr 2 x) (rotr 13 x)) (rotr 22 x).
Definition Sigma1 (x : N) : N := N.lxor (N.lxor (rotr 6 x) (rotr 11 x)) (rotr 25 x).
Definition sigma0 (x : N) : N := N.lxor (N.lxor (rotr 7 x) (rotr 18 x)) (shr 3 x).
Definition sigma1 (x : N) : N := N.lxor (N.lxor (rotr 17 x) (rotr 19 x)) (shr 10 x).

(** The first primes, by trial division. *)
Definition is_prime (n : N) : bool :=
  forallb (fun d => negb (n mod N.of_nat d =? 0)) (seq 2 (N.to_nat n - 2)).

Definition primes (count : nat) : list N :=
  firstn count (filter is_prime (map N.of_nat (seq 2 310))).

(** The integer cube root, bit by bit from bit [bits - 1] down. *)
Fixpoint icbrt (bits : nat) (n r : N) : N :=
  match bits with
  | O => r
  | S b =>
      let c := r + N.shiftl 1 (N.of_nat b) in
      icbrt b n (if c * c * c <=? n then c else r)
  end.

(** The round constants: the first 32 bits of the fractional parts of the cube
    roots of the first 64 primes. *)
Definition K : list N :=
  map (fun p => w32 (icbrt 35 (N.shiftl p 96) 0)) (primes 64).

(** Big-endian bytes of [x], [n] of them. *)
Fixpoint be_bytes (n : nat) (x : N) : list N :=
  match n with
  | O => []
  | S n' => N.land (N.shiftr x (8 * N.of_nat n')) 255 :: be_bytes n' x
  end.

(** The message, a 1 bit, zeros up to 56 modulo 64, and the bit length. *)
Definition pad (msg : list N) : list N :=
  let len := List.length msg in
  let zeros := ((64 - (len + 9) mod 64) mod 64)%nat in
  msg ++ [128] ++ repeat 0 zeros ++ be_bytes 8 (8 * N.of_nat len).

(** Big-endian 32-bit words of a byte sequence. *)
Fixpoint words (bs : list N) : list N :=
  match bs with
  | a :: b :: c :: d :: r => (((a * 256 + b) * 256 + c) * 256 + d) :: words r
  | _ => []
  end.

(** The message schedule, newest word first: [n] more words after [rw]. *)
Fixpoint schedule (n : nat) (rw : list N) : list N :=
  match n with
  | O => rw
  | S n' =>
      let w := add32 (add32 (sigma1 (nth 1 rw 0)) (nth 6 rw 0))
                     (add32 (sigma0 (nth 14 rw 0)) (nth 15 rw 0)) in
      schedule n' (w :: rw)
  end.

Definition state := (N * N * N * N * N * N * N * N)%type.

(** The initial hash value: the first 32 bits of the fractional parts of the
    square roots of the first 8 primes. *)
Definition H0 : list N :=
  map (fun p => w32 (N.sqrt (N.shiftl p 64))) (primes 8).

Definition state_of (ws : list N) : state :=
  match ws with
  | [a; b; c; d; e; f; g; h] => (a, b, c, d, e, f, g, h)
  | _ => (0, 0, 0, 0, 0, 0, 0, 0)
  end.

Definition round (s : state) (kw : N * N) : state :=
  let '(a, b, c, d, e, f, g, h) := s in
  let '(k, w) := kw in
  let t1 := add32 (add32 (add32 h (Sigma1 e)) (add32 (Ch e f g) k)) w in
  let t2 := add32 (Sigma0 a) (Maj a b c) in
  (add32 t1 t2, a, b, c, add32 d t1, e, f, g).

Definition compress (s : state) (block : list N) : state :=
  let w := rev (schedule 48 (rev (words block))) in
  let '(a, b, c, d, e, f, g, h) := fold_left round (combine K w) s in
  let '(a0, b0, c0, d0, e0, f0, g0, h0) := s in
  (add32 a0 a, add32 b0 b, add32 c0 c, add32 d0 d,
   add32 e0 e, add32 f0 f, add32 g0 g, add32 h0 h).

(** The blocks of 64 bytes of a padded message; [fuel] bounds their number. *)
Fixpoint blocks (fuel : nat) (bs : list N) : list (list N) :=
  match fuel, bs with
  | S fuel', _ :: _ => firstn 64 bs :: blocks fuel' (skipn 64 bs)
  | _, _ => []
  end.

Definition digest_words (msg : list N) : list N :=
  let padded := pad msg in
  let '(a, b, c, d, e, f, g, h) :=
    fold_left compress (blocks (List.length padded) padded) (state_of H0) in
  [a; b; c; d; e; f; g; h].

Definition hex_digit (d : N) : char :=
  if d <? 10 then 48 + d else 87 + d.

Definition hex_byte (b : N) : str :=
  [hex_digit (b / 16); hex_digit (b mod 16)].

(** [hashlib.sha256(msg).hexdigest()]. *)
Definition hexdigest (msg : list byte) : str :=
  flat_map hex_byte (flat_map (be_bytes 4) (digest_words (map Byte.to_N msg))).

End SHA256.

(** ** Content hash *)

(** [sorted(paths)]: paths compare part by part, parts as strings. *)
Fixpoint parts_leb (a b : list str) : bool :=
  match a, b with
  | [], _ => true
  | _ :: _, [] => false
  | x :: a', y :: b' =>
      if str_eqb x y then parts_leb a' b' else str_leb x y
  end.

Fixpoint insert_entry (e : entry) (l : list entry) : list entry :=
  match l with
  | [] => [e]
  | e' :: l' =>
      if parts_leb (e_parts e) (e_parts e') then e :: l
      else e' :: insert_entry e l'
  end.

Definition sorted_entries (entries : list entry) : list entry :=
  fold_right insert_entry [] entries.

(** The bytes fed to the hasher over a directory: every entry that
    [is_file()], in sorted order, an unreadable one skipped. *)
Definition hashed_bytes (entries : list entry) : list byte :=
  flat_map
    (fun e =>
       match file_of e with
       | Some d => match read_bytes d with
                   | Ok bs => bs
                   | Raise _ => []
                   end
       | None => []
       end)
    (sorted_entries entries).

(** [content_hash(skill_path)]. *)
Definition content_hash (sk : skill) : result str :=
  fed <- match sk_node sk with
         | SkillDir _ entries => Ok (hashed_bytes entries)
         | SkillFile d => read_bytes d
         | SkillOther => Ok []
         end ;;
  Ok (lit "sha256:" ++ firstn 16 (SHA256.hexdigest fed)).

(** ** LLM security audit *)

(** What the audit calls outside this module.  [json_loads] is [json.loads]
    ([None]: [JSONDecodeError], the one exception the parser catches; a call
    that raises another one, [RecursionError] on deep nesting or [ValueError]
    on an over-long integer, is no value of this parameter);
    [py_format v] is [f"{v}"]; [configured_model]
    is [_get_configured_model()]; [api_key] is
    [os.getenv("OPENROUTER_API_KEY", "")]; [chat_completion model skill_content]
    is the stripped text of the reply to [LLM_AUDIT_PROMPT] filled with
    [skill_content], [None] when anything in the call raises. *)
Class Collaborators := {
  json_loads : str -> option json;
  py_format : json -> str;
  configured_model : str;
  api_key : str;
  chat_completion : str -> str -> option str
}.

(** [dict.get] on a JSON object; a later binding of a key wins. *)
Definition json_get (fields : list (str * json)) (k : str) : option json :=
  dict_get (rev fields) k.

(** Truth value of a JSON value. *)
Definition truthy (v : json) : bool :=
  match v with
  | JNull => false
  | JBool b => b
  | JInt n => negb (Z.eqb n 0)
  | JFloat nonzero => nonzero
  | JStr s => negb (str_eqb s [])
  | JArr items => match items with [] => false | _ => true end
  | JObj fields => match fields with [] => false | _ => true end
  end.

(** [for item in v]: a list yields its items, a string its characters, a dict
    its keys; anything else is not iterable. *)
Definition py_iter (v : json) : result (list json) :=
  match v with
  | JArr items => Ok items
  | JStr s => Ok (map (fun c => JStr [c]) s)
  | JObj fields => Ok (map (fun kv => JStr (fst kv)) fields)
  | _ => Raise TypeError
  end.

(** The severity of a classifier item, after the check against the four names. *)
Definition llm_severity (v : json) : str :=
  match v with
  | JStr s =>
      if str_in s [lit "critical"; lit "high"; lit "medium"; lit "low"]
      then s else lit "medium"
  | _ => lit "medium"
  end.

Definition llm_finding (sev : str) (m : matched) (desc_text : str) : Finding :=
  mkFinding (lit "llm_audit") sev (lit "llm-detected") (lit "(LLM analysis)") 0
            m (lit "LLM audit: " ++ desc_text).

(** One turn of the loop over the classifier's items.  A truthy description
    that is neither a string nor a list cannot be sliced: [desc[:120]] raises
    ([TypeError]; for a dict, [KeyError] from Python 3.12 on). *)
Definition parse_item {world : Collaborators} (found : list Finding) (item : json)
  : result (list Finding) :=
  match item with
  | JObj fields =>
      let desc := match json_get fields (lit "description") with
                  | Some v => v
                  | None => JStr []
                  end in
      let sev := llm_severity (match json_get fields (lit "severity") with
                               | Some v => v
                               | None => JStr (lit "medium")
                               end) in
      if truthy desc then
        match desc with
        | JStr s => Ok (found ++ [llm_finding sev (MText (firstn 120 s)) s])
        | JArr items =>
            Ok (found ++ [llm_finding sev (MItems (firstn 120 items)) (py_format desc)])
        | _ => Raise TypeError
        end
      else Ok found
  | _ => Ok found
  end.

Fixpoint parse_items {world : Collaborators} (found : list Finding) (items : list json)
  : result (list Finding) :=
  match items with
  | [] => Ok found
  | item :: rest =>
      found' <- parse_item found item ;;
      parse_items found' rest
  end.

(** The text between the fences of a fenced block. *)
Definition strip_fence (text : str) : str :=
  if startswith text (lit "```") then
    let lines := split 10 text in
    let body :=
      if startswith (last lines []) (lit "```")
      then removelast (tl lines)
      else tl lines in
    join [10] body
  else text.

Definition _parse_llm_response {world : Collaborators} (text : str) (name : str)
  : result (list Finding) :=
  let text := strip_fence (strip text) in
  match json_loads text with
  | None => Ok []
  | Some (JObj fields) =>
      items <- py_iter (match json_get fields (lit "findings") with
                        | Some v => v
                        | None => JArr []
                        end) ;;
      parse_items [] items
  | Some _ => Ok []
  end.

(** The text sent to the classifier for a directory: every scannable file
    that reads as text, in sorted order, under a header line. *)
Definition content_part (e : entry) : list str :=
  match file_of e with
  | Some d =>
      if str_in (lower (suffix (e_name e))) SCANNABLE_EXTENSIONS then
        match read_text d with
        | inr text => [lit "--- " ++ e_rel e ++ lit " ---" ++ [10] ++ text]
        | inl _ => []
        end
      else []
  | None => []
  end.

(** The end of [llm_audit_skill], from [if not llm_findings] on: the merge of
    classifier findings into a static result; the verdict is recomputed and may
    not fall below the static one. *)
Definition merge_findings (static_result : ScanResult) (llm_findings : list Finding)
  : ScanResult :=
  match llm_findings with
  | [] => static_result
  | _ =>
      let merged_findings := findings static_result ++ llm_findings in
      let merged_verdict := _determine_verdict merged_findings in
      let verdict_priority : dict nat :=
        [ (lit "safe", 0%nat); (lit "caution", 1%nat); (lit "dangerous", 2%nat) ] in
      let merged_verdict :=
        if (dict_get_default verdict_priority merged_verdict 0 <?
            dict_get_default verdict_priority (verdict static_result) 0)%nat
        then verdict static_result
        else merged_verdict in
      mkScanResult (skill_name static_result) (source static_result)
                   (trust_level static_result) merged_verdict merged_findings
                   (scanned_at static_result)
                   (_build_summary (skill_name static_result) (source static_result)
                                   (trust_level static_result) merged_verdict
                                   merged_findings)
  end.

(** [llm_audit_skill(skill_path, static_result, model)]; [model] is [None]
    when the caller names none. *)
Definition llm_audit_skill {world : Collaborators} (sk : skill) (static_result : ScanResult)
    (model : option str) : result ScanResult :=
  if str_eqb (verdict static_result) (lit "dangerous") then Ok static_result
  else
    let collected : option (list str) :=
      match sk_node sk with
      | SkillDir _ entries => Some (flat_map content_part (sorted_entries entries))
      | SkillFile d =>
          match read_text d with
          | inr text => Some [text]
          | inl _ => None
          end
      | SkillOther => Some []
      end in
    match collected with
    | None => Ok static_result
    | Some [] => Ok static_result
    | Some content_parts =>
        let skill_content := join [10; 10] content_parts in
        let skill_content :=
          if 15000 <? N.of_nat (List.length skill_content)
          then firstn (N.to_nat 15000) skill_content ++ [10; 10] ++
               lit "[... truncated for analysis ...]"
          else skill_content in
        let model := match model with
                     | Some ((_ :: _) as m) => m
                     | _ => configured_model
                     end in
        match model with
        | [] => Ok static_result
        | _ =>
            match api_key with
            | [] => Ok static_result
            | _ =>
                match chat_completion model skill_content with
                | None => Ok static_result
                | Some llm_text =>
                    llm_findings <- _parse_llm_response llm_text (skill_name static_result) ;;
                    Ok (merge_findings static_result llm_findings)
                end
            end
        end
    end.

(** ** A reference engine for literal alternations *)

(** [p in s] for strings. *)
Fixpoint contains (s p : str) : bool :=
  startswith s p ||
  match s with
  | [] => false
  | _ :: s' => contains s' p
  end.

(** A regex metacharacter other than the bar. *)
Definition is_meta (c : char) : bool :=
  char_in c (lit ".^$*+?{}[]\()").

(** [re.search(pattern, line, re.IGNORECASE)] for a pattern that is a bar-separated
    list of literal texts and an ASCII line; a pattern with any other
    metacharacter is outside what this engine decides, and it answers [false]. *)
Definition literal_search (pattern line : str) : bool :=
  if existsb is_meta pattern then false
  else existsb (fun alt => contains (lower line) (lower alt)) (split 124 pattern).

Definition literal_engine : RegexEngine := {| re_search := literal_search |}.

(** ** The scan report *)

(** [str.upper], the case mapping of the interpreter's Unicode tables. *)
Class CaseMapping := { upper : str -> str }.

(** [s.ljust(width)]. *)
Definition ljust (width : nat) (s : str) : str :=
  s ++ repeat 32 (width - List.length s).

(** The key the report sorts findings by. *)
Definition severity_order (sev : str) : nat :=
  dict_get_default
    [ (lit "critical", 0%nat); (lit "high", 1%nat); (lit "medium", 2%nat);
      (lit "low", 3%nat) ] sev 4%nat.

(** [sorted(findings, key=...)]: a stable sort, here by insertion from the
    right. *)
Fixpoint insert_by_severity (f : Finding) (l : list Finding) : list Finding :=
  match l with
  | [] => [f]
  | g :: l' =>
      if (severity_order (severity f) <=? severity_order (severity g))%nat
      then f :: l
      else g :: insert_by_severity f l'
  end.

Definition sorted_by_severity (fs : list Finding) : list Finding :=
  fold_right insert_by_severity [] fs.

(** [f"{f.match[:60]}"]. *)
Definition match_prefix {world : Collaborators} (m : matched) : str :=
  match m with
  | MText s => firstn 60 s
  | MItems items => py_format (JArr (firstn 60 items))
  end.

(** The line of one finding. *)
Definition finding_line {case : CaseMapping} {world : Collaborators} (f : Finding) : str :=
  let sev := ljust 8 (upper (severity f)) in
  let cat := ljust 14 (category f) in
  let loc := ljust 30 (file f ++ lit ":" ++ str_of_N (line f)) in
  lit "  " ++ sev ++ lit " " ++ cat ++ lit " " ++ loc ++ lit " " ++
  dq ++ match_prefix (match_ f) ++ dq.

(** The [lines] of [format_scan_report(result)]. *)
Definition report_lines {case : CaseMapping} {world : Collaborators} (r : ScanResult)
  : result (list str) :=
  let verdict_display := upper (verdict r) in
  let header :=
    lit "Scan: " ++ skill_name r ++ lit " (" ++ source r ++ lit "/" ++
    trust_level r ++ lit ")  Verdict: " ++ verdict_display in
  let listed :=
    match findings r with
    | [] => []
    | fs => map finding_line (sorted_by_severity fs) ++ [[]]
    end in
  decision <- should_allow_install r false ;;
  let '(allowed, reason) := decision in
  let status := if allowed then lit "ALLOWED" else lit "BLOCKED" in
  Ok ([header] ++ listed ++
      [lit "Decision: " ++ status ++ lit " " ++ em_dash ++ lit " " ++ reason]).

(** [format_scan_report(result)]. *)
Definition format_scan_report {case : CaseMapping} {world : Collaborators}
    (r : ScanResult) : result str :=
  lines <- report_lines r ;;
  Ok (join [10] lines).

(** * Vocabulary of the properties, and the inputs they are tried on *)

(** A scan result of a community source with a dangerous verdict. *)
Definition dangerous_community : ScanResult :=
  mkScanResult (lit "demo") (lit "random/repo") (lit "community") (lit "dangerous")
               [] [] [].

(** What [should_allow_install] decides, without the reason. *)
Definition decision_of (r : ScanResult) (force : bool) : option bool :=
  match should_allow_install r force with
  | Ok (allowed, _) => Some allowed
  | Raise _ => None
  end.





Definition finding_of_severity (sev : str) : Finding :=
  mkFinding (lit "demo") sev (lit "structural") (lit "SKILL.md") 0 (MText []) [].

(** The severity order of verdicts, safe < caution < dangerous; any other
    string ranks with safe. *)
Definition verdict_rank (v : str) : nat :=
  if str_eqb v (lit "dangerous") then 2
  else if str_eqb v (lit "caution") then 1
  else 0.

Definition llm_severities : list str :=
  [lit "critical"; lit "high"; lit "medium"; lit "low"].

(** The envelope every merged classifier finding carries. *)
Definition llm_wrapped (f : Finding) : Prop :=
  pattern_id f = lit "llm_audit" /\
  category f = lit "llm-detected" /\
  file f = lit "(LLM analysis)" /\
  line f = 0 /\
  In (severity f) llm_severities.

(** A classifier reply with one finding of an unknown severity, and the value
    [json.loads] builds from it. *)
Definition demo_reply_text : str :=
  lit "{" ++ dq ++ lit "verdict" ++ dq ++ lit ": " ++ dq ++ lit "caution" ++ dq ++
  lit ", " ++ dq ++ lit "findings" ++ dq ++ lit ": [{" ++
  dq ++ lit "description" ++ dq ++ lit ": " ++ dq ++ lit "reads ssh keys" ++ dq ++
  lit ", " ++ dq ++ lit "severity" ++ dq ++ lit ": " ++ dq ++ lit "urgent" ++ dq ++
  lit "}]}".

Definition demo_reply_json : json :=
  JObj [ (lit "verdict", JStr (lit "caution"));
         (lit "findings",
          JArr [ JObj [ (lit "description", JStr (lit "reads ssh keys"));
                        (lit "severity", JStr (lit "urgent")) ] ]) ].

(** Collaborators that answer every request with that reply. *)
Definition demo_collaborators : Collaborators :=
  {| json_loads := fun text =>
       if str_eqb text demo_reply_text then Some demo_reply_json else None;
     py_format := fun _ => [];
     configured_model := lit "demo-model";
     api_key := lit "demo-key";
     chat_completion := fun _ _ => Some demo_reply_text |}.

(** A readable regular file of the given bytes, mode 0o644. *)
Definition plain_file (bs : list byte) : file_data :=
  mkFile bs true (Some (mkStat (N.of_nat (List.length bs)) 420)).

Definition ascii_bytes (s : string) : list byte := list_byte_of_string s.

(** A skill that is its manifest alone, and its clean static scan. *)
Definition manifest_only : skill :=
  mkSkill (lit "demo")
          (SkillDir (Some (lit "/skills/demo"))
                    [mkEntry [lit "SKILL.md"] (Regular (plain_file (ascii_bytes "Be kind.")))]).

Definition clean_result : ScanResult :=
  mkScanResult (lit "demo") (lit "random/repo") (lit "community") (lit "safe")
               [] [] (lit "demo: clean scan, no threats detected").

(** The order [sorted] puts the entries of a directory in. *)
Definition entry_le (a b : entry) : Prop :=
  parts_leb (e_parts a) (e_parts b) = true.

(** The bytes one entry contributes to the hash: those of the file it is or
    leads to, when that file can be read. *)
Definition readable_bytes (e : entry) : list byte :=
  match file_of e with
  | Some d => if f_readable d then f_bytes d else []
  | None => []
  end.

(** The hash as C9 first states it: regular files only, symlinks skipped. *)
Definition claimed_hashed_bytes (entries : list entry) : list byte :=
  flat_map
    (fun e =>
       match e_kind e with
       | Regular d => if f_readable d then f_bytes d else []
       | _ => []
       end)
    (sorted_entries entries).

Definition claimed_content_hash (entries : list entry) : str :=
  lit "sha256:" ++ firstn 16 (SHA256.hexdigest (claimed_hashed_bytes entries)).

(** A skill directory whose one entry is a symlink to a regular file outside
    the skill root. *)
Definition escaping_link (target : file_data) : entry :=
  mkEntry [lit "notes.md"] (Symlink (Some (lit "/home/user/notes.md")) (Some target)).

Definition linked_skill (target : file_data) : skill :=
  mkSkill (lit "demo") (SkillDir (Some (lit "/skills/demo")) [escaping_link target]).

(** Two files, as two enumerations of the same directory. *)
Definition manifest_entry : entry :=
  mkEntry [lit "SKILL.md"] (Regular (plain_file (ascii_bytes "Be kind."))).

Definition helper_entry : entry :=
  mkEntry [lit "scripts"; lit "run.sh"] (Regular (plain_file (ascii_bytes "echo hi"))).

(** What one entry contributes to the structural findings. *)
Definition entry_findings (root_resolved : option str) (e : entry) : list Finding :=
  match e_kind e with
  | Symlink resolved _ => symlink_findings root_resolved (e_rel e) resolved
  | Regular d =>
      match f_stat d with
      | Some s => regular_findings (e_rel e) (e_name e) s
      | None => []
      end
  | _ => []
  end.

(** The pattern ids the text pass can report. *)
Definition text_pattern_ids : list str :=
  lit "invisible_unicode" :: map p_id THREAT_PATTERNS.

(** The findings of pattern [pid] on the file [rel]. *)
Definition reported (pid rel : str) (f : Finding) : bool :=
  str_eqb (file f) rel && str_eqb (pattern_id f) pid.

(** The critical traversal findings on the file [rel]. *)
Definition critical_traversal (rel : str) (f : Finding) : bool :=
  str_eqb (file f) rel && str_eqb (severity f) (lit "critical") &&
  str_eqb (category f) (lit "traversal").

(** A name the text pass reads: a scannable suffix, or the manifest's name. *)
Definition scannable_name (name : str) : bool :=
  str_in (lower (suffix name)) SCANNABLE_EXTENSIONS || str_eqb name (lit "SKILL.md").

(** A symlink whose resolved path does not start with the resolved root. *)
Definition escaping (root_resolved : option str) (e : entry) : Prop :=
  exists r root target,
    e_kind e = Symlink (Some r) target /\ root_resolved = Some root /\
    startswith r root = false.

(** Two entries that are the same, or the same escaping symlink to files that
    differ in their bytes only. *)
Inductive differ_in_escaped_content (root_resolved : option str) : entry -> entry -> Prop :=
| same_entry (e : entry) : differ_in_escaped_content root_resolved e e
| escaped_content (parts : list str) (r root : str) (bs bs' : list byte)
    (readable : bool) (st : option stat_result) :
    root_resolved = Some root ->
    startswith r root = false ->
    differ_in_escaped_content root_resolved
      (mkEntry parts (Symlink (Some r) (Some (mkFile bs readable st))))
      (mkEntry parts (Symlink (Some r) (Some (mkFile bs' readable st)))).

(** U+200B in UTF-8. *)
Definition zero_width_space_bytes : list byte := [xe2; x80; x8b].

(** Files of three bytes and one [stat] result: plain text, and U+200B. *)
Definition three_bytes (bs : list byte) : file_data :=
  mkFile bs true (Some (mkStat 3 420)).

(** A dangling symlink: it points below the skill root at a release that is
    gone.  [resolve()] returns the path all the same. *)
Definition dangling_link : entry :=
  mkEntry [lit "latest"] (Symlink (Some (lit "/skills/demo/releases/1.0")) None).

(** The policy table of the design: the decision for a trust level and a
    verdict, an unknown level read as community and an unknown verdict as
    dangerous. *)
Definition table_allows (trust verdict : str) : bool :=
  let column :=
    if str_eqb verdict (lit "safe") then 0%nat
    else if str_eqb verdict (lit "caution") then 1%nat
    else 2%nat in
  if str_eqb trust (lit "builtin") then true
  else if str_eqb trust (lit "trusted") then (column <=? 1)%nat
  else (column =? 0)%nat.

(** A reply whose one finding has a number as description. *)
Definition numeric_reply : json :=
  JObj [ (lit "findings", JArr [ JObj [ (lit "description", JInt 7) ] ]) ].

Definition numeric_collaborators : Collaborators :=
  {| json_loads := fun _ => Some numeric_reply;
     py_format := fun _ => [];
     configured_model := lit "demo-model";
     api_key := lit "demo-key";
     chat_completion := fun _ _ => Some (lit "{}") |}.

(** What identifies a finding of the text pass: its pattern and its line. *)
Definition finding_key (f : Finding) : str * N := (pattern_id f, line f).

(** The numbered lines of a file the text pass reads: [None] when the name is
    not one it scans or the file does not read as text. *)
Definition scanned_lines (file_name : str) (d : file_data) : option (list (N * str)) :=
  if scannable_name file_name then
    match read_text d with
    | inr content => Some (enumerate 1 (split 10 content))
    | inl _ => None
    end
  else None.

(** The path a finding of [scan_file] is filed under. *)
Definition display_path (file_name rel_path : str) : str :=
  match rel_path with
  | [] => file_name
  | _ => rel_path
  end.

(** The finding a pattern gives on a line. *)
Definition pattern_finding (rel_path : str) (p : Pattern) (i : N) (line_text : str)
  : Finding :=
  mkFinding (p_id p) (p_severity p) (p_category p) rel_path i
            (MText (matched_text line_text)) (p_description p).

(** A line that holds one of the invisible characters. *)
Definition has_invisible (line_text : str) : bool :=
  existsb (fun c => char_in c line_text) INVISIBLE_CHARS.

Definition known_severities : list str :=
  [lit "critical"; lit "high"; lit "medium"; lit "low"].

(** No string occurs twice. *)
Fixpoint distinct (l : list str) : bool :=
  match l with
  | [] => true
  | x :: l' => negb (str_in x l') && distinct l'
  end.

(** A Python source line, as one of the numbered lines of a file. *)
Definition numbered_lines (content : str) : list (N * str) :=
  enumerate 1 (split 10 content).

(** The entry of the table for the system password files. *)
Definition passwd_pattern : Pattern :=
  mkPattern (lit "/etc/passwd|/etc/shadow")
            (lit "system_passwd_access") (lit "critical") (lit "traversal")
            (lit "references system password files").

(** What [_check_structure] counts: the entries that are files or symlinks,
    and the sizes [stat] reports for the regular files. *)
Definition counted (e : entry) : bool := is_file e || is_symlink e.

Definition entry_size (e : entry) : N :=
  match e_kind e with
  | Regular d =>
      match f_stat d with
      | Some s => st_size s
      | None => 0
      end
  | _ => 0
  end.

Definition file_count (entries : list entry) : N :=
  N.of_nat (List.length (filter counted entries)).

Definition total_size (entries : list entry) : N :=
  fold_right (fun e acc => entry_size e + acc) 0 entries.

(** A finding of pattern [pid] is among [fs]; one on the path [rel] is. *)
Definition reports (fs : list Finding) (pid : str) : Prop :=
  exists f, In f fs /\ pattern_id f = pid.

Definition reports_on (fs : list Finding) (pid rel : str) : Prop :=
  exists f, In f fs /\ pattern_id f = pid /\ file f = rel.

(** The extensions of scripts, which may carry the executable bit. *)
Definition script_extensions : list str :=
  [lit ".sh"; lit ".bash"; lit ".py"; lit ".rb"; lit ".pl"].

(** A directory of [n] empty regular files named 0, 1, ... *)
Definition numbered_entry (k : nat) : entry :=
  mkEntry [str_of_N (N.of_nat k)] (Regular (plain_file [])).

Definition numbered_directory (n : nat) : list entry :=
  map numbered_entry (seq 0 n).

(** A finding of severity critical is among [fs]. *)
Definition has_critical (fs : list Finding) : bool :=
  existsb (fun f => str_eqb (severity f) (lit "critical")) fs.

(** A regular file whose extension is one of the binary ones. *)
Definition binary_entry (e : entry) : Prop :=
  exists d s, e_kind e = Regular d /\ f_stat d = Some s /\
              In (lower (suffix (e_name e))) SUSPICIOUS_BINARY_EXTENSIONS.

(** A link out of /skills/foo into its sibling /skills/foobar. *)
Definition sibling_link : entry :=
  mkEntry [lit "notes.md"]
          (Symlink (Some (lit "/skills/foo" ++ lit "bar/secret.md"))
                   (Some (plain_file (ascii_bytes "cat /etc/passwd")))).

(** An executable of 300 KB under a binary extension, mode 0o755. *)
Definition big_binary : entry :=
  mkEntry [lit "bin"; lit "Tool.EXE"]
          (Regular (mkFile [] true (Some (mkStat 307200 493)))).

(** The [description] a classifier item carries, [""] when it has none. *)
Definition item_description (fields : list (str * json)) : json :=
  match json_get fields (lit "description") with
  | Some v => v
  | None => JStr []
  end.

(** An item the loop cannot wrap: an object whose description is truthy and
    neither a string nor a list. *)
Definition bad_item (item : json) : bool :=
  match item with
  | JObj fields =>
      let desc := item_description fields in
      truthy desc &&
      match desc with
      | JStr _ | JArr _ => false
      | _ => true
      end
  | _ => false
  end.

(** A parsed reply on which [_parse_llm_response] raises: an object whose
    [findings] cannot be iterated, or hold a bad item. *)
Definition reply_raises (reply : option json) : bool :=
  match reply with
  | Some (JObj fields) =>
      match py_iter (match json_get fields (lit "findings") with
                     | Some v => v
                     | None => JArr []
                     end) with
      | Ok items => existsb bad_item items
      | Raise _ => true
      end
  | _ => false
  end.

(** A scan result whose verdict and summary are those of its findings. *)
Definition consistent (r : ScanResult) : Prop :=
  verdict r = _determine_verdict (findings r) /\
  summary r = _build_summary (skill_name r) (source r) (trust_level r) (verdict r)
                             (findings r).

(** The demo collaborators with one thing missing: the key, the configured
    model, the connection, a classifier that answers JSON. *)
Definition keyless : Collaborators :=
  {| json_loads := json_loads (Collaborators := demo_collaborators);
     py_format := py_format (Collaborators := demo_collaborators);
     configured_model := lit "demo-model";
     api_key := [];
     chat_completion := chat_completion (Collaborators := demo_collaborators) |}.

Definition modelless : Collaborators :=
  {| json_loads := json_loads (Collaborators := demo_collaborators);
     py_format := py_format (Collaborators := demo_collaborators);
     configured_model := [];
     api_key := lit "demo-key";
     chat_completion := chat_completion (Collaborators := demo_collaborators) |}.

Definition unreachable : Collaborators :=
  {| json_loads := json_loads (Collaborators := demo_collaborators);
     py_format := py_format (Collaborators := demo_collaborators);
     configured_model := lit "demo-model";
     api_key := lit "demo-key";
     chat_completion := fun _ _ => None |}.

Definition chatty : Collaborators :=
  {| json_loads := json_loads (Collaborators := demo_collaborators);
     py_format := py_format (Collaborators := demo_collaborators);
     configured_model := lit "demo-model";
     api_key := lit "demo-key";
     chat_completion := fun _ _ => Some (lit "I cannot review this skill.") |}.

(** A classifier that knows one model only. *)
Definition serving (name : str) : Collaborators :=
  {| json_loads := json_loads (Collaborators := demo_collaborators);
     py_format := py_format (Collaborators := demo_collaborators);
     configured_model := lit "demo-model";
     api_key := lit "demo-key";
     chat_completion := fun m _ =>
       if str_eqb m name then Some demo_reply_text else None |}.

(** The finding the demo reply is merged as, and a low one. *)
Definition demo_llm_finding : Finding :=
  llm_finding (lit "medium") (MText (lit "reads ssh keys")) (lit "reads ssh keys").

Definition low_llm_finding : Finding :=
  llm_finding (lit "low") (MText (lit "long lines")) (lit "long lines").

(** A reply inside a fenced block: the fence with a language tag, the body,
    the closing fence. *)
Definition fenced (lang body : str) : str :=
  lit "```" ++ lang ++ [10] ++ body ++ [10] ++ lit "```".

(** The same collaborators with another classifier. *)
Definition with_classifier (w : Collaborators) (chat : str -> str -> option str)
  : Collaborators :=
  {| json_loads := @json_loads w;
     py_format := @py_format w;
     configured_model := @configured_model w;
     api_key := @api_key w;
     chat_completion := chat |}.

(** The longest text the audit sends: 15000 characters and the marker. *)
Definition max_payload : nat :=
  N.to_nat 15000 + List.length ([10; 10] ++ lit "[... truncated for analysis ...]").

(** An entry that feeds no byte to the hasher. *)
Definition byteless (e : entry) : Prop :=
  file_of e = None \/
  exists d, file_of e = Some d /\ (f_readable d = false \/ f_bytes d = []).

(** A classifier that answers long texts differently: the audit cannot tell. *)
Definition long_text_classifier (m content : str) : option str :=
  if (max_payload <? List.length content)%nat then Some (lit "tampered")
  else chat_completion (Collaborators := demo_collaborators) m content.

(** A classifier item of the documented shape, and the finding it is wrapped
    as. *)
Definition contract_item (p : str * str) : json :=
  JObj [ (lit "description", JStr (fst p)); (lit "severity", JStr (snd p)) ].

Definition wrapped_item (p : str * str) : Finding :=
  llm_finding (if str_in (snd p) llm_severities then snd p else lit "medium")
              (MText (firstn 120 (fst p))) (fst p).

Definition has_description (p : str * str) : bool := negb (str_eqb (fst p) []).

(** A reply of the documented shape: a verdict and a list of items. *)
Definition contract_reply (v : json) (items : list (str * str)) : json :=
  JObj [ (lit "verdict", v); (lit "findings", JArr (map contract_item items)) ].

(** Collaborators whose parser returns one given reply. *)
Definition replying (reply : json) : Collaborators :=
  {| json_loads := fun _ => Some reply;
     py_format := fun _ => [];
     configured_model := lit "demo-model";
     api_key := lit "demo-key";
     chat_completion := fun _ _ => Some (lit "{}") |}.

(** The ASCII case mapping, for results whose strings are ASCII. *)
Definition ascii_upper : CaseMapping :=
  {| upper := map (fun c => if (97 <=? c) && (c <=? 122) then c - 32 else c) |}.

(** Findings of one rank in the order of the report. *)
Definition of_rank (k : nat) (f : Finding) : bool :=
  (severity_order (severity f) =? k)%nat.

Definition severity_le (a b : Finding) : Prop :=
  (severity_order (severity a) <= severity_order (severity b))%nat.

(** The findings of one severity, and those of none of the four, in the order
    they have in the list. *)
Definition with_severity (s : str) (fs : list Finding) : list Finding :=
  filter (fun f => str_eqb (severity f) s) fs.

Definition other_severity (fs : list Finding) : list Finding :=
  filter (fun f => negb (str_in (severity f) known_severities)) fs.

(** The order of the report: critical, high, medium, low, the rest. *)
Definition listing (fs : list Finding) : list Finding :=
  with_severity (lit "critical") fs ++ with_severity (lit "high") fs ++
  with_severity (lit "medium") fs ++ with_severity (lit "low") fs ++
  other_severity fs.

(** Three findings in scan order: low, critical, low. *)
Definition mixed_findings : list Finding :=
  [ mkFinding (lit "first") (lit "low") (lit "structural") (lit "a.md") 1 (MText (lit "rm")) [];
    mkFinding (lit "second") (lit "critical") (lit "structural") (lit "b.md") 2 (MText (lit "rm")) [];
    mkFinding (lit "third") (lit "low") (lit "structural") (lit "c.md") 3 (MText (lit "rm")) [] ].

Definition mixed_result : ScanResult :=
  mkScanResult (lit "demo") (lit "random/repo") (lit "community") (lit "dangerous")
               mixed_findings [] [].

(** * Properties *)

(** ** Strings *)

Lemma str_eqb_eq (a b : str) : str_eqb a b = true <-> a = b.
Proof.
  revert b; induction a as [|x a IH]; intros [|y b]; simpl; split;
    try discriminate; try reflexivity.
  - intros E. apply andb_true_iff in E as [E1 E2].
    apply N.eqb_eq in E1. apply IH in E2. now subst.
  - intros E. injection E as -> ->. rewrite N.eqb_refl. simpl. now apply IH.
Qed.

Lemma str_eqb_refl (a : str) : str_eqb a a = true.
Proof. now apply str_eqb_eq. Qed.

Lemma str_eqb_neq (a b : str) : str_eqb a b = false <-> a <> b.
Proof.
  split.
  - intros E ->. rewrite str_eqb_refl in E. discriminate.
  - intros N. destruct (str_eqb a b) eqn:E; [|reflexivity].
    apply str_eqb_eq in E. contradiction.
Qed.

Lemma str_in_In (x : str) (xs : list str) : str_in x xs = true <-> In x xs.
Proof.
  unfold str_in. rewrite existsb_exists. split.
  - intros [y [Hy E]]. apply str_eqb_eq in E. now subst.
  - intros Hx. exists x. split; [assumption | apply str_eqb_refl].
Qed.

Lemma filter_none {A : Type} (p : A -> bool) (l : list A) :
  Forall (fun x => p x = false) l -> filter p l = [].
Proof.
  induction 1 as [|x l Hx _ IH]; simpl; [reflexivity | now rewrite Hx].
Qed.

(** ** The install decision *)

(** C1, at the failing input: with [force] the gate installs a community skill
    whose verdict is dangerous, although the docstring of [should_allow_install]
    says that force never overrides a dangerous verdict. *)
Example should_allow_install_force_dangerous :
  should_allow_install dangerous_community true
  = Ok (true, lit "Force-installed despite dangerous verdict (0 findings)").
Proof. vm_compute. reflexivity. Qed.

(** The same on every dangerous result of a trusted, community or
    agent-created source: force allows the install. *)
Lemma force_overrides_dangerous (r : ScanResult) :
  verdict r = lit "dangerous" ->
  In (trust_level r) [lit "trusted"; lit "community"; lit "agent-created"] ->
  should_allow_install r true
  = Ok (true, lit "Force-installed despite dangerous verdict (" ++
              str_of_len (findings r) ++ lit " findings)").
Proof.
  intros Hv Ht. unfold should_allow_install. rewrite Hv.
  simpl in Ht.
  destruct Ht as [Ht | [Ht | [Ht | []]]]; rewrite <- Ht; reflexivity.
Qed.

(** Without force a dangerous verdict is blocked, whatever the trust level. *)
Lemma dangerous_blocked_without_force (r : ScanResult) :
  verdict r = lit "dangerous" ->
  exists reason, should_allow_install r false = Ok (false, reason).
Proof.
  intros Hv. unfold should_allow_install. rewrite Hv. simpl. eexists. reflexivity.
Qed.

Ltac case_str_eqb :=
  match goal with
  | |- context [str_eqb ?a ?b] =>
      let E := fresh "E" in destruct (str_eqb a b) eqn:E
  end.

(** C4: [should_allow_install] returns a decision and a non-empty reason for
    every scan result, any strings as trust level and verdict included, and for
    both values of [force]; it never raises. *)
Theorem should_allow_install_total (r : ScanResult) (force : bool) :
  exists allowed reason,
    should_allow_install r force = Ok (allowed, reason) /\ reason <> [].
Proof.
  unfold should_allow_install.
  destruct (str_eqb (verdict r) (lit "dangerous") && negb force).
  - eexists _, _. split; [reflexivity | discriminate].
  - change (dict_item INSTALL_POLICY (lit "community"))
      with (Ok (A := list str) [lit "allow"; lit "block"; lit "block"]).
    unfold bind, dict_get_default, INSTALL_POLICY, VERDICT_INDEX, dict_get.
    repeat case_str_eqb; cbn -[lit str_of_len];
      try (destruct force); eexists _, _; (split; [reflexivity | discriminate]).
Qed.






(** ** The verdict *)

Lemma existsb_severity (s : str) (fs : list Finding) :
  existsb (fun f => str_eqb (severity f) s) fs = str_in s (map severity fs).
Proof.
  unfold str_in. induction fs as [|f fs IH]; simpl; [reflexivity|].
  rewrite IH. f_equal.
  destruct (str_eqb (severity f) s) eqn:E.
  - apply str_eqb_eq in E. rewrite E. symmetry. apply str_eqb_refl.
  - symmetry. apply str_eqb_neq. apply str_eqb_neq in E. congruence.
Qed.

(** The verdict, read off the severities alone. *)
Lemma determine_verdict_by_severities (fs : list Finding) :
  _determine_verdict fs =
  match map severity fs with
  | [] => lit "safe"
  | sevs => if str_in (lit "critical") sevs then lit "dangerous" else lit "caution"
  end.
Proof.
  destruct fs as [|f fs]; [reflexivity|].
  unfold _determine_verdict. rewrite !existsb_severity.
  cbn [map]. destruct (str_in (lit "critical") _); [reflexivity|].
  destruct (str_in (lit "high") _); reflexivity.
Qed.

(** C2: the verdict depends on the severities of the findings only; no finding
    gives safe, a critical finding gives dangerous, and findings none of which
    is critical give caution (with or without a high one), never safe. *)
Theorem determine_verdict_spec (fs : list Finding) :
  (forall fs', map severity fs' = map severity fs ->
               _determine_verdict fs' = _determine_verdict fs) /\
  (fs = [] -> _determine_verdict fs = lit "safe") /\
  ((exists f, In f fs /\ severity f = lit "critical") ->
   _determine_verdict fs = lit "dangerous") /\
  (fs <> [] -> (forall f, In f fs -> severity f <> lit "critical") ->
   _determine_verdict fs = lit "caution" /\ _determine_verdict fs <> lit "safe").
Proof.
  split; [|split; [|split]].
  - intros fs' E. rewrite !determine_verdict_by_severities. now rewrite E.
  - intros ->. reflexivity.
  - intros [f [Hin Hsev]].
    assert (C : str_in (lit "critical") (map severity fs) = true).
    { apply str_in_In. rewrite <- Hsev. now apply in_map. }
    rewrite determine_verdict_by_severities.
    destruct fs as [|g fs]; [contradiction|]. cbn [map] in *. now rewrite C.
  - intros Hne Hnc.
    assert (C : str_in (lit "critical") (map severity fs) = false).
    { destruct (str_in _ _) eqn:E; [|reflexivity].
      apply str_in_In in E. apply in_map_iff in E as [f [Hs Hin]].
      exfalso. now apply (Hnc f). }
    rewrite determine_verdict_by_severities.
    destruct fs as [|g fs]; [contradiction|]. cbn [map] in *. rewrite C.
    split; [reflexivity | discriminate].
Qed.

Lemma determine_verdict_spec_witness :
  _determine_verdict [finding_of_severity (lit "low"); finding_of_severity (lit "critical")]
    = lit "dangerous" /\
  _determine_verdict [finding_of_severity (lit "low")] = lit "caution" /\
  _determine_verdict [finding_of_severity (lit "high")] = lit "caution".
Proof.
  split; [|split].
  - apply (determine_verdict_spec _).
    exists (finding_of_severity (lit "critical")). split; [simpl; tauto | reflexivity].
  - apply (determine_verdict_spec [finding_of_severity (lit "low")]).
    + discriminate.
    + intros f [<- | []]. vm_compute. discriminate.
  - apply (determine_verdict_spec [finding_of_severity (lit "high")]).
    + discriminate.
    + intros f [<- | []]. vm_compute. discriminate.
Defined.

(** ** The structural audit *)

Lemma check_entry_findings (root : option str) (e : entry) (found : list Finding)
    (count size : N) :
  exists count' size',
    check_entry root (found, count, size) e
    = (found ++ entry_findings root e, count', size').
Proof.
  unfold check_entry, entry_findings, is_file, is_symlink, file_of.
  destruct (e_kind e) as [d| |resolved target|]; cbn [negb andb].
  - destruct (f_stat d); eexists _, _; [reflexivity | now rewrite app_nil_r].
  - eexists _, _. now rewrite app_nil_r.
  - destruct target; cbn [negb andb]; eexists _, _; reflexivity.
  - eexists _, _. now rewrite app_nil_r.
Qed.

Lemma check_structure_walk (root : option str) (entries : list entry) :
  forall found count size,
  exists count' size',
    fold_left (check_entry root) entries (found, count, size)
    = (found ++ flat_map (entry_findings root) entries, count', size').
Proof.
  induction entries as [|e entries IH]; intros found count size; cbn [fold_left flat_map].
  - eexists _, _. now rewrite app_nil_r.
  - destruct (check_entry_findings root e found count size) as (c & s & ->).
    destruct (IH (found ++ entry_findings root e) c s) as (c' & s' & ->).
    eexists _, _. now rewrite app_assoc.
Qed.

(** The structural findings: those of each entry, then at most two findings on
    the directory as a whole. *)
Lemma check_structure_findings (root : option str) (entries : list entry) :
  exists summary,
    _check_structure root entries = flat_map (entry_findings root) entries ++ summary /\
    Forall (fun f => In (pattern_id f) [lit "too_many_files"; lit "oversized_skill"]) summary.
Proof.
  unfold _check_structure.
  destruct (check_structure_walk root entries [] 0 0) as (c & s & ->).
  cbn [app]. eexists. split; [reflexivity|].
  destruct (MAX_FILE_COUNT <? c); destruct (MAX_TOTAL_SIZE_KB * 1024 <? s);
    repeat constructor; cbn [pattern_id]; simpl; tauto.
Qed.

Lemma entry_findings_file (root : option str) (e : entry) :
  Forall (fun f => file f = e_rel e) (entry_findings root e).
Proof.
  unfold entry_findings.
  destruct (e_kind e) as [d| |resolved target|]; try constructor.
  - destruct (f_stat d) as [s|]; [|constructor].
    unfold regular_findings.
    repeat match goal with |- context [if ?c then _ else _] => destruct c end;
      repeat constructor.
  - unfold symlink_findings.
    destruct resolved as [r|], root as [rt|];
      try (destruct (negb (startswith r rt))); repeat constructor.
Qed.

Lemma reported_other_file (pid rel : str) (fs : list Finding) (rel' : str) :
  rel' <> rel -> Forall (fun f => file f = rel') fs -> filter (reported pid rel) fs = [].
Proof.
  intros N F. apply filter_none. eapply Forall_impl; [|exact F].
  intros f E. unfold reported. rewrite E.
  apply str_eqb_neq in N. now rewrite N.
Qed.

Lemma reported_other_pattern (pid rel : str) (fs : list Finding) (ids : list str) :
  str_in pid ids = false -> Forall (fun f => In (pattern_id f) ids) fs ->
  filter (reported pid rel) fs = [].
Proof.
  intros N F. apply filter_none. eapply Forall_impl; [|exact F].
  intros f I. unfold reported.
  destruct (str_eqb (pattern_id f) pid) eqn:E; [|apply andb_false_r].
  apply str_eqb_eq in E. subst pid. apply str_in_In in I. congruence.
Qed.

(** Among entries of distinct relative paths, only the entry itself reports
    on its path. *)
Lemma reported_structure_entry (root : option str) (pid : str) (entries : list entry)
    (e : entry) :
  In e entries -> NoDup (map e_rel entries) ->
  filter (reported pid (e_rel e)) (flat_map (entry_findings root) entries)
  = filter (reported pid (e_rel e)) (entry_findings root e).
Proof.
  induction entries as [|a entries IH]; intros I D; [contradiction|].
  cbn [flat_map map] in *. rewrite filter_app.
  inversion D as [|? ? Na D']; subst.
  destruct I as [-> | I].
  - rewrite <- (app_nil_r (filter _ (entry_findings root e))) at 2. f_equal.
    apply filter_none. apply Forall_flat_map.
    rewrite Forall_forall. intros b Hb.
    eapply Forall_impl; [|apply entry_findings_file].
    intros f E. unfold reported. rewrite E.
    assert (N : e_rel b <> e_rel e).
    { intros Q. apply Na. rewrite <- Q. now apply in_map. }
    apply str_eqb_neq in N. now rewrite N.
  - rewrite (reported_other_file pid (e_rel e) _ (e_rel a)).
    + now apply IH.
    + intros Q. apply Na. rewrite Q. now apply in_map.
    + apply entry_findings_file.
Qed.

Lemma reported_single (pid rel : str) (f : Finding) :
  file f = rel -> pattern_id f = pid -> filter (reported pid rel) [f] = [f].
Proof.
  intros <- <-. cbn [filter]. unfold reported. now rewrite !str_eqb_refl.
Qed.

Lemma check_entry_escaped_content (root : option str) (e e' : entry) (st : walk_state) :
  differ_in_escaped_content root e e' -> check_entry root st e' = check_entry root st e.
Proof.
  intros [a | parts r rt bs bs' readable s _ _]; reflexivity.
Qed.

Lemma check_structure_escaped_content (root : option str) (entries entries' : list entry) :
  Forall2 (differ_in_escaped_content root) entries entries' ->
  _check_structure root entries' = _check_structure root entries.
Proof.
  intros F. unfold _check_structure.
  assert (W : forall st, fold_left (check_entry root) entries' st
                         = fold_left (check_entry root) entries st).
  { induction F as [|e e' l l' D _ IH]; intros st; cbn [fold_left]; [reflexivity|].
    now rewrite (check_entry_escaped_content root e e' st D), IH. }
  now rewrite W.
Qed.

(** The test is on strings: a link out of /skills/foo into its sibling
    /skills/foobar starts with the root's path and is not reported. *)
Example symlink_sibling_prefix_unreported :
  _check_structure (Some (lit "/skills/foo"))
    [mkEntry [lit "notes.md"]
             (Symlink (Some (lit "/skills/foobar/secret.md"))
                      (Some (plain_file (ascii_bytes "cat /etc/passwd"))))]
  = [].
Proof. vm_compute. reflexivity. Qed.

(** ** The scan of a skill, for any regular-expression engine *)

Section Scan.

Context {engine : RegexEngine}.

(** C8: a file whose bytes are not UTF-8, or whose read raises an OS error,
    yields no finding: [scan_file] returns the empty list and does not raise. *)
Theorem scan_file_unreadable (name : str) (d : file_data) (rel : str) :
  utf8_decode (f_bytes d) = None \/ f_readable d = false ->
  scan_file name d rel = [].
Proof.
  intros U. unfold scan_file.
  destruct (negb (str_in (lower (suffix name)) SCANNABLE_EXTENSIONS) &&
            negb (str_eqb name (lit "SKILL.md"))); [reflexivity|].
  unfold read_text.
  destruct (f_readable d); [|reflexivity].
  destruct U as [U | U]; [now rewrite U | discriminate].
Qed.

Lemma scan_file_not_scannable (name : str) (d : file_data) (rel : str) :
  scannable_name name = false -> scan_file name d rel = [].
Proof.
  unfold scannable_name, scan_file. intros N.
  apply orb_false_iff in N as [-> ->]. reflexivity.
Qed.

Lemma scan_pattern_ids (ids : list str) (rel : str) (p : Pattern)
    (lines : list (N * str)) :
  In (p_id p) ids ->
  forall st,
    Forall (fun f => In (pattern_id f) ids) (snd st) ->
    Forall (fun f => In (pattern_id f) ids) (snd (scan_pattern rel lines st p)).
Proof.
  intros I. unfold scan_pattern.
  induction lines as [|[i text] lines IH]; intros [seen found] F; cbn [fold_left].
  - exact F.
  - apply IH.
    destruct (seen_mem (p_id p) i seen); [exact F|].
    destruct (re_search (p_regex p) text); [|exact F].
    cbn [snd] in *. apply Forall_app. split; [exact F|].
    constructor; [exact I | constructor].
Qed.

Lemma scan_patterns_ids (ids : list str) (rel : str)
    (lines : list (N * str)) (ps : list Pattern) :
  (forall p, In p ps -> In (p_id p) ids) ->
  forall st,
    Forall (fun f => In (pattern_id f) ids) (snd st) ->
    Forall (fun f => In (pattern_id f) ids)
           (snd (fold_left (scan_pattern rel lines) ps st)).
Proof.
  induction ps as [|p ps IH]; intros I st F; cbn [fold_left]; [exact F|].
  apply IH.
  - intros q Hq. apply I. now right.
  - apply scan_pattern_ids; [apply I; now left | exact F].
Qed.

Lemma scan_file_ids (name : str) (d : file_data) (rel : str) :
  Forall (fun f => In (pattern_id f) text_pattern_ids) (scan_file name d rel).
Proof.
  unfold scan_file.
  destruct (_ && _); [constructor|].
  destruct (read_text d) as [err|content]; [constructor|].
  set (rel' := match rel with [] => name | _ :: _ => rel end).
  set (lines := enumerate 1 (split 10 content)).
  pose proof (scan_patterns_ids text_pattern_ids rel' lines THREAT_PATTERNS) as P.
  specialize (P (fun p Hp => or_intror (in_map p_id _ _ Hp)) ([], []) (Forall_nil _)).
  destruct (fold_left _ _ _) as [seen found]. cbn [snd] in P.
  apply Forall_app. split; [exact P|].
  apply Forall_flat_map. rewrite Forall_forall. intros [i text] _.
  unfold scan_invisible. destruct (find _ _); repeat constructor.
Qed.

Lemma scan_entries_ids (entries : list entry) :
  Forall (fun f => In (pattern_id f) text_pattern_ids) (flat_map scan_entry entries).
Proof.
  apply Forall_flat_map. rewrite Forall_forall. intros e _.
  unfold scan_entry. destruct (file_of e); [apply scan_file_ids | constructor].
Qed.

(** The findings of pattern [pid] on an entry's path, when [pid] is a pattern
    of the structural audit of single entries: those the entry itself gives. *)
Lemma reported_in_scan (name : str) (root : option str)
    (entries : list entry) (e : entry) (pid source now : str) :
  In e entries -> NoDup (map e_rel entries) ->
  str_in pid text_pattern_ids = false ->
  str_in pid [lit "too_many_files"; lit "oversized_skill"] = false ->
  filter (reported pid (e_rel e))
         (findings (scan_skill (mkSkill name (SkillDir root entries)) source now))
  = filter (reported pid (e_rel e)) (entry_findings root e).
Proof.
  intros I D T S. cbn [scan_skill findings]. unfold scan_findings. cbn [sk_node].
  destruct (check_structure_findings root entries) as (summary & -> & Fs).
  rewrite !filter_app.
  rewrite (reported_other_pattern pid (e_rel e) summary _ S Fs).
  rewrite (reported_other_pattern pid (e_rel e) _ _ T (scan_entries_ids entries)).
  rewrite !app_nil_r. now apply reported_structure_entry.
Qed.

(** C6, as the code has it: among entries of distinct relative paths, a
    symlink whose resolved path does not start with the resolved skill root
    gets exactly one symlink_escape finding from [scan_skill], of severity
    critical and category traversal, whatever the link leads to. *)
Theorem symlink_reported_once (name root : str) (entries : list entry)
    (e : entry) (resolved : option str) (target : option file_data)
    (source now : str) :
  In e entries -> NoDup (map e_rel entries) ->
  e_kind e = Symlink resolved target ->
  forall r, resolved = Some r -> startswith r root = false ->
    filter (reported (lit "symlink_escape") (e_rel e))
           (findings (scan_skill (mkSkill name (SkillDir (Some root) entries)) source now))
    = [mkFinding (lit "symlink_escape") (lit "critical") (lit "traversal") (e_rel e) 0
                 (MText (lit "symlink -> " ++ r))
                 (lit "symlink points outside the skill directory")].
Proof.
  intros I D K r -> Out.
  rewrite reported_in_scan; try assumption; try (vm_compute; reflexivity).
  unfold entry_findings. rewrite K. unfold symlink_findings. rewrite Out.
  cbn [negb]. now apply reported_single.
Qed.

Lemma scan_entry_escaped_content (root : option str) (e e' : entry) :
  differ_in_escaped_content root e e' ->
  (escaping root e -> scannable_name (e_name e) = false) ->
  scan_entry e' = scan_entry e.
Proof.
  intros [a | parts r rt bs bs' readable s R Out] N; [reflexivity|].
  unfold scan_entry, file_of. cbn [e_kind].
  assert (S : scannable_name (e_name (mkEntry parts
                (Symlink (Some r) (Some (mkFile bs readable s))))) = false).
  { apply N. now exists r, rt, (Some (mkFile bs readable s)). }
  unfold e_name in *. cbn [e_parts] in *.
  now rewrite !scan_file_not_scannable.
Qed.

(** C5, as the code has it: the structural audit never reads what a symlink
    leads to, and the text pass reads it only through a link whose own name is
    one it scans. For two directories that differ only in the bytes of files
    behind escaping symlinks, [_check_structure] gives the same findings, and
    [scan_skill] the same result when no escaping symlink has a scannable name. *)
Theorem escaped_content_not_scanned (name : str) (root : option str)
    (entries entries' : list entry) (source now : str) :
  Forall2 (differ_in_escaped_content root) entries entries' ->
  _check_structure root entries' = _check_structure root entries /\
  (Forall (fun e => escaping root e -> scannable_name (e_name e) = false) entries ->
   scan_skill (mkSkill name (SkillDir root entries')) source now
   = scan_skill (mkSkill name (SkillDir root entries)) source now).
Proof.
  intros F. split; [now apply check_structure_escaped_content|].
  intros N.
  assert (E : scan_findings (mkSkill name (SkillDir root entries'))
              = scan_findings (mkSkill name (SkillDir root entries))).
  { unfold scan_findings. cbn [sk_node].
    rewrite (check_structure_escaped_content root entries entries' F). f_equal.
    induction F as [|e e' l l' D _ IH]; [reflexivity|].
    inversion N as [|? ? Ne Nl]; subst. cbn [flat_map].
    now rewrite (scan_entry_escaped_content root e e' D Ne), IH. }
  unfold scan_skill. cbn [sk_name]. now rewrite E.
Qed.

End Scan.

(** ** The scan on concrete directories *)

Lemma scan_file_unreadable_witness :
  scan_file (engine := literal_engine) (lit "SKILL.md") (plain_file [xff; xfe]) (lit "SKILL.md") = [] /\
  scan_file (engine := literal_engine) (lit "SKILL.md")
            (mkFile (ascii_bytes "cat /etc/passwd") false None) (lit "SKILL.md") = [].
Proof.
  split.
  - apply (scan_file_unreadable (engine := literal_engine)). left. vm_compute. reflexivity.
  - apply (scan_file_unreadable (engine := literal_engine)). right. reflexivity.
Defined.

(** The same manifest, readable, is scanned. *)
Example scan_file_readable :
  map pattern_id
      (scan_file (engine := literal_engine) (lit "SKILL.md")
                 (plain_file (ascii_bytes "cat /etc/passwd")) (lit "SKILL.md"))
  = [lit "system_passwd_access"].
Proof. vm_compute. reflexivity. Qed.

Lemma symlink_reported_once_witness :
  filter (reported (lit "symlink_escape") (lit "notes.md"))
         (findings (scan_skill (engine := literal_engine)
                      (mkSkill (lit "demo")
                         (SkillDir (Some (lit "/skills/demo"))
                            [manifest_entry;
                             escaping_link (plain_file (ascii_bytes "cat /etc/passwd"));
                             dangling_link]))
                      (lit "random/repo") []))
  = [mkFinding (lit "symlink_escape") (lit "critical") (lit "traversal") (lit "notes.md") 0
               (MText (lit "symlink -> /home/user/notes.md"))
               (lit "symlink points outside the skill directory")].
Proof.
  apply (symlink_reported_once (engine := literal_engine) (lit "demo") (lit "/skills/demo")
           [manifest_entry; escaping_link (plain_file (ascii_bytes "cat /etc/passwd"));
            dangling_link]
           (escaping_link (plain_file (ascii_bytes "cat /etc/passwd")))
           (Some (lit "/home/user/notes.md"))
           (Some (plain_file (ascii_bytes "cat /etc/passwd")))
           (lit "random/repo") []).
  - simpl; tauto.
  - repeat constructor; simpl; intuition discriminate.
  - reflexivity.
  - reflexivity.
  - reflexivity.
Defined.

(** The broken_symlink finding is written for the [OSError] of [resolve()],
    which a dangling link does not raise: the link of the directory above that
    leads to a missing release resolves, stays below the root, and the scan has
    no finding on it. *)
Example dangling_link_unreported :
  filter (fun f => str_eqb (file f) (lit "latest"))
         (findings (scan_skill (engine := literal_engine)
                      (mkSkill (lit "demo")
                         (SkillDir (Some (lit "/skills/demo"))
                            [manifest_entry;
                             escaping_link (plain_file (ascii_bytes "cat /etc/passwd"));
                             dangling_link]))
                      (lit "random/repo") []))
  = [].
Proof. vm_compute. reflexivity. Qed.

(** C6, as first stated, fails: the text pass reads through the link, so a
    link named notes.md that leads outside the root to a file mentioning
    /etc/passwd gets two critical traversal findings, symlink_escape and
    system_passwd_access. *)
Lemma symlink_two_critical_traversal_counterexample :
  map pattern_id
      (filter (critical_traversal (lit "notes.md"))
              (findings (scan_skill (engine := literal_engine)
                           (linked_skill (plain_file (ascii_bytes "cat /etc/passwd")))
                           (lit "random/repo") [])))
  = [lit "symlink_escape"; lit "system_passwd_access"].
Proof. vm_compute. reflexivity. Qed.

(** An escaping link named LICENSE: whatever it leads to, the scan is the same. *)
Lemma escaped_content_not_scanned_witness :
  scan_skill (engine := literal_engine)
    (mkSkill (lit "demo")
       (SkillDir (Some (lit "/skills/demo"))
          [mkEntry [lit "LICENSE"]
             (Symlink (Some (lit "/usr/share/licenses/MIT"))
                      (Some (three_bytes zero_width_space_bytes)))]))
    (lit "random/repo") []
  = scan_skill (engine := literal_engine)
    (mkSkill (lit "demo")
       (SkillDir (Some (lit "/skills/demo"))
          [mkEntry [lit "LICENSE"]
             (Symlink (Some (lit "/usr/share/licenses/MIT"))
                      (Some (three_bytes (ascii_bytes "MIT"))))]))
    (lit "random/repo") [].
Proof.
  apply (escaped_content_not_scanned (engine := literal_engine) (lit "demo")
           (Some (lit "/skills/demo"))).
  - constructor; [|constructor].
    apply (escaped_content _ _ _ (lit "/skills/demo")); reflexivity.
  - constructor; [|constructor]. intros _. reflexivity.
Defined.

(** C5, as first stated, fails: two directories that differ only in the bytes
    behind the escaping link notes.md get different findings, because the text
    pass reads through the link. *)
Lemma escaped_content_scanned_counterexample :
  Forall2 (differ_in_escaped_content (Some (lit "/skills/demo")))
          [escaping_link (three_bytes (ascii_bytes "abc"))]
          [escaping_link (three_bytes zero_width_space_bytes)] /\
  map pattern_id
      (findings (scan_skill (engine := literal_engine)
                   (linked_skill (three_bytes (ascii_bytes "abc")))
                   (lit "random/repo") []))
  = [lit "symlink_escape"] /\
  map pattern_id
      (findings (scan_skill (engine := literal_engine)
                   (linked_skill (three_bytes zero_width_space_bytes))
                   (lit "random/repo") []))
  = [lit "symlink_escape"; lit "invisible_unicode"].
Proof.
  split; [|vm_compute; split; reflexivity].
  constructor; [|constructor].
  apply (escaped_content _ _ _ (lit "/skills/demo")); reflexivity.
Qed.

(** ** The classifier merge *)

Lemma llm_severity_known (v : json) : In (llm_severity v) llm_severities.
Proof.
  unfold llm_severity.
  destruct v; try (vm_compute; tauto).
  destruct (str_in s _) eqn:E.
  - now apply str_in_In in E.
  - vm_compute; tauto.
Qed.

Lemma llm_finding_wrapped (v : json) (m : matched) (d : str) :
  llm_wrapped (llm_finding (llm_severity v) m d).
Proof.
  unfold llm_wrapped, llm_finding; cbn [pattern_id category file line severity].
  repeat split; try reflexivity. apply llm_severity_known.
Qed.

(** The code's table of priorities is the severity order of verdicts. *)
Lemma verdict_priority_rank (v : str) :
  dict_get_default
    [ (lit "safe", 0%nat); (lit "caution", 1%nat); (lit "dangerous", 2%nat) ] v 0%nat
  = verdict_rank v.
Proof.
  unfold dict_get_default, dict_get, verdict_rank.
  destruct (str_eqb v (lit "safe")) eqn:S.
  - apply str_eqb_eq in S. subst v. reflexivity.
  - destruct (str_eqb v (lit "caution")) eqn:C.
    + apply str_eqb_eq in C. subst v. reflexivity.
    + destruct (str_eqb v (lit "dangerous")); reflexivity.
Qed.

(** The merge never lowers the verdict. *)
Lemma merge_findings_monotone (r : ScanResult) (fs : list Finding) :
  (verdict_rank (verdict r) <= verdict_rank (verdict (merge_findings r fs)))%nat.
Proof.
  unfold merge_findings. destruct fs as [|f fs]; [apply le_n|].
  cbn [verdict]. rewrite !verdict_priority_rank.
  destruct (Nat.ltb_spec (verdict_rank (_determine_verdict (findings r ++ f :: fs)))
                         (verdict_rank (verdict r))) as [L | L].
  - apply le_n.
  - exact L.
Qed.

Lemma merge_findings_findings (r : ScanResult) (fs : list Finding) :
  findings (merge_findings r fs) = findings r ++ fs.
Proof.
  unfold merge_findings. destruct fs; [now rewrite app_nil_r | reflexivity].
Qed.

Section Audit.

Context {world : Collaborators}.

(** What one classifier item adds: nothing, or one wrapped finding whose
    severity is the item's when that is one of the four names and medium
    otherwise. *)
Lemma parse_item_spec (found found' : list Finding) (item : json) :
  parse_item found item = Ok found' ->
  found' = found \/
  exists fields f,
    item = JObj fields /\ found' = found ++ [f] /\ llm_wrapped f /\
    ((exists s, json_get fields (lit "severity") = Some (JStr s) /\
                In s llm_severities /\ severity f = s) \/
     ((forall s, json_get fields (lit "severity") = Some (JStr s) ->
                 ~ In s llm_severities) /\
      severity f = lit "medium")).
Proof.
  unfold parse_item. destruct item as [| | | | |items|fields];
    try (intros [= <-]; now left).
  set (sevj := match json_get fields (lit "severity") with
               | Some v => v
               | None => JStr (lit "medium")
               end).
  assert (Law :
    (exists s, json_get fields (lit "severity") = Some (JStr s) /\
               In s llm_severities /\ llm_severity sevj = s) \/
    ((forall s, json_get fields (lit "severity") = Some (JStr s) ->
                ~ In s llm_severities) /\
     llm_severity sevj = lit "medium")).
  { subst sevj. destruct (json_get fields (lit "severity")) as [v|].
    - destruct v as [| | | |s| |]; try (right; split; [discriminate | reflexivity]).
      unfold llm_severity. destruct (str_in s _) eqn:E.
      + left. exists s. apply str_in_In in E. now repeat split.
      + right. split; [|reflexivity].
        intros s' [= <-] I. apply str_in_In in I. unfold llm_severities in I.
        rewrite I in E. discriminate.
    - right. split; [discriminate | reflexivity]. }
  destruct (truthy _); [|intros [= <-]; now left].
  destruct (match json_get fields (lit "description") with
            | Some v => v
            | None => JStr []
            end) as [| | | |s|items|];
    try discriminate; intros [= <-]; right; eexists fields, _;
    (split; [reflexivity|]); (split; [reflexivity|]);
    (split; [apply llm_finding_wrapped | exact Law]).
Qed.

Lemma parse_items_wrapped (items : list json) :
  forall found found',
    Forall llm_wrapped found ->
    parse_items found items = Ok found' ->
    Forall llm_wrapped found'.
Proof.
  induction items as [|item items IH]; intros found found' W; cbn [parse_items].
  - now intros [= <-].
  - destruct (parse_item found item) as [mid|e] eqn:E; cbn [bind]; [|discriminate].
    apply IH. apply parse_item_spec in E as [-> | (fields & f & _ & -> & Wf & _)].
    + exact W.
    + apply Forall_app. split; [exact W | now constructor].
Qed.

(** What parsing a reply returns is wrapped. *)
Lemma parse_llm_response_findings (text name : str)
    (fs : list Finding) :
  _parse_llm_response text name = Ok fs -> Forall llm_wrapped fs.
Proof.
  unfold _parse_llm_response. intros P.
  destruct (json_loads _) as [[| | | | | |fields]|];
    try (injection P as <-; constructor).
  destruct (py_iter _) as [items|e]; cbn [bind] in P; [|discriminate].
  now apply (parse_items_wrapped items [] fs).
Qed.

(** What [llm_audit_skill] returns: the static result itself, or the merge of
    the findings parsed from the classifier's reply; it raises only where
    parsing that reply raises. *)
Lemma llm_audit_skill_cases (sk : skill) (r : ScanResult)
    (model : option str) :
  llm_audit_skill sk r model = Ok r \/
  exists text,
    llm_audit_skill sk r model =
    (fs <- _parse_llm_response text (skill_name r) ;; Ok (merge_findings r fs)).
Proof.
  unfold llm_audit_skill.
  destruct (str_eqb (verdict r) (lit "dangerous")); [now left|].
  match goal with |- context [match ?c with Some _ => _ | None => _ end] =>
    destruct c as [[|part parts]|] end; try now left.
  match goal with |- context [match ?m with [] => Ok r | _ :: _ => _ end] =>
    destruct m end; [now left|].
  destruct api_key; [now left|].
  destruct (chat_completion _ _) as [text|]; [|now left].
  right. now exists text.
Qed.

(** C7, as the code has it: every classifier finding that
    [_parse_llm_response] returns, and so every finding [llm_audit_skill] adds
    to the static ones, carries pattern_id "llm_audit", category "llm-detected",
    file "(LLM analysis)" and line 0, and its severity is one of critical, high,
    medium, low: the item's own when that is one of these, medium otherwise. *)
Theorem llm_findings_wrapped (sk : skill) (r : ScanResult)
    (model : option str) :
  (forall text name fs,
     _parse_llm_response text name = Ok fs -> Forall llm_wrapped fs) /\
  (forall r',
     llm_audit_skill sk r model = Ok r' ->
     exists fs, findings r' = findings r ++ fs /\ Forall llm_wrapped fs) /\
  (forall found found' item,
     parse_item found item = Ok found' ->
     found' = found \/
     exists fields f,
       item = JObj fields /\ found' = found ++ [f] /\ llm_wrapped f /\
       ((exists s, json_get fields (lit "severity") = Some (JStr s) /\
                   In s llm_severities /\ severity f = s) \/
        ((forall s, json_get fields (lit "severity") = Some (JStr s) ->
                    ~ In s llm_severities) /\
         severity f = lit "medium"))).
Proof.
  split; [|split].
  - apply parse_llm_response_findings.
  - intros r' E.
    destruct (llm_audit_skill_cases sk r model) as [S | [text S]]; rewrite S in E.
    + injection E as <-. exists []. split; [now rewrite app_nil_r | constructor].
    + destruct (_parse_llm_response text (skill_name r)) as [fs|e] eqn:P;
        cbn [bind] in E; [|discriminate].
      injection E as <-. exists fs.
      split; [apply merge_findings_findings | now apply parse_llm_response_findings in P].
  - intros found found' item. apply parse_item_spec.
Qed.

(** C3: merging classifier findings never lowers the verdict in the order
    safe < caution < dangerous, for the merge step on any list of classifier
    findings and for every result [llm_audit_skill] returns; a static result
    whose verdict is dangerous is returned unchanged. *)
Theorem llm_audit_monotone (sk : skill) (r : ScanResult)
    (model : option str) :
  (forall fs,
     (verdict_rank (verdict r) <= verdict_rank (verdict (merge_findings r fs)))%nat) /\
  (forall r', llm_audit_skill sk r model = Ok r' ->
     (verdict_rank (verdict r) <= verdict_rank (verdict r'))%nat) /\
  (verdict r = lit "dangerous" -> llm_audit_skill sk r model = Ok r).
Proof.
  split; [|split].
  - apply merge_findings_monotone.
  - intros r' E.
    destruct (llm_audit_skill_cases sk r model) as [S | [text S]];
      rewrite S in E.
    + injection E as <-. apply le_n.
    + destruct (_parse_llm_response text (skill_name r)) as [fs|e];
        cbn [bind] in E; [|discriminate].
      injection E as <-. apply merge_findings_monotone.
  - intros D. unfold llm_audit_skill. now rewrite D, str_eqb_refl.
Qed.

End Audit.

(** The demo reply: its one finding, of the unknown severity "urgent", is
    merged as a medium one. *)
Lemma llm_findings_wrapped_witness :
  Forall llm_wrapped
    [llm_finding (lit "medium") (MText (lit "reads ssh keys")) (lit "reads ssh keys")] /\
  exists fs,
    [llm_finding (lit "medium") (MText (lit "reads ssh keys")) (lit "reads ssh keys")]
    = [] ++ fs /\ Forall llm_wrapped fs.
Proof.
  destruct (llm_findings_wrapped (world := demo_collaborators) manifest_only
              clean_result None) as [P [A _]].
  split.
  - apply (P demo_reply_text []). vm_compute. reflexivity.
  - apply (A (merge_findings clean_result
                [llm_finding (lit "medium") (MText (lit "reads ssh keys"))
                             (lit "reads ssh keys")])).
    vm_compute. reflexivity.
Defined.

(** C7, as first stated, fails on the file field: the code writes
    "(LLM analysis)", not "(external analysis)". *)
Lemma parse_llm_response_file_counterexample :
  option_map (map file)
    (match _parse_llm_response (world := demo_collaborators) demo_reply_text [] with
     | Ok fs => Some fs
     | Raise _ => None
     end) = Some [lit "(LLM analysis)"] /\
  str_eqb (lit "(LLM analysis)") (lit "(external analysis)") = false.
Proof. vm_compute. split; reflexivity. Qed.

(** The clean manifest, audited by the demo classifier, comes back with a
    higher verdict; a dangerous result comes back as it went in. *)
Lemma llm_audit_monotone_witness :
  (verdict_rank (lit "safe")
   <= verdict_rank (verdict (merge_findings clean_result
        [llm_finding (lit "medium") (MText (lit "reads ssh keys")) (lit "reads ssh keys")])))%nat /\
  (verdict_rank (lit "safe")
   <= verdict_rank (lit "caution"))%nat /\
  llm_audit_skill (world := demo_collaborators) manifest_only dangerous_community None
  = Ok dangerous_community.
Proof.
  destruct (llm_audit_monotone (world := demo_collaborators) manifest_only clean_result None)
    as [M [A _]].
  destruct (llm_audit_monotone (world := demo_collaborators) manifest_only
                               dangerous_community None) as [_ [_ D]].
  split; [apply M | split; [|apply D; reflexivity]].
  apply (A (merge_findings clean_result
              [llm_finding (lit "medium") (MText (lit "reads ssh keys"))
                           (lit "reads ssh keys")])).
  vm_compute. reflexivity.
Defined.

(** The audit of the clean manifest by the demo classifier, evaluated. *)
Example llm_audit_escalates :
  option_map verdict
    (match llm_audit_skill (world := demo_collaborators) manifest_only clean_result None with
     | Ok r => Some r
     | Raise _ => None
     end) = Some (lit "caution").
Proof. vm_compute. reflexivity. Qed.

(** ** The content hash *)

Lemma str_leb_refl (a : str) : str_leb a a = true.
Proof.
  induction a as [|x a IH]; [reflexivity|]. simpl.
  rewrite N.ltb_irrefl. exact IH.
Qed.

Lemma str_leb_total (a b : str) : str_leb a b = false -> str_leb b a = true.
Proof.
  revert b; induction a as [|x a IH]; intros [|y b]; simpl; try discriminate; try reflexivity.
  destruct (N.ltb_spec x y); [discriminate|].
  destruct (N.ltb_spec y x); [reflexivity|].
  apply IH.
Qed.

Lemma str_leb_antisym (a b : str) :
  str_leb a b = true -> str_leb b a = true -> a = b.
Proof.
  revert b; induction a as [|x a IH]; intros [|y b]; simpl; try discriminate; try reflexivity.
  destruct (N.ltb_spec x y); destruct (N.ltb_spec y x); try discriminate; try lia.
  intros A B. assert (x = y) by lia. subst. f_equal. now apply IH.
Qed.

Lemma str_leb_trans (a b c : str) :
  str_leb a b = true -> str_leb b c = true -> str_leb a c = true.
Proof.
  revert b c; induction a as [|x a IH]; intros [|y b] [|z c]; simpl;
    try discriminate; try reflexivity.
  destruct (N.ltb_spec x y); destruct (N.ltb_spec y x);
  destruct (N.ltb_spec y z); destruct (N.ltb_spec z y);
  destruct (N.ltb_spec x z); destruct (N.ltb_spec z x);
    try discriminate; try reflexivity; try lia.
  apply IH.
Qed.

Lemma parts_leb_refl (a : list str) : parts_leb a a = true.
Proof.
  induction a as [|x a IH]; [reflexivity|]. simpl. now rewrite str_eqb_refl.
Qed.

Lemma parts_leb_total (a b : list str) : parts_leb a b = false -> parts_leb b a = true.
Proof.
  revert b; induction a as [|x a IH]; intros [|y b]; simpl; try discriminate; try reflexivity.
  destruct (str_eqb x y) eqn:E.
  - apply str_eqb_eq in E. subst. rewrite str_eqb_refl. apply IH.
  - assert (E' : str_eqb y x = false).
    { apply str_eqb_neq. apply str_eqb_neq in E. congruence. }
    rewrite E'. apply str_leb_total.
Qed.

Lemma parts_leb_antisym (a b : list str) :
  parts_leb a b = true -> parts_leb b a = true -> a = b.
Proof.
  revert b; induction a as [|x a IH]; intros [|y b]; simpl; try discriminate; try reflexivity.
  destruct (str_eqb x y) eqn:E.
  - apply str_eqb_eq in E. subst. rewrite str_eqb_refl. intros A B. f_equal. now apply IH.
  - assert (E' : str_eqb y x = false).
    { apply str_eqb_neq. apply str_eqb_neq in E. congruence. }
    rewrite E'. intros A B. apply str_eqb_neq in E. exfalso. apply E.
    now apply str_leb_antisym.
Qed.

Lemma parts_leb_trans (a b c : list str) :
  parts_leb a b = true -> parts_leb b c = true -> parts_leb a c = true.
Proof.
  revert b c; induction a as [|x a IH]; intros [|y b] [|z c]; simpl;
    try discriminate; try reflexivity.
  destruct (str_eqb x y) eqn:Exy.
  - apply str_eqb_eq in Exy. subst y.
    destruct (str_eqb x z); [apply IH | intros _ L; exact L].
  - destruct (str_eqb y z) eqn:Eyz.
    + apply str_eqb_eq in Eyz. subst z. rewrite Exy. intros L _. exact L.
    + intros A B. destruct (str_eqb x z) eqn:Exz.
      * apply str_eqb_eq in Exz. subst z. exfalso.
        apply str_eqb_neq in Exy. apply Exy. now apply str_leb_antisym.
      * now apply (str_leb_trans x y z).
Qed.

Lemma insert_entry_perm (e : entry) (l : list entry) :
  Permutation (insert_entry e l) (e :: l).
Proof.
  induction l as [|a l IH]; simpl; [apply Permutation_refl|].
  destruct (parts_leb (e_parts e) (e_parts a)); [apply Permutation_refl|].
  eapply perm_trans; [apply perm_skip, IH | apply perm_swap].
Qed.

Lemma sorted_entries_perm (l : list entry) : Permutation (sorted_entries l) l.
Proof.
  induction l as [|a l IH]; simpl; [constructor|].
  eapply perm_trans; [apply insert_entry_perm | now apply perm_skip].
Qed.

Lemma insert_entry_sorted (e : entry) (l : list entry) :
  StronglySorted entry_le l -> StronglySorted entry_le (insert_entry e l).
Proof.
  induction l as [|a l IH]; intros S; simpl.
  - constructor; constructor.
  - inversion S as [|? ? S' F]; subst.
    destruct (parts_leb (e_parts e) (e_parts a)) eqn:L.
    + constructor; [exact S|]. constructor; [exact L|].
      eapply Forall_impl; [|exact F]. intros b Hab.
      unfold entry_le in *. now apply (parts_leb_trans _ (e_parts a)).
    + constructor; [now apply IH|].
      eapply Permutation_Forall; [apply Permutation_sym, insert_entry_perm|].
      constructor; [now apply parts_leb_total | exact F].
Qed.

Lemma sorted_entries_sorted (l : list entry) : StronglySorted entry_le (sorted_entries l).
Proof.
  induction l as [|a l IH]; simpl; [constructor | now apply insert_entry_sorted].
Qed.

(** Entries of distinct paths have one sorted arrangement. *)
Lemma sorted_perm_unique (l1 : list entry) :
  forall l2,
    StronglySorted entry_le l1 -> StronglySorted entry_le l2 ->
    Permutation l1 l2 -> NoDup (map e_parts l1) -> l1 = l2.
Proof.
  induction l1 as [|x l1 IH]; intros l2 S1 S2 P D.
  - apply Permutation_nil in P. now subst.
  - destruct l2 as [|y l2]; [apply Permutation_sym, Permutation_nil in P; discriminate|].
    inversion S1 as [|? ? S1' F1]; subst. inversion S2 as [|? ? S2' F2]; subst.
    inversion D as [|? ? Nx D']; subst.
    assert (Hx : In x (y :: l2)) by (eapply Permutation_in; [exact P | now left]).
    assert (Hy : In y (x :: l1))
      by (eapply Permutation_in; [apply Permutation_sym; exact P | now left]).
    assert (K : e_parts x = e_parts y).
    { destruct Hx as [-> | Hx]; [reflexivity|].
      destruct Hy as [-> | Hy]; [reflexivity|].
      rewrite Forall_forall in F1, F2.
      apply parts_leb_antisym; [now apply F1 | now apply F2]. }
    assert (x = y).
    { destruct Hy as [Hy | Hy]; [exact Hy|]. exfalso. apply Nx.
      rewrite K. now apply in_map. }
    subst y. f_equal. apply IH; try assumption.
    now apply Permutation_cons_inv in P.
Qed.

(** The order in which the directory is enumerated does not matter. *)
Lemma sorted_entries_order_independent (entries entries' : list entry) :
  Permutation entries entries' -> NoDup (map e_parts entries) ->
  sorted_entries entries' = sorted_entries entries.
Proof.
  intros P D. symmetry. apply sorted_perm_unique.
  - apply sorted_entries_sorted.
  - apply sorted_entries_sorted.
  - eapply perm_trans; [apply sorted_entries_perm|].
    eapply perm_trans; [exact P | apply Permutation_sym, sorted_entries_perm].
  - eapply Permutation_NoDup; [|exact D].
    apply Permutation_map, Permutation_sym, sorted_entries_perm.
Qed.

Lemma hashed_bytes_readable (entries : list entry) :
  hashed_bytes entries = flat_map readable_bytes (sorted_entries entries).
Proof.
  unfold hashed_bytes. apply flat_map_ext. intros e.
  unfold readable_bytes, read_bytes.
  destruct (file_of e) as [d|]; [|reflexivity]. now destruct (f_readable d).
Qed.

Lemma hexdigest_length (msg : list byte) : List.length (SHA256.hexdigest msg) = 64%nat.
Proof.
  unfold SHA256.hexdigest, SHA256.digest_words.
  destruct (fold_left _ _ _) as [[[[[[[a b] c] d] e] f] g] h].
  reflexivity.
Qed.

(** C9, as the code has it: over a directory the content hash is "sha256:"
    followed by the first 16 hex digits of the SHA-256 digest of the bytes of
    every entry that is a file -- a regular file or a symlink that leads to one
    -- taken in sorted path order, an unreadable file contributing nothing; it
    is 23 characters long and, for entries of distinct paths, the same for every
    order in which the directory is enumerated. *)
Theorem content_hash_directory (name : str) (root : option str) (entries : list entry) :
  (exists l,
     Permutation l entries /\ StronglySorted entry_le l /\
     content_hash (mkSkill name (SkillDir root entries))
     = Ok (lit "sha256:" ++ firstn 16 (SHA256.hexdigest (flat_map readable_bytes l)))) /\
  (exists h, content_hash (mkSkill name (SkillDir root entries)) = Ok h /\
             List.length h = 23%nat) /\
  (forall entries',
     Permutation entries entries' -> NoDup (map e_parts entries) ->
     content_hash (mkSkill name (SkillDir root entries'))
     = content_hash (mkSkill name (SkillDir root entries))).
Proof.
  split; [|split].
  - exists (sorted_entries entries).
    split; [apply sorted_entries_perm | split; [apply sorted_entries_sorted|]].
    unfold content_hash. cbn [sk_node bind]. now rewrite hashed_bytes_readable.
  - eexists. split; [reflexivity|].
    rewrite length_app, length_firstn, hexdigest_length. reflexivity.
  - intros entries' P D. unfold content_hash. cbn [sk_node bind].
    unfold hashed_bytes. now rewrite (sorted_entries_order_independent entries entries').
Qed.

Lemma content_hash_directory_witness :
  content_hash (mkSkill (lit "demo") (SkillDir None [helper_entry; manifest_entry]))
  = content_hash (mkSkill (lit "demo") (SkillDir None [manifest_entry; helper_entry])).
Proof.
  apply (content_hash_directory (lit "demo") None [manifest_entry; helper_entry]).
  - apply perm_swap.
  - repeat constructor; simpl; intuition discriminate.
Defined.

(** C9, as first stated, fails on symlinks: the bytes a symlink leads to are
    hashed. The directory holds one symlink to a file whose content is "a";
    the code hashes "a", the claim the empty sequence. *)
Lemma content_hash_symlink_counterexample :
  content_hash (linked_skill (plain_file (ascii_bytes "a")))
  = Ok (lit "sha256:ca978112ca1bbdca") /\
  claimed_content_hash [escaping_link (plain_file (ascii_bytes "a"))]
  = lit "sha256:e3b0c44298fc1c14".
Proof. vm_compute. split; reflexivity. Qed.

(** ** Further properties *)

Ltac decide_str x s :=
  let E := fresh "E" in
  destruct (str_eqb x s) eqn:E;
  [apply str_eqb_eq in E; subst x | ].

Lemma decision_by_table (r : ScanResult) (force : bool) :
  decision_of r force
  = Some (if str_eqb (verdict r) (lit "dangerous") && negb force then false
          else table_allows (trust_level r) (verdict r) || force).
Proof.
  destruct r as [n s t v fs at_ sm].
  unfold decision_of, should_allow_install, table_allows.
  cbn [verdict trust_level findings].
  change (dict_item INSTALL_POLICY (lit "community"))
    with (Ok (A := list str) [lit "allow"; lit "block"; lit "block"]).
  unfold bind, dict_get_default, INSTALL_POLICY, VERDICT_INDEX, dict_get.
  (decide_str v (lit "safe");
   [|decide_str v (lit "caution"); [|decide_str v (lit "dangerous")]]);
  (decide_str t (lit "builtin");
   [|decide_str t (lit "trusted");
     [|decide_str t (lit "community"); [|decide_str t (lit "agent-created")]]]);
  destruct force; vm_compute; reflexivity.
Qed.

(** The decision, as a table: a dangerous verdict without force is blocked;
    otherwise the install is allowed when the policy table allows it or force
    is given. *)
Theorem should_allow_install_table (r : ScanResult) (force : bool) :
  decision_of r force
  = Some (if str_eqb (verdict r) (lit "dangerous") && negb force then false
          else table_allows (trust_level r) (verdict r) || force).
Proof. exact (decision_by_table r force). Qed.

(** A safe verdict is allowed for every trust level, known or not. *)
Theorem safe_verdict_allowed (r : ScanResult) (force : bool) :
  verdict r = lit "safe" -> decision_of r force = Some true.
Proof.
  intros S. rewrite decision_by_table, S.
  unfold table_allows. cbn [andb]. 
  change (str_eqb (lit "safe") (lit "dangerous")) with false.
  change (str_eqb (lit "safe") (lit "safe")) with true. cbn.
  destruct (str_eqb _ _); [reflexivity|]. destruct (str_eqb _ _); reflexivity.
Qed.

Lemma safe_verdict_allowed_witness : decision_of clean_result false = Some true.
Proof. apply (safe_verdict_allowed clean_result false). reflexivity. Defined.

(** A source is trusted exactly when it starts with one of the trusted
    repository names: a longer name that extends one is trusted too. *)
Theorem resolve_trust_level_prefix (source : str) :
  _resolve_trust_level source
  = if startswith source (lit "openai/skills") || startswith source (lit "anthropics/skills")
    then lit "trusted" else lit "community".
Proof.
  assert (P : forall p, startswith source p || str_eqb source p = startswith source p).
  { intros p. destruct (str_eqb source p) eqn:E; [|apply orb_false_r].
    apply str_eqb_eq in E. subst p. rewrite orb_true_r. symmetry.
    clear. induction source as [|c s IH]; [reflexivity|]. simpl.
    now rewrite N.eqb_refl. }
  unfold _resolve_trust_level, TRUSTED_REPOS. cbn [existsb].
  now rewrite !P, orb_false_r.
Qed.

Example resolve_trust_level_extended_name :
  _resolve_trust_level (lit "openai/skills-mirror-by-someone") = lit "trusted".
Proof. vm_compute. reflexivity. Qed.

(** A classifier finding whose description is a number: the slice
    [desc[:120]] raises, outside the try block, and the audit raises with it. *)
Example llm_audit_numeric_description_raises :
  llm_audit_skill (world := numeric_collaborators) manifest_only clean_result None
  = Raise TypeError.
Proof. vm_compute. reflexivity. Qed.

(** ** The text pass, line by line *)

Lemma enumerate_In {A : Type} (xs : list A) :
  forall start i x,
    In (i, x) (enumerate start xs) ->
    start <= i /\ i < start + N.of_nat (List.length xs) /\ In x xs.
Proof.
  induction xs as [|y xs IH]; intros start i x; cbn [enumerate]; [contradiction|].
  intros [E | I].
  - injection E as <- <-. cbn [List.length]. split; [lia | split; [lia | now left]].
  - apply IH in I as (L & U & M). cbn [List.length].
    split; [lia | split; [lia | now right]].
Qed.

Lemma enumerate_indices_NoDup {A : Type} (xs : list A) :
  forall start, NoDup (map fst (enumerate start xs)).
Proof.
  induction xs as [|y xs IH]; intros start; cbn [enumerate map]; constructor.
  - intros I. apply in_map_iff in I as [[i x] [E I]]. cbn [fst] in E. subst i.
    apply enumerate_In in I. lia.
  - apply IH.
Qed.

Lemma enumerate_functional {A : Type} (xs : list A) (start i : N) (x y : A) :
  In (i, x) (enumerate start xs) -> In (i, y) (enumerate start xs) -> x = y.
Proof.
  revert start; induction xs as [|z xs IH]; intros start; cbn [enumerate];
    [contradiction|].
  intros [E1 | I1] [E2 | I2].
  - congruence.
  - injection E1 as <- _. apply enumerate_In in I2. lia.
  - injection E2 as <- _. apply enumerate_In in I1. lia.
  - now apply (IH (start + 1)).
Qed.

Lemma seen_mem_In (pid : str) (i : N) (seen : list (str * N)) :
  seen_mem pid i seen = true <-> In (pid, i) seen.
Proof.
  unfold seen_mem. rewrite existsb_exists. split.
  - intros [[q j] [I E]]. cbn [fst snd] in E. apply andb_true_iff in E as [E1 E2].
    apply str_eqb_eq in E1. apply N.eqb_eq in E2. now subst.
  - intros I. exists (pid, i). split; [exact I|]. cbn [fst snd].
    now rewrite str_eqb_refl, N.eqb_refl.
Qed.

Lemma matched_text_length (line_text : str) :
  (List.length (matched_text line_text) <= 120)%nat.
Proof.
  unfold matched_text.
  destruct (Nat.ltb_spec 120 (List.length (strip line_text))) as [L | L]; [|exact L].
  rewrite length_app, length_firstn. cbn [List.length]. 
  change (List.length (lit "...")) with 3%nat. lia.
Qed.

Section TextPass.

Context {engine : RegexEngine}.

(** One pattern over some lines: what the loop keeps and what it adds. *)
Lemma scan_pattern_invariant (rel : str) (p : Pattern) (ls : list (N * str)) :
  forall seen found,
    exists seen' found',
      scan_pattern rel ls (seen, found) p = (seen', found') /\
      (map finding_key found = rev seen -> map finding_key found' = rev seen') /\
      (NoDup seen -> NoDup seen') /\
      (forall k, In k seen -> In k seen') /\
      (forall i t, In (i, t) ls -> re_search (p_regex p) t = true ->
                   In (p_id p, i) seen') /\
      (forall f, In f found' ->
                 In f found \/
                 exists i t, In (i, t) ls /\ re_search (p_regex p) t = true /\
                             f = pattern_finding rel p i t).
Proof.
  unfold scan_pattern.
  induction ls as [|[i t] ls IH]; intros seen found; cbn [fold_left].
  - exists seen, found. repeat split; try tauto. intros ? ? [].
  - destruct (seen_mem (p_id p) i seen) eqn:M.
    + destruct (IH seen found) as (seen' & found' & E & K & D & G & C & S).
      exists seen', found'. split; [exact E|]. repeat split; try assumption.
      * intros j u [Q | I] R; [|now apply (C j u)].
        injection Q as <- <-. apply G. now apply seen_mem_In.
      * intros f I. destruct (S f I) as [? | (j & u & ? & ? & ?)]; [now left|].
        right. exists j, u. repeat split; try assumption. now right.
    + destruct (re_search (p_regex p) t) eqn:R.
      * destruct (IH ((p_id p, i) :: seen)
                     (found ++ [pattern_finding rel p i t]))
          as (seen' & found' & E & K & D & G & C & S).
        exists seen', found'. split; [exact E|]. repeat split.
        -- intros Q. apply K. rewrite map_app, Q. reflexivity.
        -- intros N. apply D. constructor; [|exact N].
           intros I. apply seen_mem_In in I. congruence.
        -- intros k I. apply G. now right.
        -- intros j u [Q | I] R'; [|now apply (C j u)].
           injection Q as <- <-. apply G. now left.
        -- intros f I. destruct (S f I) as [I' | (j & u & ? & ? & ?)].
           ++ apply in_app_or in I' as [? | [<- | []]]; [now left|].
              right. exists i, t. repeat split; [now left | exact R].
           ++ right. exists j, u. repeat split; try assumption. now right.
      * destruct (IH seen found) as (seen' & found' & E & K & D & G & C & S).
        exists seen', found'. split; [exact E|]. repeat split; try assumption.
        -- intros j u [Q | I] R'; [|now apply (C j u)].
           injection Q as <- <-. congruence.
        -- intros f I. destruct (S f I) as [? | (j & u & ? & ? & ?)]; [now left|].
           right. exists j, u. repeat split; try assumption. now right.
Qed.

(** All patterns over the lines. *)
Lemma scan_patterns_invariant (rel : str) (lines : list (N * str)) (ps : list Pattern) :
  forall seen found,
    exists seen' found',
      fold_left (scan_pattern rel lines) ps (seen, found) = (seen', found') /\
      (map finding_key found = rev seen -> map finding_key found' = rev seen') /\
      (NoDup seen -> NoDup seen') /\
      (forall k, In k seen -> In k seen') /\
      (forall p i t, In p ps -> In (i, t) lines -> re_search (p_regex p) t = true ->
                     In (p_id p, i) seen') /\
      (forall f, In f found' ->
                 In f found \/
                 exists p i t, In p ps /\ In (i, t) lines /\
                               re_search (p_regex p) t = true /\
                               f = pattern_finding rel p i t).
Proof.
  induction ps as [|p ps IH]; intros seen found; cbn [fold_left].
  - exists seen, found. repeat split; try tauto. intros ? ? ? [].
  - destruct (scan_pattern_invariant rel p lines seen found)
      as (s1 & f1 & E1 & K1 & D1 & G1 & C1 & S1).
    rewrite E1.
    destruct (IH s1 f1) as (s2 & f2 & E2 & K2 & D2 & G2 & C2 & S2).
    exists s2, f2. split; [exact E2|]. repeat split.
    + intros Q. now apply K2, K1.
    + intros N. now apply D2, D1.
    + intros k I. now apply G2, G1.
    + intros q i t [<- | I] L R.
      * apply G2. now apply (C1 i t).
      * now apply (C2 q i t).
    + intros f I. destruct (S2 f I) as [I1 | (q & i & t & ? & ? & ? & ?)].
      * destruct (S1 f I1) as [? | (i & t & ? & ? & ?)]; [now left|].
        right. exists p, i, t. repeat split; try assumption. now left.
      * right. exists q, i, t. repeat split; try assumption. now right.
Qed.

(** [scan_file], as its two passes over the numbered lines. *)
Lemma scan_file_passes (name : str) (d : file_data) (rel : str) :
  scan_file name d rel
  = match scanned_lines name d with
    | Some lines =>
        snd (fold_left (scan_pattern (display_path name rel) lines)
                       THREAT_PATTERNS ([], [])) ++
        flat_map (scan_invisible (display_path name rel)) lines
    | None => []
    end.
Proof.
  unfold scan_file, scanned_lines, scannable_name, display_path.
  destruct (str_in _ _); destruct (str_eqb name _); cbn [negb andb orb];
    try reflexivity;
    (destruct (read_text d); [reflexivity|]);
    now destruct (fold_left _ _ _).
Qed.

Lemma distinct_NoDup (l : list str) : distinct l = true -> NoDup l.
Proof.
  induction l as [|x l IH]; cbn [distinct]; intros D; [constructor|].
  apply andb_true_iff in D as [N D]. constructor; [|now apply IH].
  intros I. apply str_in_In in I. rewrite I in N. discriminate.
Qed.

Lemma threat_ids_distinct : NoDup (map p_id THREAT_PATTERNS).
Proof. apply distinct_NoDup. vm_compute. reflexivity. Qed.

Lemma pattern_by_id (ps : list Pattern) (p q : Pattern) :
  NoDup (map p_id ps) -> In p ps -> In q ps -> p_id p = p_id q -> p = q.
Proof.
  induction ps as [|a ps IH]; intros D Ip Iq E; [contradiction|].
  cbn [map] in D. inversion D as [|? ? N D']; subst.
  destruct Ip as [-> | Ip]; destruct Iq as [-> | Iq].
  - reflexivity.
  - exfalso. apply N. rewrite E. now apply in_map.
  - exfalso. apply N. rewrite <- E. now apply in_map.
  - now apply IH.
Qed.

Lemma char_in_In (c : char) (s : str) : char_in c s = true <-> In c s.
Proof.
  unfold char_in. rewrite existsb_exists. split.
  - intros [x [I E]]. apply N.eqb_eq in E. now subst.
  - intros I. exists c. split; [exact I | apply N.eqb_refl].
Qed.

(** The invisible-character pass on one line: nothing when the line has none
    of the characters, and one high injection finding otherwise. *)
Lemma scan_invisible_cases (rel : str) (i : N) (t : str) :
  (has_invisible t = false /\ scan_invisible rel (i, t) = []) \/
  (has_invisible t = true /\
   exists f, scan_invisible rel (i, t) = [f] /\
             pattern_id f = lit "invisible_unicode" /\ line f = i /\
             file f = rel /\ severity f = lit "high" /\
             category f = lit "injection" /\
             exists c m, In c INVISIBLE_CHARS /\ In c t /\ match_ f = MText m /\
                         (List.length m <= 120)%nat).
Proof.
  unfold scan_invisible, has_invisible.
  destruct (find (fun c => char_in c t) INVISIBLE_CHARS) as [c|] eqn:F.
  - right. apply find_some in F as [I C]. split.
    + apply existsb_exists. now exists c.
    + eexists. split; [reflexivity|]. cbn [pattern_id line file severity category match_].
      repeat split. exists c. eexists. split; [exact I|].
      split; [now apply char_in_In|]. split; [reflexivity|].
      clear C.
      assert (B : forallb
                (fun c => (List.length (u_plus c ++ lit " (" ++ _unicode_char_name c
                                        ++ lit ")") <=? 120)%nat)
                INVISIBLE_CHARS = true) by (vm_compute; reflexivity).
      rewrite forallb_forall in B. apply Nat.leb_le. now apply B.
  - left. split; [|reflexivity].
    destruct (existsb _ _) eqn:E; [|reflexivity].
    apply existsb_exists in E as [c [I C]].
    now rewrite (find_none _ _ F c I) in C.
Qed.

Lemma scanned_lines_some (name : str) (d : file_data) (lines : list (N * str)) :
  scanned_lines name d = Some lines <->
  scannable_name name = true /\
  exists content, read_text d = inr content /\ lines = numbered_lines content.
Proof.
  unfold scanned_lines, numbered_lines. split.
  - destruct (scannable_name name); [|discriminate].
    destruct (read_text d) as [e|content]; [discriminate|].
    intros [= <-]. split; [reflexivity|]. now exists content.
  - intros [-> (content & -> & ->)]. reflexivity.
Qed.

(** The regex pass from its empty state. *)
Lemma regex_pass (rel : str) (lines : list (N * str)) :
  exists seen found,
    fold_left (scan_pattern rel lines) THREAT_PATTERNS ([], []) = (seen, found) /\
    map finding_key found = rev seen /\
    NoDup seen /\
    (forall p i t, In p THREAT_PATTERNS -> In (i, t) lines ->
                   re_search (p_regex p) t = true -> In (p_id p, i) seen) /\
    (forall f, In f found ->
               exists p i t, In p THREAT_PATTERNS /\ In (i, t) lines /\
                             re_search (p_regex p) t = true /\
                             f = pattern_finding rel p i t).
Proof.
  destruct (scan_patterns_invariant rel lines THREAT_PATTERNS [] [])
    as (seen & found & E & K & D & _ & C & S).
  exists seen, found. split; [exact E|]. repeat split.
  - now apply K.
  - apply D. constructor.
  - exact C.
  - intros f I. destruct (S f I) as [[] | ?]. assumption.
Qed.

Lemma invisible_pass_In (rel : str) (ls : list (N * str)) (f : Finding) :
  In f (flat_map (scan_invisible rel) ls) ->
  exists i t, In (i, t) ls /\ has_invisible t = true /\
              pattern_id f = lit "invisible_unicode" /\ line f = i /\
              file f = rel /\ severity f = lit "high" /\
              category f = lit "injection" /\
              exists m, match_ f = MText m /\ (List.length m <= 120)%nat.
Proof.
  intros I. apply in_flat_map in I as [[i t] [L I]].
  destruct (scan_invisible_cases rel i t)
    as [[_ E] | [H (g & E & P & Li & Fi & Se & Ca & c & m & _ & _ & M & B)]];
    rewrite E in I; [contradiction|].
  destruct I as [<- | []]. exists i, t. repeat split; try assumption.
  now exists m.
Qed.

Lemma invisible_pass_keys (rel : str) (ls : list (N * str)) :
  NoDup (map fst ls) ->
  NoDup (map finding_key (flat_map (scan_invisible rel) ls)).
Proof.
  induction ls as [|[i t] ls IH]; intros D; cbn [flat_map map]; [constructor|].
  cbn [map fst] in D. inversion D as [|? ? N D']; subst.
  destruct (scan_invisible_cases rel i t) as [[_ E] | [_ (g & E & P & Li & _)]];
    rewrite E; cbn [app map]; [now apply IH|].
  constructor; [|now apply IH].
  intros I. apply in_map_iff in I as [h [K I]].
  apply invisible_pass_In in I as (j & u & L & _ & _ & Lj & _).
  apply N. unfold finding_key in K. injection K as _ K.
  rewrite <- Li, <- K, Lj. now apply (in_map fst ls (j, u)).
Qed.

Lemma pattern_id_not_invisible (p : Pattern) :
  In p THREAT_PATTERNS -> p_id p <> lit "invisible_unicode".
Proof.
  intros I E.
  assert (N : str_in (lit "invisible_unicode") (map p_id THREAT_PATTERNS) = false)
    by (vm_compute; reflexivity).
  assert (Y : str_in (lit "invisible_unicode") (map p_id THREAT_PATTERNS) = true).
  { apply str_in_In. rewrite <- E. now apply in_map. }
  congruence.
Qed.

Lemma pattern_severity_known (p : Pattern) :
  In p THREAT_PATTERNS -> In (p_severity p) known_severities.
Proof.
  assert (B : forallb (fun p => str_in (p_severity p) known_severities)
                      THREAT_PATTERNS = true) by (vm_compute; reflexivity).
  rewrite forallb_forall in B. intros I. apply str_in_In. now apply B.
Qed.

(** The findings of [scan_file] are distinct in pattern and line: a pattern is
    reported at most once per line, and an invisible character at most once per
    line. *)
Theorem scan_file_keys_distinct (name : str) (d : file_data) (rel : str) :
  NoDup (map finding_key (scan_file name d rel)).
Proof.
  rewrite scan_file_passes.
  destruct (scanned_lines name d) as [lines|] eqn:L; [|constructor].
  apply scanned_lines_some in L as [_ (content & _ & ->)].
  destruct (regex_pass (display_path name rel) (numbered_lines content))
    as (seen & found & E & K & D & _ & S).
  rewrite E. cbn [snd]. rewrite map_app. apply NoDup_app.
  - rewrite K. now apply NoDup_rev.
  - apply invisible_pass_keys. apply enumerate_indices_NoDup.
  - intros k I1 I2.
    apply in_map_iff in I1 as [f [<- I1]]. apply in_map_iff in I2 as [g [Q I2]].
    apply S in I1 as (p & i & t & Ip & _ & _ & ->).
    apply invisible_pass_In in I2 as (_ & _ & _ & _ & P & _).
    unfold finding_key in Q. cbn [pattern_finding pattern_id] in Q.
    injection Q as Q _. apply (pattern_id_not_invisible p Ip). congruence.
Qed.

(** Where a finding of [scan_file] points: the file read as text under a
    scanned name, the path it was given, a line of the file counted from 1, a
    match text of at most 120 characters, and one of the four severities. *)
Theorem scan_file_findings_located (name : str) (d : file_data) (rel : str)
    (f : Finding) :
  In f (scan_file name d rel) ->
  scannable_name name = true /\
  exists content,
    read_text d = inr content /\
    file f = display_path name rel /\
    1 <= line f <= N.of_nat (List.length (split 10 content)) /\
    (exists m, match_ f = MText m /\ (List.length m <= 120)%nat) /\
    In (severity f) known_severities.
Proof.
  rewrite scan_file_passes.
  destruct (scanned_lines name d) as [lines|] eqn:L; [|contradiction].
  apply scanned_lines_some in L as [Sc (content & R & ->)].
  intros I. split; [exact Sc|]. exists content. split; [exact R|].
  assert (B : forall i t, In (i, t) (numbered_lines content) ->
                          1 <= i <= N.of_nat (List.length (split 10 content))).
  { intros i t Il. apply enumerate_In in Il. lia. }
  destruct (regex_pass (display_path name rel) (numbered_lines content))
    as (seen & found & E & _ & _ & _ & S).
  rewrite E in I. cbn [snd] in I. apply in_app_or in I as [I | I].
  - apply S in I as (p & i & t & Ip & Il & _ & ->).
    cbn [pattern_finding file line match_ severity].
    repeat split; try (now apply (B i t)).
    + eexists. split; [reflexivity | apply matched_text_length].
    + now apply pattern_severity_known.
  - apply invisible_pass_In in I as (i & t & Il & _ & _ & Li & Fi & Se & _ & M).
    rewrite Li, Fi, Se. repeat split; try (now apply (B i t)); try exact M.
    vm_compute. tauto.
Qed.

(** The regex pass is exact: on a file it reads, [scan_file] reports a pattern
    of the table on a line exactly when the pattern matches that line. *)
Theorem scan_file_reports_matches (name : str) (d : file_data) (rel content : str)
    (p : Pattern) (i : N) (t : str) :
  scannable_name name = true ->
  read_text d = inr content ->
  In p THREAT_PATTERNS ->
  In (i, t) (numbered_lines content) ->
  (In (pattern_finding (display_path name rel) p i t) (scan_file name d rel) <->
   re_search (p_regex p) t = true).
Proof.
  intros Sc R Ip Il. rewrite scan_file_passes.
  assert (L : scanned_lines name d = Some (numbered_lines content)).
  { apply scanned_lines_some. split; [exact Sc | now exists content]. }
  rewrite L.
  destruct (regex_pass (display_path name rel) (numbered_lines content))
    as (seen & found & E & K & _ & C & S).
  rewrite E. cbn [snd]. split.
  - intros I. apply in_app_or in I as [I | I].
    + apply S in I as (q & j & u & Iq & Iu & Rq & Q).
      injection Q as Qid _ _ Qi _ _.
      assert (q = p) by (symmetry in Qid; now apply (pattern_by_id THREAT_PATTERNS q p threat_ids_distinct)).
      subst q j. now rewrite (enumerate_functional _ _ _ _ _ Il Iu).
    + apply invisible_pass_In in I as (_ & _ & _ & _ & P & _).
      cbn [pattern_finding pattern_id] in P.
      exfalso. now apply (pattern_id_not_invisible p Ip).
  - intros M. apply in_or_app. left.
    assert (Kin : In (p_id p, i) (map finding_key found)).
    { rewrite K. apply in_rev. rewrite rev_involutive. now apply (C p i t). }
    apply in_map_iff in Kin as [f [Q I]].
    destruct (S f I) as (q & j & u & Iq & Iu & Rq & ->).
    unfold finding_key in Q. cbn [pattern_finding pattern_id line] in Q.
    injection Q as Qid Qi.
    assert (q = p) by now apply (pattern_by_id THREAT_PATTERNS q p threat_ids_distinct).
    subst q j. now rewrite (enumerate_functional _ _ _ _ _ Il Iu).
Qed.

(** The invisible-character pass is exact: on a file it reads, [scan_file]
    reports invisible_unicode on a line exactly when the line holds one of the
    characters of [INVISIBLE_CHARS]. *)
Theorem scan_file_reports_invisible (name : str) (d : file_data) (rel content : str)
    (i : N) (t : str) :
  scannable_name name = true ->
  read_text d = inr content ->
  In (i, t) (numbered_lines content) ->
  ((exists f, In f (scan_file name d rel) /\
              pattern_id f = lit "invisible_unicode" /\ line f = i) <->
   exists c, In c INVISIBLE_CHARS /\ In c t).
Proof.
  intros Sc R Il. rewrite scan_file_passes.
  assert (L : scanned_lines name d = Some (numbered_lines content)).
  { apply scanned_lines_some. split; [exact Sc | now exists content]. }
  rewrite L.
  destruct (regex_pass (display_path name rel) (numbered_lines content))
    as (seen & found & E & _ & _ & _ & S).
  rewrite E. cbn [snd]. split.
  - intros (f & I & P & Li). apply in_app_or in I as [I | I].
    + apply S in I as (q & j & u & Iq & _ & _ & ->).
      exfalso. now apply (pattern_id_not_invisible q Iq).
    + apply invisible_pass_In in I as (j & u & Iu & H & _ & Lj & _).
      rewrite Li in Lj. subst j.
      rewrite (enumerate_functional _ _ _ _ _ Il Iu).
      unfold has_invisible in H. apply existsb_exists in H as [c [Ic C]].
      exists c. split; [exact Ic | now apply char_in_In].
  - intros (c & Ic & Ct).
    destruct (scan_invisible_cases (display_path name rel) i t)
      as [[H _] | [_ (f & Ef & P & Li & _)]].
    + exfalso. unfold has_invisible in H.
      assert (Y : existsb (fun c => char_in c t) INVISIBLE_CHARS = true).
      { apply existsb_exists. exists c. split; [exact Ic | now apply char_in_In]. }
      congruence.
    + exists f. split; [|now split].
      apply in_or_app. right. apply in_flat_map. exists (i, t).
      split; [exact Il | rewrite Ef; now left].
Qed.

End TextPass.

Lemma passwd_pattern_in_table : In passwd_pattern THREAT_PATTERNS.
Proof. apply (nth_error_In _ 82). vm_compute. reflexivity. Qed.

Lemma scan_file_findings_located_witness :
  scannable_name (lit "SKILL.md") = true /\
  exists content,
    read_text (plain_file (ascii_bytes "cat /etc/passwd")) = inr content /\
    file (pattern_finding (lit "SKILL.md") passwd_pattern 1 (lit "cat /etc/passwd"))
    = display_path (lit "SKILL.md") [] /\
    1 <= line (pattern_finding (lit "SKILL.md") passwd_pattern 1 (lit "cat /etc/passwd"))
      <= N.of_nat (List.length (split 10 content)) /\
    (exists m,
       match_ (pattern_finding (lit "SKILL.md") passwd_pattern 1 (lit "cat /etc/passwd"))
       = MText m /\ (List.length m <= 120)%nat) /\
    In (severity (pattern_finding (lit "SKILL.md") passwd_pattern 1 (lit "cat /etc/passwd")))
       known_severities.
Proof.
  apply (scan_file_findings_located (engine := literal_engine) (lit "SKILL.md")
           (plain_file (ascii_bytes "cat /etc/passwd")) []).
  vm_compute. left. reflexivity.
Defined.

Lemma scan_file_reports_matches_witness :
  In (pattern_finding (display_path (lit "SKILL.md") []) passwd_pattern 1
                      (lit "cat /etc/passwd"))
     (scan_file (engine := literal_engine) (lit "SKILL.md")
                (plain_file (ascii_bytes "cat /etc/passwd")) []) <->
  literal_search (p_regex passwd_pattern) (lit "cat /etc/passwd") = true.
Proof.
  apply (scan_file_reports_matches (engine := literal_engine) (lit "SKILL.md")
           (plain_file (ascii_bytes "cat /etc/passwd")) [] (lit "cat /etc/passwd")).
  - reflexivity.
  - vm_compute. reflexivity.
  - exact passwd_pattern_in_table.
  - vm_compute. left. reflexivity.
Defined.

Lemma scan_file_reports_invisible_witness :
  (exists f,
     In f (scan_file (engine := literal_engine) (lit "notes.md")
                     (three_bytes zero_width_space_bytes) []) /\
     pattern_id f = lit "invisible_unicode" /\ line f = 1) <->
  exists c, In c INVISIBLE_CHARS /\ In c [8203].
Proof.
  apply (scan_file_reports_invisible (engine := literal_engine) (lit "notes.md")
           (three_bytes zero_width_space_bytes) [] [8203]).
  - reflexivity.
  - vm_compute. reflexivity.
  - vm_compute. left. reflexivity.
Defined.

(** ** The thresholds of the structural audit *)

Lemma check_entry_exact (root : option str) (e : entry) (found : list Finding)
    (count size : N) :
  check_entry root (found, count, size) e
  = (found ++ entry_findings root e,
     count + (if counted e then 1 else 0),
     size + entry_size e).
Proof.
  unfold check_entry, entry_findings, counted, entry_size, is_file, is_symlink, file_of.
  destruct (e_kind e) as [d| |resolved target|]; cbn [negb andb orb].
  - destruct (f_stat d); [reflexivity|]. now rewrite app_nil_r, N.add_0_r.
  - now rewrite app_nil_r, !N.add_0_r.
  - destruct target; cbn [negb andb orb]; now rewrite N.add_0_r.
  - now rewrite app_nil_r, !N.add_0_r.
Qed.

Lemma check_structure_walk_exact (root : option str) (entries : list entry) :
  forall found count size,
    fold_left (check_entry root) entries (found, count, size)
    = (found ++ flat_map (entry_findings root) entries,
       count + file_count entries,
       size + total_size entries).
Proof.
  unfold file_count.
  induction entries as [|e entries IH]; intros found count size;
    cbn [fold_left flat_map filter total_size fold_right].
  - cbn [List.length]. now rewrite app_nil_r, !N.add_0_r.
  - rewrite check_entry_exact, IH, <- app_assoc. f_equal; [f_equal|].
    + destruct (counted e); cbn [List.length]; lia.
    + fold (total_size entries). lia.
Qed.

(** [_check_structure], with the two counters written out. *)
Lemma check_structure_exact (root : option str) (entries : list entry) :
  exists many big,
    _check_structure root entries
    = flat_map (entry_findings root) entries ++ many ++ big /\
    ((MAX_FILE_COUNT <? file_count entries) = true ->
     exists f, many = [f] /\ pattern_id f = lit "too_many_files" /\
               severity f = lit "medium" /\ file f = lit "(directory)") /\
    ((MAX_FILE_COUNT <? file_count entries) = false -> many = []) /\
    ((MAX_TOTAL_SIZE_KB * 1024 <? total_size entries) = true ->
     exists f, big = [f] /\ pattern_id f = lit "oversized_skill" /\
               severity f = lit "high" /\ file f = lit "(directory)") /\
    ((MAX_TOTAL_SIZE_KB * 1024 <? total_size entries) = false -> big = []).
Proof.
  unfold _check_structure. rewrite check_structure_walk_exact. cbn [app].
  rewrite !N.add_0_l.
  eexists _, _. split; [reflexivity|].
  destruct (MAX_FILE_COUNT <? file_count entries);
    destruct (MAX_TOTAL_SIZE_KB * 1024 <? total_size entries);
    repeat split; try discriminate; try reflexivity;
    intros _; eexists; repeat split.
Qed.

Lemma entry_findings_ids (root : option str) (e : entry) :
  Forall (fun f => In (pattern_id f)
                      [lit "symlink_escape"; lit "broken_symlink";
                       lit "oversized_file"; lit "binary_file";
                       lit "unexpected_executable"])
         (entry_findings root e).
Proof.
  unfold entry_findings.
  destruct (e_kind e) as [d| |resolved target|]; try constructor.
  - destruct (f_stat d) as [s|]; [|constructor].
    unfold regular_findings.
    repeat match goal with |- context [if ?c then _ else _] => destruct c end;
      repeat (constructor; [cbn [pattern_id]; apply str_in_In; vm_compute; reflexivity|]);
      constructor.
  - unfold symlink_findings.
    destruct resolved as [r|], root as [rt|];
      try (destruct (negb (startswith r rt)));
      repeat (constructor; [cbn [pattern_id]; apply str_in_In; vm_compute; reflexivity|]);
      constructor.
Qed.

Lemma entries_never_report (root : option str) (entries : list entry) (pid : str) :
  str_in pid [lit "symlink_escape"; lit "broken_symlink"; lit "oversized_file";
              lit "binary_file"; lit "unexpected_executable"] = false ->
  ~ reports (flat_map (entry_findings root) entries) pid.
Proof.
  intros N (f & I & P). apply in_flat_map in I as [e [_ I]].
  pose proof (entry_findings_ids root e) as F. rewrite Forall_forall in F.
  apply F in I. rewrite P in I. apply str_in_In in I. congruence.
Qed.

(** The two limits on the directory as a whole are exact: the audit reports
    too_many_files exactly when more than 50 entries are files or symlinks, and
    oversized_skill exactly when the sizes of the regular files add up to more
    than 1024 KB. *)
Theorem check_structure_limits (root : option str) (entries : list entry) :
  (reports (_check_structure root entries) (lit "too_many_files") <->
   MAX_FILE_COUNT < file_count entries) /\
  (reports (_check_structure root entries) (lit "oversized_skill") <->
   MAX_TOTAL_SIZE_KB * 1024 < total_size entries).
Proof.
  destruct (check_structure_exact root entries)
    as (many & big & -> & M1 & M0 & B1 & B0).
  split.
  - destruct (N.ltb_spec MAX_FILE_COUNT (file_count entries)) as [L | L]; split.
    + intros _. exact L.
    + intros _. destruct (M1 eq_refl) as (f & -> & P & _).
      exists f. split; [|exact P]. apply in_or_app. right. now left.
    + intros (f & I & P). exfalso.
      rewrite (M0 eq_refl) in I. cbn [app] in I.
      apply in_app_or in I as [I | I].
      * apply (entries_never_report root entries (lit "too_many_files") eq_refl).
        now exists f.
      * destruct (N.ltb_spec (MAX_TOTAL_SIZE_KB * 1024) (total_size entries)).
        -- destruct (B1 eq_refl) as (g & -> & Pg & _).
           destruct I as [<- | []]. rewrite P in Pg. discriminate.
        -- now rewrite (B0 eq_refl) in I.
    + intros C. lia.
  - destruct (N.ltb_spec (MAX_TOTAL_SIZE_KB * 1024) (total_size entries)) as [L | L];
      split.
    + intros _. exact L.
    + intros _. destruct (B1 eq_refl) as (f & -> & P & _).
      exists f. split; [|exact P]. apply in_or_app. right.
      apply in_or_app. right. now left.
    + intros (f & I & P). exfalso.
      rewrite (B0 eq_refl), app_nil_r in I.
      apply in_app_or in I as [I | I].
      * apply (entries_never_report root entries (lit "oversized_skill") eq_refl).
        now exists f.
      * destruct (N.ltb_spec MAX_FILE_COUNT (file_count entries)).
        -- destruct (M1 eq_refl) as (g & -> & Pg & _).
           destruct I as [<- | []]. rewrite P in Pg. discriminate.
        -- now rewrite (M0 eq_refl) in I.
    + intros C. lia.
Qed.

(** The limit on the number of files, at its edge: fifty files pass, fifty-one
    are reported. *)
Example check_structure_file_limit_edge :
  _check_structure None (numbered_directory 50) = [] /\
  map pattern_id (_check_structure None (numbered_directory 51))
  = [lit "too_many_files"].
Proof. vm_compute. split; reflexivity. Qed.

(** ** What the audit reports on one entry *)

Lemma reports_on_filter (fs : list Finding) (pid rel : str) :
  reports_on fs pid rel <-> filter (reported pid rel) fs <> [].
Proof.
  unfold reports_on. split.
  - intros (f & I & P & F) E.
    assert (Y : In f (filter (reported pid rel) fs)).
    { apply filter_In. split; [exact I|]. unfold reported.
      now rewrite P, F, !str_eqb_refl. }
    now rewrite E in Y.
  - intros N. destruct (filter (reported pid rel) fs) as [|f l] eqn:E; [contradiction|].
    assert (Y : In f (filter (reported pid rel) fs)) by (rewrite E; now left).
    apply filter_In in Y as [I R]. unfold reported in R.
    apply andb_true_iff in R as [R1 R2].
    apply str_eqb_eq in R1. apply str_eqb_eq in R2. now exists f.
Qed.

(** Among entries of distinct relative paths, what the audit reports on an
    entry's path under a per-entry pattern is what the entry itself gives. *)
Lemma reports_on_structure_entry (root : option str) (entries : list entry)
    (e : entry) (pid : str) :
  In e entries -> NoDup (map e_rel entries) ->
  str_in pid [lit "too_many_files"; lit "oversized_skill"] = false ->
  (reports_on (_check_structure root entries) pid (e_rel e) <->
   reports_on (entry_findings root e) pid (e_rel e)).
Proof.
  intros I D S. rewrite !reports_on_filter.
  destruct (check_structure_findings root entries) as (summary & -> & Fs).
  rewrite filter_app, (reported_other_pattern pid (e_rel e) summary _ S Fs), app_nil_r.
  now rewrite reported_structure_entry.
Qed.

Lemma startswith_app (s t : str) : startswith (s ++ t) s = true.
Proof.
  induction s as [|c s IH]; [now destruct t|]. cbn. now rewrite N.eqb_refl.
Qed.

(** The escape test is exact on strings: among entries of distinct relative
    paths, a symlink that resolves is reported as symlink_escape exactly when
    its resolved path does not start with the resolved root as a string. A
    path that only extends the root's last component, a sibling directory,
    starts with it and is not reported. *)
Theorem symlink_escape_is_string_prefix (root : str) (entries : list entry)
    (e : entry) (r : str) (target : option file_data) :
  In e entries -> NoDup (map e_rel entries) ->
  e_kind e = Symlink (Some r) target ->
  (reports_on (_check_structure (Some root) entries) (lit "symlink_escape") (e_rel e) <->
   startswith r root = false) /\
  (forall tail, r = root ++ tail ->
     ~ reports_on (_check_structure (Some root) entries) (lit "symlink_escape") (e_rel e)).
Proof.
  intros I D K.
  assert (Q : reports_on (_check_structure (Some root) entries)
                         (lit "symlink_escape") (e_rel e)
              <-> startswith r root = false).
  { rewrite reports_on_structure_entry; try assumption; [|reflexivity].
    unfold entry_findings. rewrite K. unfold symlink_findings.
    destruct (startswith r root); cbn [negb]; split.
    - intros (f & [] & _).
    - discriminate.
    - reflexivity.
    - intros _. eexists. split; [now left | split; reflexivity]. }
  split; [exact Q|].
  intros tail -> R. apply Q in R. rewrite startswith_app in R. discriminate.
Qed.

Lemma symlink_escape_is_string_prefix_witness :
  ~ reports_on (_check_structure (Some (lit "/skills/foo")) [manifest_entry; sibling_link])
               (lit "symlink_escape") (lit "notes.md").
Proof.
  refine (proj2 (symlink_escape_is_string_prefix (lit "/skills/foo")
                   [manifest_entry; sibling_link] sibling_link
                   (lit "/skills/foo" ++ lit "bar/secret.md")
                   (Some (plain_file (ascii_bytes "cat /etc/passwd"))) _ _ _)
                (lit "bar/secret.md") eq_refl).
  - simpl; tauto.
  - repeat constructor; simpl; intuition discriminate.
  - reflexivity.
Defined.

Lemma in_singleton_pattern (f g : Finding) (pid : str) :
  In f [g] -> pattern_id f = pid -> pattern_id g = pid.
Proof. intros [<- | []]. trivial. Qed.

(** What the audit says of a regular file, among entries of distinct relative
    paths: oversized_file exactly when [stat] gives more than 256 KB,
    binary_file exactly when the lowered extension is one of the binary ones,
    unexpected_executable exactly when an execute bit is set and the lowered
    extension is not that of a script. *)
Theorem regular_file_reports (root : option str) (entries : list entry) (e : entry)
    (d : file_data) (s : stat_result) :
  In e entries -> NoDup (map e_rel entries) ->
  e_kind e = Regular d -> f_stat d = Some s ->
  (reports_on (_check_structure root entries) (lit "oversized_file") (e_rel e) <->
   MAX_SINGLE_FILE_KB * 1024 < st_size s) /\
  (reports_on (_check_structure root entries) (lit "binary_file") (e_rel e) <->
   In (lower (suffix (e_name e))) SUSPICIOUS_BINARY_EXTENSIONS) /\
  (reports_on (_check_structure root entries) (lit "unexpected_executable") (e_rel e) <->
   ~ In (lower (suffix (e_name e))) script_extensions /\ N.land (st_mode s) 73 <> 0).
Proof.
  intros I D K St.
  rewrite !reports_on_structure_entry; try assumption; try reflexivity.
  unfold entry_findings. rewrite K, St. unfold regular_findings, reports_on.
  fold script_extensions.
  destruct (N.ltb_spec (MAX_SINGLE_FILE_KB * 1024) (st_size s)) as [L | L];
    destruct (str_in (lower (suffix (e_name e))) SUSPICIOUS_BINARY_EXTENSIONS) eqn:B;
    destruct (str_in (lower (suffix (e_name e))) script_extensions) eqn:Sc;
    destruct (N.eqb_spec (N.land (st_mode s) 73) 0) as [M | M];
    cbn [negb andb app];
    (split; [|split]); split;
    try (intros (f & Hin & P & _); cbn [In] in Hin;
         repeat (destruct Hin as [<- | Hin]; [vm_compute in P; discriminate P|]);
         contradiction);
    try (intros _;
         first [ eexists; split; [left; reflexivity | split; reflexivity]
               | eexists; split; [right; left; reflexivity | split; reflexivity]
               | eexists; split; [right; right; left; reflexivity | split; reflexivity] ]);
    try (intros _; assumption);
    try (intros _; now apply str_in_In);
    try (intros C; exfalso; lia);
    try (intros C; apply str_in_In in C; congruence);
    try (intros _; split; [intros C; apply str_in_In in C; congruence | assumption]);
    try (intros [C1 C2]; exfalso; first [now apply C2 | apply C1; now apply str_in_In]).
Qed.

Lemma regular_file_reports_witness :
  (reports_on (_check_structure None [manifest_entry; big_binary])
              (lit "oversized_file") (lit "bin/Tool.EXE") <->
   MAX_SINGLE_FILE_KB * 1024 < 307200) /\
  (reports_on (_check_structure None [manifest_entry; big_binary])
              (lit "binary_file") (lit "bin/Tool.EXE") <->
   In (lit ".exe") SUSPICIOUS_BINARY_EXTENSIONS) /\
  (reports_on (_check_structure None [manifest_entry; big_binary])
              (lit "unexpected_executable") (lit "bin/Tool.EXE") <->
   ~ In (lit ".exe") script_extensions /\ N.land 493 73 <> 0).
Proof.
  apply (regular_file_reports None [manifest_entry; big_binary] big_binary
           (mkFile [] true (Some (mkStat 307200 493))) (mkStat 307200 493)).
  - simpl; tauto.
  - repeat constructor; simpl; intuition discriminate.
  - reflexivity.
  - reflexivity.
Defined.

(** ** From the scan to the install decision *)

Lemma resolve_trust_level_values (source : str) :
  _resolve_trust_level source = lit "trusted" \/
  _resolve_trust_level source = lit "community".
Proof.
  unfold _resolve_trust_level. destruct (existsb _ _); [now left | now right].
Qed.

Lemma determine_verdict_critical (fs : list Finding) :
  _determine_verdict fs
  = match fs with
    | [] => lit "safe"
    | _ => if has_critical fs then lit "dangerous" else lit "caution"
    end.
Proof.
  unfold _determine_verdict, has_critical. destruct fs as [|f fs]; [reflexivity|].
  destruct (existsb _ (f :: fs)); [reflexivity|]. now destruct (existsb _ _).
Qed.

Section Decision.

Context {engine : RegexEngine}.

(** The install decision on what [scan_skill] returns.  Without force a
    scanned skill is allowed exactly when it has no finding, or its source is a
    trusted one and no finding is critical.  With force it is always allowed. *)
Theorem scan_skill_install_decision (sk : skill) (source now : str) :
  decision_of (scan_skill sk source now) false
  = Some (match scan_findings sk with
          | [] => true
          | fs => str_eqb (_resolve_trust_level source) (lit "trusted") &&
                  negb (has_critical fs)
          end) /\
  decision_of (scan_skill sk source now) true = Some true.
Proof.
  rewrite !decision_by_table. unfold scan_skill. cbn [verdict trust_level].
  rewrite determine_verdict_critical.
  destruct (scan_findings sk) as [|f fs].
  - destruct (resolve_trust_level_values source) as [-> | ->]; split; reflexivity.
  - destruct (has_critical (f :: fs));
      destruct (resolve_trust_level_values source) as [-> | ->]; split; reflexivity.
Qed.

(** A critical structural finding decides the scan: a directory that holds an
    escaping symlink, or a regular file with a binary extension, gets the
    verdict dangerous and is blocked without force, whatever its source. *)
Theorem critical_entry_blocks (name : str) (root : option str) (entries : list entry)
    (e : entry) (source now : str) :
  In e entries -> escaping root e \/ binary_entry e ->
  verdict (scan_skill (mkSkill name (SkillDir root entries)) source now)
  = lit "dangerous" /\
  decision_of (scan_skill (mkSkill name (SkillDir root entries)) source now) false
  = Some false.
Proof.
  intros I C.
  assert (Cr : has_critical (scan_findings (mkSkill name (SkillDir root entries))) = true).
  { unfold has_critical. apply existsb_exists.
    assert (X : exists f, In f (entry_findings root e) /\ severity f = lit "critical").
    { unfold entry_findings.
      destruct C as [(r & rt & target & K & -> & Out) | (d & s & K & St & B)]; rewrite K.
      - unfold symlink_findings. rewrite Out. cbn [negb].
        eexists. split; [now left | reflexivity].
      - rewrite St. unfold regular_findings. apply str_in_In in B. rewrite B.
        eexists. split; [apply in_or_app; right; apply in_or_app; left; now left
                        | reflexivity]. }
    destruct X as (f & If & Sf). exists f. split; [|now rewrite Sf].
    unfold scan_findings. cbn [sk_node]. apply in_or_app. left.
    destruct (check_structure_findings root entries) as (summary & -> & _).
    apply in_or_app. left. apply in_flat_map. now exists e. }
  assert (V : verdict (scan_skill (mkSkill name (SkillDir root entries)) source now)
              = lit "dangerous").
  { unfold scan_skill. cbn [verdict]. rewrite determine_verdict_critical, Cr.
    destruct (scan_findings _); [discriminate | reflexivity]. }
  split; [exact V|].
  rewrite decision_by_table, V. reflexivity.
Qed.

End Decision.

Lemma critical_entry_blocks_witness :
  verdict (scan_skill (engine := literal_engine)
             (mkSkill (lit "demo") (SkillDir None [manifest_entry; big_binary]))
             (lit "openai/skills") [])
  = lit "dangerous" /\
  decision_of (scan_skill (engine := literal_engine)
                 (mkSkill (lit "demo") (SkillDir None [manifest_entry; big_binary]))
                 (lit "openai/skills") []) false
  = Some false.
Proof.
  apply (critical_entry_blocks (engine := literal_engine) (lit "demo") None
           [manifest_entry; big_binary] big_binary (lit "openai/skills") []).
  - simpl; tauto.
  - right. exists (mkFile [] true (Some (mkStat 307200 493))), (mkStat 307200 493).
    split; [reflexivity | split; [reflexivity | vm_compute; tauto]].
Defined.

(** ** When the classifier merge raises, and what it keeps *)

Lemma determine_verdict_values (fs : list Finding) :
  fs <> [] ->
  _determine_verdict fs = lit "dangerous" \/ _determine_verdict fs = lit "caution".
Proof.
  intros N. rewrite determine_verdict_critical.
  destruct fs; [contradiction|]. destruct (has_critical _); [now left | now right].
Qed.

Lemma has_critical_app (a b : list Finding) :
  has_critical (a ++ b) = has_critical a || has_critical b.
Proof. unfold has_critical. apply existsb_app. Qed.

(** Adding findings never lowers the verdict of a list. *)
Lemma determine_verdict_app (a b : list Finding) :
  (verdict_rank (_determine_verdict a)
   <= verdict_rank (_determine_verdict (a ++ b)))%nat.
Proof.
  rewrite !determine_verdict_critical, has_critical_app.
  destruct a as [|f a]; [apply Nat.le_0_l|]. cbn [app].
  destruct (has_critical (f :: a)); cbn [orb]; [apply le_n|].
  destruct (has_critical b); vm_compute; lia.
Qed.

Section AuditEdges.

Context {world : Collaborators}.

Lemma parse_item_raises (found : list Finding) (item : json) :
  (bad_item item = true -> parse_item found item = Raise TypeError) /\
  (bad_item item = false -> exists found', parse_item found item = Ok found').
Proof.
  unfold parse_item, bad_item, item_description.
  destruct item as [| | | | | |fields]; try (split; [discriminate | now eexists]).
  destruct (match json_get fields (lit "description") with
            | Some v => v
            | None => JStr []
            end) as [|b|n|nz|s|items|fs];
    cbn [truthy andb].
  - split; [discriminate | now eexists].
  - destruct b; cbn [andb]; split; try discriminate; try reflexivity; now eexists.
  - destruct (negb (n =? 0)%Z); cbn [andb]; split; try discriminate; try reflexivity;
      now eexists.
  - destruct nz; cbn [andb]; split; try discriminate; try reflexivity; now eexists.
  - rewrite andb_false_r. split; [discriminate|].
    intros _. destruct (negb (str_eqb s [])); now eexists.
  - rewrite andb_false_r. split; [discriminate|].
    intros _. destruct items; now eexists.
  - destruct fs; cbn [andb]; split; try discriminate; try reflexivity; now eexists.
Qed.

Lemma parse_items_raises (items : list json) :
  forall found,
    (existsb bad_item items = true -> parse_items found items = Raise TypeError) /\
    (existsb bad_item items = false -> exists fs, parse_items found items = Ok fs).
Proof.
  induction items as [|item items IH]; intros found; cbn [existsb parse_items].
  - split; [discriminate | now eexists].
  - destruct (parse_item_raises found item) as [B G].
    destruct (bad_item item); cbn [orb].
    + split; [|discriminate]. intros _. now rewrite (B eq_refl).
    + destruct (G eq_refl) as [found' ->]. cbn [bind]. apply IH.
Qed.

Lemma parse_llm_response_raises (text name : str) :
  _parse_llm_response text name
  = (if reply_raises (json_loads (strip_fence (strip text)))
     then Raise TypeError
     else _parse_llm_response text name) /\
  (reply_raises (json_loads (strip_fence (strip text))) = false ->
   exists fs, _parse_llm_response text name = Ok fs).
Proof.
  unfold _parse_llm_response, reply_raises.
  destruct (json_loads (strip_fence (strip text))) as [[| | | | | |fields]|];
    try (split; [reflexivity | now eexists]).
  destruct (py_iter _) as [items|e] eqn:P.
  - cbn [bind]. destruct (parse_items_raises items []) as [B G].
    destruct (existsb bad_item items).
    + split; [now rewrite (B eq_refl) | discriminate].
    + split; [reflexivity | exact G].
  - split; [|discriminate]. cbn [bind]. f_equal.
    unfold py_iter in P.
    destruct (match json_get fields (lit "findings") with
              | Some v => v
              | None => JArr []
              end); congruence.
Qed.

Lemma content_parts_nonempty (entries : list entry) (e0 : entry) :
  In e0 entries -> content_part e0 <> [] ->
  flat_map content_part (sorted_entries entries) <> [].
Proof.
  intros I N E.
  assert (I' : In e0 (sorted_entries entries)).
  { eapply Permutation_in; [apply Permutation_sym, sorted_entries_perm | exact I]. }
  destruct (content_part e0) as [|part parts] eqn:C; [now apply N|].
  assert (P : In part (flat_map content_part (sorted_entries entries))).
  { apply in_flat_map. exists e0. split; [exact I' | rewrite C; now left]. }
  rewrite E in P. exact P.
Qed.

(** The audit is best-effort only up to the shape of the reply.  When
    [json.loads] returns a value for the reply, [_parse_llm_response] returns a
    list unless the value is an object whose findings are not iterable or hold
    an item with a truthy description that is neither a string nor a list; on
    such a value it raises, and so does [llm_audit_skill], which calls it
    outside its try block, for every directory with a file to send and every
    named model, when a key is set and the classifier answers with that
    reply. *)
Theorem malformed_reply_raises (text : str) (v : json) :
  json_loads (strip_fence (strip text)) = Some v ->
  (reply_raises (Some v) = false ->
   forall name, exists fs, _parse_llm_response text name = Ok fs) /\
  (reply_raises (Some v) = true ->
   (forall name, exists e, _parse_llm_response text name = Raise e) /\
   (forall (sk : skill) (r : ScanResult) (m : str) root entries e0,
      verdict r <> lit "dangerous" ->
      sk_node sk = SkillDir root entries ->
      In e0 entries -> content_part e0 <> [] ->
      m <> [] -> api_key <> [] ->
      (forall content, chat_completion m content = Some text) ->
      exists e, llm_audit_skill sk r (Some m) = Raise e)).
Proof.
  intros J.
  assert (P : forall name,
             reply_raises (Some v) = true ->
             _parse_llm_response text name = Raise TypeError).
  { intros name B. destruct (parse_llm_response_raises text name) as [Q _].
    rewrite J, B in Q. exact Q. }
  split.
  - intros B name. apply parse_llm_response_raises. now rewrite J.
  - intros B. split.
    + intros name. exists TypeError. now apply P.
    + intros sk r m root entries e0 V K I N M A C.
      exists TypeError. unfold llm_audit_skill.
      apply str_eqb_neq in V. rewrite V, K.
      pose proof (content_parts_nonempty entries e0 I N) as Ne.
      destruct (flat_map content_part (sorted_entries entries)) as [|part parts];
        [now contradiction Ne|].
      destruct m as [|c m]; [now contradiction M|].
      destruct api_key as [|k key]; [now contradiction A|].
      rewrite C, (P _ B). reflexivity.
Qed.

(** What the audit keeps: the result it returns has the name, source, trust
    level and time of the static one and starts with its findings; and when
    the static result's verdict and summary are those of its findings, so are
    the returned result's. *)
Theorem llm_audit_keeps_result_consistent (sk : skill) (r r' : ScanResult)
    (model : option str) :
  llm_audit_skill sk r model = Ok r' ->
  skill_name r' = skill_name r /\ source r' = source r /\
  trust_level r' = trust_level r /\ scanned_at r' = scanned_at r /\
  (exists fs, findings r' = findings r ++ fs) /\
  (consistent r -> consistent r').
Proof.
  intros E.
  assert (M : r' = r \/ exists fs, r' = merge_findings r fs).
  { destruct (llm_audit_skill_cases sk r model) as [S | [text S]]; rewrite S in E.
    - left. congruence.
    - destruct (_parse_llm_response text (skill_name r)) as [fs|e];
        cbn [bind] in E; [|discriminate].
      right. exists fs. congruence. }
  assert (Same : forall x : ScanResult,
             skill_name x = skill_name x /\ source x = source x /\
             trust_level x = trust_level x /\ scanned_at x = scanned_at x /\
             (exists fs, findings x = findings x ++ fs) /\
             (consistent x -> consistent x)).
  { intros x. do 4 (split; [reflexivity|]).
    split; [exists []; now rewrite app_nil_r | tauto]. }
  destruct M as [-> | [fs ->]]; [apply Same|].
  unfold merge_findings. destruct fs as [|f fs]; [apply Same|].
  cbn [skill_name source trust_level scanned_at findings].
  do 4 (split; [reflexivity|]).
  split; [now exists (f :: fs)|].
  intros [V _]. unfold consistent.
  cbn [verdict summary skill_name source trust_level findings].
  split; [|reflexivity].
  rewrite !verdict_priority_rank.
  destruct (Nat.ltb_spec
              (verdict_rank (_determine_verdict (findings r ++ f :: fs)))
              (verdict_rank (verdict r))) as [L | L]; [|reflexivity].
  exfalso. rewrite V in L.
  pose proof (determine_verdict_app (findings r) (f :: fs)). lia.
Qed.

(** Where the audit gives up and returns the static result unchanged: no API
    key, no model named or configured, a call that fails, a reply that is not
    JSON. *)
Theorem llm_audit_best_effort (sk : skill) (r : ScanResult) (model : option str) :
  (api_key = [] -> llm_audit_skill sk r model = Ok r) /\
  (configured_model = [] -> (model = None \/ model = Some []) ->
   llm_audit_skill sk r model = Ok r) /\
  ((forall m content, chat_completion m content = None) ->
   llm_audit_skill sk r model = Ok r) /\
  ((forall m content text,
      chat_completion m content = Some text ->
      json_loads (strip_fence (strip text)) = None) ->
   llm_audit_skill sk r model = Ok r).
Proof.
  unfold llm_audit_skill.
  destruct (str_eqb (verdict r) (lit "dangerous")); [repeat split; reflexivity|].
  match goal with |- context [match ?c with Some _ => _ | None => _ end] =>
    destruct c as [[|part parts]|] end; try (repeat split; reflexivity).
  split; [|split; [|split]].
  - intros ->.
    match goal with |- context [match ?m with [] => Ok r | _ :: _ => _ end] =>
      now destruct m end.
  - intros -> [-> | ->]; reflexivity.
  - intros C.
    match goal with |- context [match ?m with [] => Ok r | _ :: _ => _ end] =>
      destruct m end; [reflexivity|].
    destruct api_key; [reflexivity|]. now rewrite C.
  - intros J.
    match goal with |- context [match ?m with [] => Ok r | _ :: _ => _ end] =>
      destruct m end; [reflexivity|].
    destruct api_key; [reflexivity|].
    destruct (chat_completion _ _) as [text|] eqn:C; [|reflexivity].
    unfold _parse_llm_response. now rewrite (J _ _ _ C).
Qed.

End AuditEdges.

(** Any classifier finding escalates: merged into a result, findings of
    whatever severity leave a verdict that is not safe, and without force the
    merged result is blocked unless its trust level is builtin or trusted. *)
Theorem merge_findings_escalates (r : ScanResult) (fs : list Finding) :
  fs <> [] ->
  (verdict (merge_findings r fs) = lit "dangerous" \/
   verdict (merge_findings r fs) = lit "caution") /\
  (trust_level r <> lit "builtin" -> trust_level r <> lit "trusted" ->
   decision_of (merge_findings r fs) false = Some false).
Proof.
  intros N.
  assert (V : verdict (merge_findings r fs) = lit "dangerous" \/
              verdict (merge_findings r fs) = lit "caution").
  { unfold merge_findings. destruct fs as [|f fs]; [contradiction|]. cbn [verdict].
    rewrite !verdict_priority_rank.
    assert (Ne : findings r ++ f :: fs <> []) by (now destruct (findings r)).
    destruct (determine_verdict_values _ Ne) as [D | C].
    - rewrite D. destruct (Nat.ltb_spec (verdict_rank (lit "dangerous"))
                                        (verdict_rank (verdict r))) as [L | L]; [|now left].
      exfalso. unfold verdict_rank in L.
      destruct (str_eqb (verdict r) _); [vm_compute in L; lia|].
      destruct (str_eqb (verdict r) _); vm_compute in L; lia.
    - rewrite C. destruct (Nat.ltb_spec (verdict_rank (lit "caution"))
                                        (verdict_rank (verdict r))) as [L | L]; [|now right].
      left. unfold verdict_rank in L.
      destruct (str_eqb (verdict r) (lit "dangerous")) eqn:E;
        [now apply str_eqb_eq in E|].
      destruct (str_eqb (verdict r) (lit "caution")); vm_compute in L; lia. }
  split; [exact V|].
  intros B T. rewrite decision_by_table.
  assert (Tr : trust_level (merge_findings r fs) = trust_level r).
  { unfold merge_findings. now destruct fs. }
  rewrite Tr. apply str_eqb_neq in B. apply str_eqb_neq in T.
  unfold table_allows. rewrite B, T.
  destruct V as [-> | ->]; reflexivity.
Qed.

Lemma malformed_reply_raises_witness :
  exists e,
    llm_audit_skill (world := numeric_collaborators) manifest_only clean_result
                    (Some (lit "m"))
    = Raise e.
Proof.
  destruct (malformed_reply_raises (world := numeric_collaborators)
              (lit "{}") numeric_reply eq_refl) as [_ B].
  destruct (B eq_refl) as [_ A].
  apply (A manifest_only clean_result (lit "m") (Some (lit "/skills/demo"))
           [mkEntry [lit "SKILL.md"] (Regular (plain_file (ascii_bytes "Be kind.")))]
           (mkEntry [lit "SKILL.md"] (Regular (plain_file (ascii_bytes "Be kind."))))).
  - discriminate.
  - reflexivity.
  - now left.
  - vm_compute. discriminate.
  - discriminate.
  - discriminate.
  - reflexivity.
Defined.

Lemma llm_audit_keeps_result_consistent_witness :
  skill_name (merge_findings clean_result [demo_llm_finding]) = skill_name clean_result /\
  source (merge_findings clean_result [demo_llm_finding]) = source clean_result /\
  trust_level (merge_findings clean_result [demo_llm_finding]) = trust_level clean_result /\
  scanned_at (merge_findings clean_result [demo_llm_finding]) = scanned_at clean_result /\
  (exists fs, findings (merge_findings clean_result [demo_llm_finding])
              = findings clean_result ++ fs) /\
  (consistent clean_result -> consistent (merge_findings clean_result [demo_llm_finding])).
Proof.
  apply (llm_audit_keeps_result_consistent (world := demo_collaborators)
           manifest_only clean_result
           (merge_findings clean_result [demo_llm_finding]) None).
  vm_compute. reflexivity.
Defined.

Lemma llm_audit_best_effort_witness :
  llm_audit_skill (world := keyless) manifest_only clean_result None = Ok clean_result /\
  llm_audit_skill (world := modelless) manifest_only clean_result None = Ok clean_result /\
  llm_audit_skill (world := unreachable) manifest_only clean_result None = Ok clean_result /\
  llm_audit_skill (world := chatty) manifest_only clean_result None = Ok clean_result.
Proof.
  split; [|split; [|split]].
  - destruct (llm_audit_best_effort (world := keyless) manifest_only clean_result None)
      as (A & _). apply A. reflexivity.
  - destruct (llm_audit_best_effort (world := modelless) manifest_only clean_result None)
      as (_ & A & _). apply A; [reflexivity | now left].
  - destruct (llm_audit_best_effort (world := unreachable) manifest_only clean_result None)
      as (_ & _ & A & _). apply A. reflexivity.
  - destruct (llm_audit_best_effort (world := chatty) manifest_only clean_result None)
      as (_ & _ & _ & A). apply A.
    intros m content text E.
    change (Some (lit "I cannot review this skill.") = Some text) in E.
    injection E as <-. vm_compute. reflexivity.
Defined.

(** With the same directory and result the demo classifier is heard: each of
    the four cases above is what stops the audit there.  And a named model is
    passed on as it is named. *)
Example llm_audit_demo_reply_merged :
  llm_audit_skill (world := demo_collaborators) manifest_only clean_result None
  = Ok (merge_findings clean_result [demo_llm_finding]).
Proof. vm_compute. reflexivity. Qed.

Example llm_audit_named_model :
  llm_audit_skill (world := serving (lit "m")) manifest_only clean_result (Some (lit "m"))
  = Ok (merge_findings clean_result [demo_llm_finding]) /\
  llm_audit_skill (world := serving (lit "gpt-4o")) manifest_only clean_result
                  (Some (lit "gpt-4o"))
  = Ok (merge_findings clean_result [demo_llm_finding]) /\
  llm_audit_skill (world := serving (lit "pt-4o")) manifest_only clean_result
                  (Some (lit "gpt-4o"))
  = Ok clean_result.
Proof. vm_compute. repeat split. Qed.

Lemma merge_findings_escalates_witness :
  (verdict (merge_findings clean_result [low_llm_finding]) = lit "dangerous" \/
   verdict (merge_findings clean_result [low_llm_finding]) = lit "caution") /\
  decision_of (merge_findings clean_result [low_llm_finding]) false = Some false.
Proof.
  destruct (merge_findings_escalates clean_result [low_llm_finding]) as [V D].
  - discriminate.
  - split; [exact V | apply D; vm_compute; discriminate].
Defined.

(** ** Fenced replies *)

Lemma split_nonempty (sep : char) (s : str) : split sep s <> [].
Proof.
  destruct s as [|c s]; cbn [split]; [discriminate|].
  destruct (c =? sep); [discriminate|]. destruct (split sep s); discriminate.
Qed.

Lemma split_app_sep (sep : char) (x y : str) :
  split sep (x ++ sep :: y) = split sep x ++ split sep y.
Proof.
  induction x as [|c x IH]; cbn [app split].
  - now rewrite N.eqb_refl.
  - destruct (c =? sep); [now rewrite IH|].
    rewrite IH. pose proof (split_nonempty sep x).
    destruct (split sep x); [contradiction | reflexivity].
Qed.

Lemma split_no_sep (sep : char) (s : str) : ~ In sep s -> split sep s = [s].
Proof.
  induction s as [|c s IH]; intros N; cbn [split]; [reflexivity|].
  destruct (N.eqb_spec c sep) as [-> | _]; [exfalso; apply N; now left|].
  rewrite IH; [reflexivity|]. intros I. apply N. now right.
Qed.

(** Joining the lines of a text gives the text back. *)
Lemma join_split (sep : char) (s : str) : join [sep] (split sep s) = s.
Proof.
  induction s as [|c s IH]; cbn [split]; [reflexivity|].
  pose proof (split_nonempty sep s) as Ne.
  destruct (N.eqb_spec c sep) as [-> | _].
  - destruct (split sep s) as [|l ls]; [contradiction|].
    change (join [sep] ([] :: l :: ls)) with ([] ++ [sep] ++ join [sep] (l :: ls)).
    now rewrite IH.
  - destruct (split sep s) as [|l ls]; [contradiction|].
    destruct ls as [|l' ls].
    + cbn [join] in *. now subst l.
    + change (join [sep] ((c :: l) :: l' :: ls))
        with (c :: (l ++ [sep] ++ join [sep] (l' :: ls))).
      change (join [sep] (l :: l' :: ls))
        with (l ++ [sep] ++ join [sep] (l' :: ls)) in IH.
      now rewrite IH.
Qed.

Lemma strip_fence_fenced (lang body : str) :
  ~ In 10 lang -> strip_fence (fenced lang body) = body.
Proof.
  intros N. unfold strip_fence, fenced.
  rewrite startswith_app.
  replace (lit "```" ++ lang ++ [10] ++ body ++ [10] ++ lit "```")
    with ((lit "```" ++ lang) ++ 10 :: (body ++ 10 :: lit "```"))
    by (now rewrite <- !app_assoc).
  rewrite !split_app_sep.
  rewrite (split_no_sep 10 (lit "```" ++ lang)).
  - change (split 10 (lit "```")) with [lit "```"].
    rewrite app_assoc, last_last.
    change (startswith (lit "```") (lit "```")) with true. cbn iota.
    cbn [app tl]. rewrite removelast_last. apply join_split.
  - intros I. apply in_app_or in I as [I | I]; [|now apply N].
    vm_compute in I. intuition discriminate.
Qed.

Lemma lstrip_kept (c : char) (s : str) : isspace c = false -> lstrip (c :: s) = c :: s.
Proof. intros E. cbn [lstrip]. now rewrite E. Qed.

Lemma strip_ends (a z : char) (m : str) :
  isspace a = false -> isspace z = false -> strip (a :: m ++ [z]) = a :: m ++ [z].
Proof.
  intros A Z. unfold strip. rewrite lstrip_kept by exact A.
  assert (R : rev (a :: m ++ [z]) = z :: (rev m ++ [a])).
  { cbn [rev]. now rewrite rev_unit. }
  rewrite R, lstrip_kept by exact Z. now rewrite <- R, rev_involutive.
Qed.

Lemma strip_fenced (lang body : str) : strip (fenced lang body) = fenced lang body.
Proof.
  assert (E : fenced lang body
              = 96 :: (lit "``" ++ lang ++ [10] ++ body ++ [10] ++ lit "``") ++ [96]).
  { unfold fenced. change (lit "```") with (96 :: lit "``") at 1.
    change (lit "```") with (lit "``" ++ [96]).
    cbn [app]. f_equal.
    repeat (rewrite <- app_assoc || rewrite <- app_comm_cons). reflexivity. }
  rewrite E. now apply strip_ends.
Qed.

Section Fences.

Context {world : Collaborators}.

(** A reply wrapped in a fenced block parses like the bare reply: for a
    language tag without a newline and a body that is stripped and does not
    itself open a fence, [_parse_llm_response] gives the same result on the
    fenced text as on the body. *)
Theorem fenced_reply_parses_like_bare (lang body name : str) :
  ~ In 10 lang -> strip body = body -> startswith body (lit "```") = false ->
  _parse_llm_response (fenced lang body) name = _parse_llm_response body name.
Proof.
  intros N S F. unfold _parse_llm_response.
  rewrite strip_fenced, strip_fence_fenced, S by exact N.
  unfold strip_fence. now rewrite F.
Qed.

End Fences.

Lemma fenced_reply_parses_like_bare_witness :
  _parse_llm_response (world := demo_collaborators)
                      (fenced (lit "json") demo_reply_text) []
  = _parse_llm_response (world := demo_collaborators) demo_reply_text [].
Proof.
  apply (fenced_reply_parses_like_bare (world := demo_collaborators)).
  - vm_compute. intuition discriminate.
  - vm_compute. reflexivity.
  - vm_compute. reflexivity.
Defined.

(** ** The content hash sees bytes only *)

Lemma insert_entry_byteless (e : entry) (l : list entry) :
  readable_bytes e = [] ->
  flat_map readable_bytes (insert_entry e l) = flat_map readable_bytes l.
Proof.
  intros B. induction l as [|a l IH]; cbn [insert_entry flat_map].
  - now rewrite B.
  - destruct (parts_leb (e_parts e) (e_parts a)); cbn [flat_map].
    + now rewrite B.
    + now rewrite IH.
Qed.

Lemma byteless_readable_bytes (e : entry) : byteless e -> readable_bytes e = [].
Proof.
  unfold byteless, readable_bytes.
  intros [-> | (d & -> & [-> | B])]; try reflexivity.
  now destruct (f_readable d).
Qed.

(** An entry that feeds no byte to the hasher -- a directory, a special file,
    a symlink that leads to no regular file, a file that cannot be read, an
    empty file -- leaves the content hash of a directory as it was. *)
Theorem content_hash_ignores_byteless (name : str) (root : option str)
    (entries : list entry) (e : entry) :
  byteless e ->
  content_hash (mkSkill name (SkillDir root (e :: entries)))
  = content_hash (mkSkill name (SkillDir root entries)).
Proof.
  intros B. unfold content_hash. cbn [sk_node bind].
  rewrite !hashed_bytes_readable. cbn [sorted_entries fold_right].
  fold (sorted_entries entries).
  now rewrite insert_entry_byteless by now apply byteless_readable_bytes.
Qed.

Lemma content_hash_ignores_byteless_witness :
  content_hash (mkSkill (lit "demo")
                  (SkillDir None [mkEntry [lit "assets"] Directory; manifest_entry]))
  = content_hash (mkSkill (lit "demo") (SkillDir None [manifest_entry])).
Proof.
  apply (content_hash_ignores_byteless (lit "demo") None [manifest_entry]
           (mkEntry [lit "assets"] Directory)).
  left. reflexivity.
Defined.

(** A path that is one file hashes like a directory that holds that file
    alone, under whatever name, when the file can be read; when it cannot,
    the single file raises OSError while the directory skips it and hashes as
    an empty one. *)
Theorem content_hash_single_file (name : str) (d : file_data) (root : option str)
    (parts : list str) :
  (f_readable d = true ->
   content_hash (mkSkill name (SkillFile d))
   = content_hash (mkSkill name (SkillDir root [mkEntry parts (Regular d)]))) /\
  (f_readable d = false ->
   content_hash (mkSkill name (SkillFile d)) = Raise OSError /\
   content_hash (mkSkill name (SkillDir root [mkEntry parts (Regular d)]))
   = content_hash (mkSkill name (SkillDir root []))).
Proof.
  unfold content_hash, hashed_bytes, read_bytes.
  cbn [sk_node sorted_entries fold_right insert_entry flat_map file_of e_kind].
  split; intros ->; cbn [bind]; [now rewrite app_nil_r | now split].
Qed.

Lemma content_hash_single_file_witness :
  content_hash (mkSkill (lit "demo") (SkillFile (mkFile (ascii_bytes "a") false None)))
  = Raise OSError /\
  content_hash (mkSkill (lit "demo")
                  (SkillDir None [mkEntry [lit "a.md"]
                                    (Regular (mkFile (ascii_bytes "a") false None))]))
  = content_hash (mkSkill (lit "demo") (SkillDir None [])).
Proof.
  apply (content_hash_single_file (lit "demo") (mkFile (ascii_bytes "a") false None)
           None [lit "a.md"]).
  reflexivity.
Defined.

(** ** The payload of the audit *)

Lemma payload_length (content : str) :
  Nat.le
    (List.length
       (if 15000 <? N.of_nat (List.length content)
        then firstn (N.to_nat 15000) content ++ [10; 10] ++
             lit "[... truncated for analysis ...]"
        else content))
    max_payload.
Proof.
  unfold max_payload.
  set (marker := [10; 10] ++ lit "[... truncated for analysis ...]").
  set (k := N.to_nat 15000).
  destruct (N.ltb_spec 15000 (N.of_nat (List.length content))) as [L | L].
  - rewrite length_app, length_firstn.
    apply Nat.add_le_mono_r, Nat.le_min_l.
  - assert (B : (List.length content <= k)%nat) by (subst k; lia).
    clearbody k marker. apply (Nat.le_trans _ k); [exact B | apply Nat.le_add_r].
Qed.

Lemma parse_items_classifier (w : Collaborators) (chat : str -> str -> option str)
    (items : list json) :
  forall found,
    parse_items (world := with_classifier w chat) found items
    = parse_items (world := w) found items.
Proof.
  induction items as [|item items IH]; intros found; cbn [parse_items]; [reflexivity|].
  change (parse_item (world := with_classifier w chat) found item)
    with (parse_item (world := w) found item).
  destruct (parse_item found item); cbn [bind]; [apply IH | reflexivity].
Qed.

Lemma parse_llm_response_classifier (w : Collaborators)
    (chat : str -> str -> option str) (text name : str) :
  _parse_llm_response (world := with_classifier w chat) text name
  = _parse_llm_response (world := w) text name.
Proof.
  unfold _parse_llm_response.
  change (@json_loads (with_classifier w chat)) with (@json_loads w).
  destruct (json_loads _) as [[| | | | | |fields]|]; try reflexivity.
  destruct (py_iter _); cbn [bind]; [apply parse_items_classifier | reflexivity].
Qed.

(** The classifier is consulted on a bounded text only: the audit sends at
    most 15000 characters of skill content and the truncation marker, so two
    classifiers that agree on texts up to that length give the same audit. *)
Theorem llm_audit_payload_bounded (w : Collaborators)
    (chat : str -> str -> option str) (sk : skill) (r : ScanResult)
    (model : option str) :
  (forall m content,
     (List.length content <= max_payload)%nat ->
     chat m content = chat_completion (Collaborators := w) m content) ->
  llm_audit_skill (world := with_classifier w chat) sk r model
  = llm_audit_skill (world := w) sk r model.
Proof.
  intros A. unfold llm_audit_skill.
  change (@configured_model (with_classifier w chat)) with (@configured_model w).
  change (@api_key (with_classifier w chat)) with (@api_key w).
  change (@chat_completion (with_classifier w chat)) with chat.
  destruct (str_eqb (verdict r) (lit "dangerous")); [reflexivity|].
  match goal with |- context [match ?c with Some _ => _ | None => _ end] =>
    destruct c as [[|part parts]|] end; try reflexivity.
  match goal with |- context [match ?m with [] => Ok r | _ :: _ => _ end] =>
    destruct m end; [reflexivity|].
  destruct (@api_key w); [reflexivity|].
  rewrite A by apply payload_length.
  destruct (chat_completion _ _) as [text|]; [|reflexivity].
  now rewrite parse_llm_response_classifier.
Qed.

Lemma llm_audit_payload_bounded_witness :
  llm_audit_skill (world := with_classifier demo_collaborators long_text_classifier)
                  manifest_only clean_result None
  = llm_audit_skill (world := demo_collaborators) manifest_only clean_result None.
Proof.
  apply (llm_audit_payload_bounded demo_collaborators long_text_classifier).
  intros m content L. unfold long_text_classifier.
  destruct (Nat.ltb_spec max_payload (List.length content)); [lia | reflexivity].
Defined.

(** ** Replies of the documented shape *)

Section Contract.

Context {world : Collaborators}.

Lemma parse_contract_item (found : list Finding) (p : str * str) :
  parse_item found (contract_item p)
  = Ok (found ++ if has_description p then [wrapped_item p] else []).
Proof.
  destruct p as [d s]. unfold parse_item, contract_item, has_description, wrapped_item.
  cbn [fst snd].
  change (json_get [(lit "description", JStr d); (lit "severity", JStr s)]
                   (lit "description")) with (Some (JStr d)).
  change (json_get [(lit "description", JStr d); (lit "severity", JStr s)]
                   (lit "severity")) with (Some (JStr s)).
  cbn [truthy llm_severity]. fold llm_severities.
  destruct (negb (str_eqb d [])); [reflexivity | now rewrite app_nil_r].
Qed.

Lemma parse_contract_items (items : list (str * str)) :
  forall found,
    parse_items found (map contract_item items)
    = Ok (found ++ map wrapped_item (filter has_description items)).
Proof.
  induction items as [|p items IH]; intros found; cbn [map parse_items filter].
  - now rewrite app_nil_r.
  - rewrite parse_contract_item. cbn [bind]. rewrite IH, <- app_assoc.
    now destruct (has_description p).
Qed.

(** A reply of the documented shape is turned, item by item and in order, into
    the findings of its items that have a description: each with the first 120
    characters of the description as match and its severity, or medium when
    that is not one of the four names.  The reply's own verdict is not read. *)
Theorem contract_reply_parsed (text name : str) (v : json) (items : list (str * str)) :
  json_loads (strip_fence (strip text)) = Some (contract_reply v items) ->
  _parse_llm_response text name
  = Ok (map wrapped_item (filter has_description items)).
Proof.
  intros J. unfold _parse_llm_response. rewrite J. unfold contract_reply.
  change (json_get [(lit "verdict", v);
                    (lit "findings", JArr (map contract_item items))]
                   (lit "findings"))
    with (Some (JArr (map contract_item items))).
  cbn [py_iter bind]. apply parse_contract_items.
Qed.

End Contract.

Lemma contract_reply_parsed_witness :
  _parse_llm_response
    (world := replying (contract_reply (JStr (lit "dangerous"))
                          [(lit "reads ssh keys", lit "urgent"); ([], lit "high");
                           (lit "long lines", lit "low")]))
    (lit "{}") []
  = Ok (map wrapped_item
          (filter has_description
             [(lit "reads ssh keys", lit "urgent"); ([], lit "high");
              (lit "long lines", lit "low")])).
Proof.
  apply (contract_reply_parsed
           (world := replying (contract_reply (JStr (lit "dangerous"))
                                 [(lit "reads ssh keys", lit "urgent"); ([], lit "high");
                                  (lit "long lines", lit "low")]))
           (lit "{}") [] (JStr (lit "dangerous"))).
  reflexivity.
Defined.

(** ** The scan report *)

Lemma insert_by_severity_perm (f : Finding) (l : list Finding) :
  Permutation (insert_by_severity f l) (f :: l).
Proof.
  induction l as [|g l IH]; cbn [insert_by_severity]; [apply Permutation_refl|].
  destruct (_ <=? _)%nat; [apply Permutation_refl|].
  eapply perm_trans; [apply perm_skip, IH | apply perm_swap].
Qed.

Lemma insert_by_severity_sorted (f : Finding) (l : list Finding) :
  StronglySorted severity_le l -> StronglySorted severity_le (insert_by_severity f l).
Proof.
  induction l as [|g l IH]; intros S; cbn [insert_by_severity].
  - constructor; constructor.
  - inversion S as [|? ? S' F]; subst.
    destruct (Nat.leb_spec (severity_order (severity f)) (severity_order (severity g)))
      as [L | L].
    + constructor; [exact S|]. constructor; [exact L|].
      eapply Forall_impl; [|exact F]. unfold severity_le. intros; lia.
    + constructor; [now apply IH|].
      eapply Permutation_Forall; [apply Permutation_sym, insert_by_severity_perm|].
      constructor; [unfold severity_le; lia | exact F].
Qed.

Lemma insert_by_severity_rank (k : nat) (f : Finding) (l : list Finding) :
  filter (of_rank k) (insert_by_severity f l) = filter (of_rank k) (f :: l).
Proof.
  induction l as [|g l IH]; cbn [insert_by_severity]; [reflexivity|].
  destruct (Nat.leb_spec (severity_order (severity f)) (severity_order (severity g)))
    as [L | L]; [reflexivity|].
  cbn [filter] in *. rewrite IH. unfold of_rank.
  destruct (Nat.eqb_spec (severity_order (severity f)) k) as [Ef | Ef];
    destruct (Nat.eqb_spec (severity_order (severity g)) k) as [Eg | Eg];
    try reflexivity.
  lia.
Qed.

Lemma sorted_by_severity_sorted (fs : list Finding) :
  StronglySorted severity_le (sorted_by_severity fs).
Proof.
  induction fs as [|f fs IH]; cbn [sorted_by_severity fold_right]; [constructor|].
  now apply insert_by_severity_sorted.
Qed.

Lemma sorted_by_severity_rank (k : nat) (fs : list Finding) :
  filter (of_rank k) (sorted_by_severity fs) = filter (of_rank k) fs.
Proof.
  induction fs as [|f fs IH]; cbn [sorted_by_severity fold_right]; [reflexivity|].
  rewrite insert_by_severity_rank. cbn [filter].
  fold (sorted_by_severity fs). now rewrite IH.
Qed.

Lemma severity_order_cases (s : str) :
  severity_order s
  = if str_eqb s (lit "critical") then 0%nat
    else if str_eqb s (lit "high") then 1%nat
    else if str_eqb s (lit "medium") then 2%nat
    else if str_eqb s (lit "low") then 3%nat
    else 4%nat.
Proof.
  unfold severity_order, dict_get_default. cbn [dict_get].
  repeat (match goal with |- context [str_eqb s ?k] => destruct (str_eqb s k) end);
    reflexivity.
Qed.

Lemma severity_order_bound (s : str) : (severity_order s <= 4)%nat.
Proof.
  rewrite severity_order_cases.
  repeat (match goal with |- context [str_eqb s ?k] => destruct (str_eqb s k) end); lia.
Qed.

Lemma rank_below (f : Finding) (l : list Finding) (j : nat) :
  Forall (severity_le f) l -> (j < severity_order (severity f))%nat ->
  filter (of_rank j) l = [].
Proof.
  intros F L. induction F as [|g l G F IH]; [reflexivity|].
  cbn [filter]. unfold of_rank at 1. unfold severity_le in G.
  destruct (Nat.eqb_spec (severity_order (severity g)) j); [lia | exact IH].
Qed.

(** A list in the order of the ranks is its five groups, one after the other. *)
Lemma sorted_by_rank (l : list Finding) :
  StronglySorted severity_le l ->
  l = filter (of_rank 0) l ++ filter (of_rank 1) l ++ filter (of_rank 2) l ++
      filter (of_rank 3) l ++ filter (of_rank 4) l.
Proof.
  induction 1 as [|f l S IH F]; [reflexivity|].
  pose proof (severity_order_bound (severity f)) as B.
  pose proof (fun j => rank_below f l j F) as Below.
  assert (R : forall j, of_rank j f = (severity_order (severity f) =? j)%nat)
    by reflexivity.
  cbn [filter]. rewrite !R.
  destruct (severity_order (severity f)) as [|[|[|[|[|k]]]]]; try lia;
    cbn [Nat.eqb]; repeat (rewrite Below by lia); cbn [app];
    repeat (rewrite Below in IH by lia); cbn [app] in IH.
  - now rewrite <- IH.
  - now rewrite <- IH.
  - now rewrite <- IH.
  - now rewrite <- IH.
  - now rewrite <- IH.
Qed.

Lemma rank_groups (fs : list Finding) :
  filter (of_rank 0) fs = with_severity (lit "critical") fs /\
  filter (of_rank 1) fs = with_severity (lit "high") fs /\
  filter (of_rank 2) fs = with_severity (lit "medium") fs /\
  filter (of_rank 3) fs = with_severity (lit "low") fs /\
  filter (of_rank 4) fs = other_severity fs.
Proof.
  unfold with_severity, other_severity.
  repeat split; apply filter_ext; intros f; unfold of_rank;
    rewrite severity_order_cases; generalize (severity f) as s; intros s;
    (decide_str s (lit "critical"); [vm_compute; reflexivity|]);
    (decide_str s (lit "high"); [vm_compute; reflexivity|]);
    (decide_str s (lit "medium"); [vm_compute; reflexivity|]);
    (decide_str s (lit "low"); [vm_compute; reflexivity|]);
    unfold str_in, known_severities; cbn [existsb];
    rewrite ?E, ?E0, ?E1, ?E2; reflexivity.
Qed.

Lemma sorted_by_severity_listing (fs : list Finding) :
  sorted_by_severity fs = listing fs.
Proof.
  rewrite (sorted_by_rank _ (sorted_by_severity_sorted fs)).
  rewrite !sorted_by_severity_rank.
  destruct (rank_groups fs) as (-> & -> & -> & -> & ->). reflexivity.
Qed.

Lemma should_allow_install_returns (r : ScanResult) (force : bool) :
  exists reason,
    should_allow_install r force
    = Ok (if str_eqb (verdict r) (lit "dangerous") && negb force then false
          else table_allows (trust_level r) (verdict r) || force, reason).
Proof.
  pose proof (decision_by_table r force) as D. unfold decision_of in D.
  destruct (should_allow_install r force) as [[allowed reason] | e];
    [|discriminate].
  injection D as ->. now exists reason.
Qed.

Lemma sorted_by_severity_length (fs : list Finding) :
  List.length (sorted_by_severity fs) = List.length fs.
Proof.
  induction fs as [|f fs IH]; cbn [sorted_by_severity fold_right]; [reflexivity|].
  rewrite (Permutation_length (insert_by_severity_perm _ _)).
  cbn [List.length]. f_equal. exact IH.
Qed.

Example sorted_by_severity_mixed :
  map pattern_id (sorted_by_severity mixed_findings)
  = [lit "second"; lit "first"; lit "third"].
Proof. vm_compute. reflexivity. Qed.

Example format_scan_report_mixed :
  format_scan_report (case := ascii_upper) (world := demo_collaborators) mixed_result
  = Ok (join [10]
      [ lit "Scan: demo (random/repo/community)  Verdict: DANGEROUS";
        lit "  CRITICAL structural     b.md:2                         " ++ dq ++ lit "rm" ++ dq;
        lit "  LOW      structural     a.md:1                         " ++ dq ++ lit "rm" ++ dq;
        lit "  LOW      structural     c.md:3                         " ++ dq ++ lit "rm" ++ dq;
        [];
        lit "Decision: BLOCKED " ++ em_dash ++
        lit " Scan verdict is DANGEROUS (3 findings). Blocked." ]).
Proof. vm_compute. reflexivity. Qed.

Section Report.

Context {case : CaseMapping} {world : Collaborators}.

(** The report is always produced and says what the gate decides without
    force: after the header come one line per finding and, when there are
    findings, an empty line; the last line reads ALLOWED when the verdict is
    not dangerous and the policy table allows the trust level and verdict, and
    BLOCKED otherwise. *)
Theorem format_scan_report_decision (r : ScanResult) :
  exists header listed last_line,
    format_scan_report r = Ok (join [10] (header :: listed ++ [last_line])) /\
    List.length listed
    = match findings r with
      | [] => 0%nat
      | fs => S (List.length fs)
      end /\
    startswith last_line (lit "Decision: ALLOWED")
    = negb (str_eqb (verdict r) (lit "dangerous")) &&
      table_allows (trust_level r) (verdict r) /\
    startswith last_line (lit "Decision: BLOCKED")
    = negb (negb (str_eqb (verdict r) (lit "dangerous")) &&
            table_allows (trust_level r) (verdict r)).
Proof.
  unfold format_scan_report, report_lines.
  destruct (should_allow_install_returns r false) as (reason & ->).
  cbn [bind]. eexists _, _, _. split; [reflexivity|]. split.
  - destruct (findings r) as [|f fs] eqn:F; [reflexivity|].
    rewrite length_app, length_map, sorted_by_severity_length.
    cbn [List.length]. lia.
  - rewrite Bool.orb_false_r.
    destruct (str_eqb (verdict r) (lit "dangerous"));
      destruct (table_allows (trust_level r) (verdict r)); split; reflexivity.
Qed.

(** The order of the report.  After the header come the lines of the
    critical findings, then those of the high, the medium and the low ones,
    then those of any other severity, each group in the order the findings have
    in the result; an empty line follows them.  A result without findings has
    the header and the decision only. *)
Theorem report_order (r : ScanResult) :
  exists header last_line,
    format_scan_report r
    = Ok (join [10]
            (header ::
             match findings r with
             | [] => []
             | _ :: _ => map finding_line (listing (findings r)) ++ [[]]
             end ++ [last_line])).
Proof.
  unfold format_scan_report, report_lines.
  destruct (should_allow_install_returns r false) as (reason & ->).
  cbn [bind]. eexists _, _.
  destruct (findings r) as [|f fs]; [reflexivity|].
  now rewrite sorted_by_severity_listing.
Qed.

End Report.
